(** * Model-property extraction and extraction cache of the ASP.NET Core
      View Helper extension

    A shallow embedding of

    - [src/cache.ts]        : class [ModelCache] (a JS [Map] with a size bound
                              and a time based expiry);
    - [src/modelParser.ts]  : the current parser ([parseModelProperties],
                              [cleanSourceCode], [parsePropertiesFromContent],
                              [shouldSkipProperty], [createModelProperty],
                              [extractAttributeMetadata], [cleanupType],
                              [getInputTypeForProperty]);
    - [aspnetcore-view-helper/src/modelParser.ts] : the older parser kept in
                              the repository (module [Legacy]).

    Conventions of the embedding.

    - A JS string is a list of code units.  Only code units below 256 are
      modelled (type [ascii]); on that range [\s], [trim], line terminators,
      [toLowerCase] and the [i] flag of regular expressions are the ones of
      ECMAScript.
    - Regular expressions are values of an abstract syntax ([regex]) run by a
      backtracking matcher written in continuation passing style, as in the
      ECMAScript definition: greedy and lazy stars, ordered alternation,
      capture groups, [^] and [$].
    - Time stamps ([mtimeMs], [Date.now()]) are whole milliseconds in [Z].
    - What [parseInt] returns is a JS number: an integer rounded to 53
      significant bits, or [Infinity].
    - The file system, the workspace search, the clock and the [RegExp]
      constructor applied to a run-time pattern are fields of a record
      [World]; an exception is the [None] of an [option]. *)

From Stdlib Require Import Ascii String List ZArith NArith Lia Bool Arith.
Import ListNotations.

Set Implicit Arguments.

(* ------------------------------------------------------------------ *)
(** ** JS strings *)

Module JsString.

Definition str := list ascii.

Definition lit (s : string) : str := list_ascii_of_string s.
Arguments lit s%_string.

Definition code (c : ascii) : N := N_of_ascii c.

Definition inRange (lo hi : N) (c : ascii) : bool :=
  (lo <=? code c)%N && (code c <=? hi)%N.

(** WhiteSpace and LineTerminator code points below 256: TAB, LF, VT, FF,
    CR, SP, NBSP. *)
Definition isLineTerminator (c : ascii) : bool :=
  (code c =? 10)%N || (code c =? 13)%N.

Definition isWhiteSpace (c : ascii) : bool :=
  inRange 9 13 c || (code c =? 32)%N || (code c =? 160)%N.

Definition nl : ascii := ascii_of_N 10.

(** [String.prototype.toLowerCase] on code units below 256. *)
Definition toLower (c : ascii) : ascii :=
  if inRange 65 90 c || (inRange 192 222 c && negb (code c =? 215)%N)
  then ascii_of_N (code c + 32) else c.

Definition toLowerCase (s : str) : str := map toLower s.

(** Canonicalize of the [i] flag (simple upper-casing inside the range). *)
Definition canon (c : ascii) : ascii :=
  if inRange 97 122 c || (inRange 224 254 c && negb (code c =? 247)%N)
  then ascii_of_N (code c - 32) else c.

Fixpoint dropWhile (p : ascii -> bool) (s : str) : str :=
  match s with
  | [] => []
  | a :: s' => if p a then dropWhile p s' else s
  end.

Definition trimStart (s : str) : str := dropWhile isWhiteSpace s.
Definition trimEnd (s : str) : str := rev (dropWhile isWhiteSpace (rev s)).
Definition trim (s : str) : str := trimEnd (trimStart s).

Definition isEmpty (s : str) : bool :=
  match s with [] => true | _ => false end.

Fixpoint startsWith (s p : str) : bool :=
  match p, s with
  | [], _ => true
  | _ :: _, [] => false
  | b :: p', a :: s' => Ascii.eqb a b && startsWith s' p'
  end.

Fixpoint includes (s p : str) : bool :=
  startsWith s p ||
  match s with
  | [] => false
  | _ :: s' => includes s' p
  end.

Definition endsWith (s p : str) : bool := startsWith (rev s) (rev p).

Definition streq (a b : str) : bool :=
  (length a =? length b) && startsWith a b.

(** [s.split(sep)] for a one-character separator: never the empty list. *)
Fixpoint split (sep : ascii) (s : str) : list str :=
  match s with
  | [] => [[]]
  | a :: s' =>
      if Ascii.eqb a sep then [] :: split sep s'
      else match split sep s' with
           | [] => [[a]]
           | x :: xs => (a :: x) :: xs
           end
  end.

(** [(s.match(/c/g) ?? []).length] for a single character [c]. *)
Definition countChar (c : ascii) (s : str) : nat :=
  length (filter (Ascii.eqb c) s).

(** Number of lines: [s.split('\n').length]. *)
Definition lineCount (s : str) : nat := length (split nl s).

(** A JS number that holds a non-negative integer, or [Infinity]. *)
Inductive jsNumber : Type :=
| Finite (n : N)
| Infinity.

(** The Number value for a non-negative integer: the integer itself up to
    53 significant bits, else the nearest integer with 53 significant bits,
    a tie going to the even one, and [Infinity] from 2^1024 on. *)
Definition toNumber (n : N) : jsNumber :=
  let bits := N.size n in
  if (bits <=? 53)%N then Finite n
  else
    let shift := (bits - 53)%N in
    let q := N.shiftr n shift in
    let r := (n - N.shiftl q shift)%N in
    let half := N.shiftl 1 (shift - 1) in
    let q' := if (half <? r)%N || ((r =? half)%N && N.odd q) then (q + 1)%N else q in
    if (1024 <? N.size (N.shiftl q' shift))%N then Infinity
    else Finite (N.shiftl q' shift).

(** [parseInt(s, 10)] on a non-empty run of decimal digits. *)
Definition parseDigits (s : str) : jsNumber :=
  toNumber (fold_left (fun acc c => (10 * acc + (code c - 48))%N) s 0%N).

End JsString.
Import JsString.

(* ------------------------------------------------------------------ *)
(** ** Regular expressions

    The matcher follows the ECMAScript definition: a pattern is run against
    the rest of the input with a continuation for what follows it; failure
    of the continuation makes the pattern try its next choice.  An iteration
    of a star that consumes nothing is rejected.  No pattern of the program
    has a capture group under a star, so captures are never reset. *)

Module Regex.

Inductive regex : Type :=
| Eps                                 (* the empty pattern *)
| Chr (p : ascii -> bool)             (* one character: literal, class, [.] *)
| Seq (r1 r2 : regex)
| Alt (r1 r2 : regex)                 (* r1|r2, r1 tried first *)
| Star (greedy : bool) (r : regex)    (* r* and r*? *)
| Group (i : nat) (r : regex)         (* capture group number i *)
| Bol                                 (* ^ without the m flag *)
| Eol (multiline : bool).             (* $ *)

Definition caps := list (nat * str).
Definition mres := (str * caps)%type.
Definition cont := str -> caps -> option mres.

Definition orElse (a : option mres) (b : unit -> option mres) : option mres :=
  match a with
  | Some x => Some x
  | None => b tt
  end.

(** The iterations of a star.  [step] runs the starred pattern once; an
    iteration that leaves the input as it was is rejected.  At most
    [length s] iterations can consume input, which is the fuel given. *)
Fixpoint starLoop (step : str -> caps -> cont -> option mres) (greedy : bool)
  (k : cont) (fuel : nat) (s : str) (c : caps) {struct fuel} : option mres :=
  match fuel with
  | 0 => k s c
  | S f =>
      let again (_ : unit) :=
        step s c (fun s1 c1 =>
                    if length s1 <? length s then starLoop step greedy k f s1 c1
                    else None) in
      if greedy then orElse (again tt) (fun _ => k s c)
      else orElse (k s c) again
  end.

Fixpoint rmatch (total : nat) (r : regex) (s : str) (c : caps) (k : cont)
  {struct r} : option mres :=
  match r with
  | Eps => k s c
  | Chr p =>
      match s with
      | a :: s' => if p a then k s' c else None
      | [] => None
      end
  | Seq r1 r2 => rmatch total r1 s c (fun s1 c1 => rmatch total r2 s1 c1 k)
  | Alt r1 r2 => orElse (rmatch total r1 s c k) (fun _ => rmatch total r2 s c k)
  | Star g r1 => starLoop (rmatch total r1) g k (length s) s c
  | Group i r1 =>
      rmatch total r1 s c
        (fun s1 c1 => k s1 ((i, firstn (length s - length s1) s) :: c1))
  | Bol => if length s =? total then k s c else None
  | Eol m =>
      match s with
      | [] => k s c
      | a :: _ => if m && isLineTerminator a then k s c else None
      end
  end.

Definition capture (i : nat) (c : caps) : option str :=
  match find (fun p => fst p =? i) c with
  | Some p => Some (snd p)
  | None => None
  end.

(** One match found at or after the current position. *)
Record found : Type := mkFound {
  before : str;      (* text between the current position and the match *)
  matched : str;
  after : str;
  groups : caps
}.

(** [RegExpBuiltinExec]: the leftmost position at which the pattern matches. *)
Fixpoint search (total : nat) (r : regex) (skipped : str) (s : str) : option found :=
  match rmatch total r s [] (fun s1 c1 => Some (s1, c1)) with
  | Some (rest, c) =>
      Some (mkFound (rev skipped) (firstn (length s - length rest) s) rest c)
  | None =>
      match s with
      | [] => None
      | a :: s' => search total r (a :: skipped) s'
      end
  end.

(** [s.match(r)] and [r.test(s)] for a pattern without the g flag. *)
Definition exec (r : regex) (s : str) : option found := search (length s) r [] s.

Definition test (r : regex) (s : str) : bool :=
  match exec r s with Some _ => true | None => false end.

(** [s.replace(r, rep)] without the g flag; [rep] has no [$] pattern. *)
Definition replaceFirst (r : regex) (rep : str) (s : str) : str :=
  match exec r s with
  | Some f => before f ++ rep ++ after f
  | None => s
  end.

(** [s.replace(r, rep)] with the g flag: matches are looked for one after
    the other, each search starting where the previous match ended (one
    character further after an empty match). *)
Fixpoint replaceLoop (fuel total : nat) (r : regex) (rep : str) (s : str) : str :=
  match fuel with
  | 0 => s
  | S fuel' =>
      match search total r [] s with
      | None => s
      | Some f =>
          match matched f, after f with
          | [], [] => before f ++ rep
          | [], a :: rest => before f ++ rep ++ a :: replaceLoop fuel' total r rep rest
          | _ :: _, rest => before f ++ rep ++ replaceLoop fuel' total r rep rest
          end
      end
  end.

Definition replaceAll (r : regex) (rep : str) (s : str) : str :=
  replaceLoop (S (length s)) (length s) r rep s.

(** *** Pattern notation *)

Definition chr (c : ascii) : regex := Chr (Ascii.eqb c).
Arguments chr c%_char.

(** A literal character under the [i] flag. *)
Definition chri (c : ascii) : regex := Chr (fun x => Ascii.eqb (canon x) (canon c)).

Definition notChr (c : ascii) : regex := Chr (fun x => negb (Ascii.eqb x c)).
Arguments notChr c%_char.

Fixpoint seqs (rs : list regex) : regex :=
  match rs with
  | [] => Eps
  | [r] => r
  | r :: rs' => Seq r (seqs rs')
  end.

Definition word (s : string) : regex := seqs (map chr (lit s)).
Arguments word s%_string.
Definition wordi (s : string) : regex := seqs (map chri (lit s)).
Arguments wordi s%_string.

Definition plus (r : regex) : regex := Seq r (Star true r).
Definition opt (r : regex) : regex := Alt r Eps.
Definition many (r : regex) : regex := Star true r.
Definition lazy (r : regex) : regex := Star false r.

Definition ws : regex := Chr isWhiteSpace.                      (* \s *)
Definition anyChar : regex := Chr (fun _ => true).              (* [\s\S] *)
Definition dot : regex := Chr (fun c => negb (isLineTerminator c)). (* . *)
Definition digit : regex := Chr (inRange 48 57).                (* \d *)

Definition isAlpha (c : ascii) : bool := inRange 65 90 c || inRange 97 122 c.
Definition isUnderscore (c : ascii) : bool := (code c =? 95)%N.
Definition isDigit (c : ascii) : bool := inRange 48 57 c.

(** *** What the proofs say of a matcher *)

Definition suffix (s' s : str) : Prop := exists p, s = p ++ s'.

(** Whatever a pattern returns was returned by its continuation, called on
    a suffix of the input. *)
Definition onSuffix (step : str -> caps -> cont -> option mres) : Prop :=
  forall (s : str) (c : caps) (k : cont) (res : mres),
    step s c k = Some res ->
    exists s' c', suffix s' s /\ k s' c' = Some res.

(** The result depends on the continuation only through what it answers
    on suffixes of the input. *)
Definition contExt (step : str -> caps -> cont -> option mres) : Prop :=
  forall (s : str) (c : caps) (k1 k2 : cont),
    (forall s' c', suffix s' s -> k1 s' c' = k2 s' c') ->
    step s c k1 = step s c k2.

End Regex.
Import Regex.

(* ------------------------------------------------------------------ *)
(** ** Data model ([src/types.ts]) *)

Record ModelProperty : Type := mkModelProperty {
  name : str;
  type : str;
  isPrimaryKey : bool;
  isRequired : bool;
  isNullable : bool;
  attributes : list str;
  inputType : option str;
  displayName : option str;
  description : option str;
  maxLength : option jsNumber;
  minLength : option jsNumber
}.

Record ModelCacheEntry : Type := mkEntry {
  modelType : str;
  properties : list ModelProperty;
  lastModified : Z;
  filePath : str
}.

(** What the program asks of its surroundings.  [statSync] gives [mtimeMs]
    or throws ([None]); [readFile] gives the text or rejects; [findFiles] is
    [vscode.workspace.findFiles] for a glob pattern; [newRegExp] is the
    [RegExp] constructor on a pattern built at run time (it throws on a
    pattern that is not well formed). *)
Record World : Type := mkWorld {
  now : Z;
  statSync : str -> option Z;
  readFile : str -> option str;
  findFiles : str -> option (list str);
  newRegExp : str -> str -> option regex
}.

(** The settled state of the promise an [async] function returns. *)
Inductive Promise (A : Type) : Type :=
| Fulfilled (value : A)
| Rejected.
Arguments Rejected {A}.

(* ------------------------------------------------------------------ *)
(** ** [class ModelCache] ([src/cache.ts]) *)

Module ModelCache.

(** A JS [Map<string, ModelCacheEntry>]: the entries in insertion order. *)
Definition store := list (str * ModelCacheEntry).

Definition maxCacheSize : nat := 100.
Definition cacheExpirationMs : Z := 5 * 60 * 1000.

(** [Map.prototype.get], [delete], [set] and [size]. *)
Fixpoint mapGet (k : str) (m : store) : option ModelCacheEntry :=
  match m with
  | [] => None
  | (k', e) :: m' => if streq k' k then Some e else mapGet k m'
  end.

Fixpoint mapDelete (k : str) (m : store) : store :=
  match m with
  | [] => []
  | (k', e) :: m' => if streq k' k then m' else (k', e) :: mapDelete k m'
  end.

(** An existing key keeps its place; a new key goes last. *)
Fixpoint mapSet (k : str) (e : ModelCacheEntry) (m : store) : store :=
  match m with
  | [] => [(k, e)]
  | (k', e') :: m' => if streq k' k then (k', e) :: m' else (k', e') :: mapSet k e m'
  end.

Definition size (m : store) : nat := length m.

(** [this.cache.keys().next().value] *)
Definition firstKey (m : store) : option str :=
  match m with
  | [] => None
  | (k, _) :: _ => Some k
  end.

(** [get(modelType, filePath)]: the result and the cache afterwards. *)
Definition get (w : World) (modelType filePath : str) (m : store)
  : option (list ModelProperty) * store :=
  match mapGet modelType m with
  | None => (None, m)
  | Some entry =>
      match statSync w filePath with
      | Some mtimeMs =>
          if (mtimeMs >? lastModified entry)%Z then (None, mapDelete modelType m)
          else if (now w - lastModified entry >? cacheExpirationMs)%Z
               then (None, mapDelete modelType m)
               else (Some (properties entry), m)
      | None => (None, mapDelete modelType m)
      end
  end.

(** [set(modelType, filePath, properties)].  [if (firstKey)] is a JS truth
    test: it fails for [undefined] and for the empty string. *)
Definition evict (m : store) : store :=
  if maxCacheSize <=? size m then
    match firstKey m with
    | Some k => if isEmpty k then m else mapDelete k m
    | None => m
    end
  else m.

Definition set (w : World) (modelType filePath : str)
  (props : list ModelProperty) (m : store) : store :=
  let m1 := evict m in
  match statSync w filePath with
  | Some mtimeMs => mapSet modelType (mkEntry modelType props mtimeMs filePath) m1
  | None => m1
  end.

Definition clear (m : store) : store := [].

(** [delete(modelType)]: whether an entry was removed, and the cache. *)
Definition delete (modelType : str) (m : store) : bool * store :=
  (match mapGet modelType m with Some _ => true | None => false end,
   mapDelete modelType m).

(** [cleanup()]: every entry is visited once, expired ones are deleted. *)
Definition expired (nowMs : Z) (e : ModelCacheEntry) : bool :=
  (nowMs - lastModified e >? cacheExpirationMs)%Z.

Definition cleanup (w : World) (m : store) : store :=
  filter (fun ke => negb (expired (now w) (snd ke))) m.

(** The keys of a [Map] are pairwise different. *)
Definition keys (m : store) : list str := map fst m.

(** A call of one of the operations, and its effect on the cache. *)
Inductive Call : Type :=
| CallGet (w : World) (modelType filePath : str)
| CallSet (w : World) (modelType filePath : str) (props : list ModelProperty)
| CallDelete (modelType : str)
| CallClear
| CallCleanup (w : World).

Definition run (m : store) (c : Call) : store :=
  match c with
  | CallGet w modelType filePath => snd (get w modelType filePath m)
  | CallSet w modelType filePath props => set w modelType filePath props m
  | CallDelete modelType => snd (delete modelType m)
  | CallClear => clear m
  | CallCleanup w => cleanup w m
  end.

(** The call does not store under the empty type name. *)
Definition namesType (c : Call) : Prop :=
  match c with
  | CallSet _ modelType _ _ => modelType <> []
  | _ => True
  end.

Definition named (m : store) : Prop := Forall (fun k => k <> []) (keys m).

End ModelCache.

(* ------------------------------------------------------------------ *)
(** ** The current parser ([src/modelParser.ts]) *)

Module Parser.

Definition dq : ascii := ascii_of_N 34.       (* the double quote *)
Definition sq : ascii := ascii_of_N 39.       (* the single quote *)
Definition bslash : ascii := ascii_of_N 92.   (* the backslash *)

Definition TYPE_MAPPINGS : list (str * str) :=
  [ (lit "datetime", lit "datetime-local");
    (lit "datetimeoffset", lit "datetime-local");
    (lit "date", lit "date");
    (lit "time", lit "time");
    (lit "timespan", lit "time");
    (lit "int", lit "number");
    (lit "integer", lit "number");
    (lit "long", lit "number");
    (lit "short", lit "number");
    (lit "byte", lit "number");
    (lit "decimal", lit "number");
    (lit "double", lit "number");
    (lit "float", lit "number");
    (lit "bool", lit "checkbox");
    (lit "boolean", lit "checkbox");
    (lit "string", lit "text");
    (lit "char", lit "text");
    (lit "guid", lit "text");
    (lit "uuid", lit "text") ].

Definition ATTRIBUTE_MAPPINGS : list (str * str) :=
  [ (lit "email", lit "email");
    (lit "phone", lit "tel");
    (lit "password", lit "password");
    (lit "url", lit "url");
    (lit "color", lit "color");
    (lit "range", lit "range");
    (lit "file", lit "file");
    (lit "hidden", lit "hidden") ].

(** [for (const [key, value] of table) if (hit(key)) return value;] *)
Fixpoint firstHit (hit : str -> bool) (table : list (str * str)) : option str :=
  match table with
  | [] => None
  | (key, value) :: rest => if hit key then Some value else firstHit hit rest
  end.

Definition getInputTypeForProperty (property : ModelProperty) : str :=
  let type := toLowerCase (type property) in
  let attributes := map toLowerCase (attributes property) in
  match firstHit (fun attrKey => existsb (fun attr => includes attr attrKey) attributes)
                 ATTRIBUTE_MAPPINGS with
  | Some inputType => inputType
  | None =>
      match firstHit (fun typeKey => includes type typeKey) TYPE_MAPPINGS with
      | Some inputType => inputType
      | None => lit "text"
      end
  end.

(** *** [cleanSourceCode] *)

Definition blockComment : regex :=           (* /\/\*[\s\S]*?\*\//g *)
  seqs [chr "/"; chr "*"; lazy anyChar; chr "*"; chr "/"].

Definition lineComment : regex :=            (* /\/\/.*$/gm *)
  seqs [chr "/"; chr "/"; many dot; Eol true].

Definition quoted (q : ascii) : regex :=     (* /q(?:[^q\\]|\\.)*q/g *)
  seqs [Chr (Ascii.eqb q);
        many (Alt (Chr (fun c => negb (Ascii.eqb c q || Ascii.eqb c bslash)))
                  (Seq (Chr (Ascii.eqb bslash)) dot));
        Chr (Ascii.eqb q)].

Definition verbatimString : regex :=         (* /@Q(?:[^Q]|QQ)*Q/g, Q the double quote *)
  seqs [chr "@"; Chr (Ascii.eqb dq);
        many (Alt (Chr (fun c => negb (Ascii.eqb c dq)))
                  (Seq (Chr (Ascii.eqb dq)) (Chr (Ascii.eqb dq))));
        Chr (Ascii.eqb dq)].

Definition cleanSourceCode (content : str) : str :=
  replaceAll verbatimString [dq; dq]
    (replaceAll (quoted sq) [sq; sq]
       (replaceAll (quoted dq) [dq; dq]
          (replaceAll lineComment []
             (replaceAll blockComment [] content)))).

(** *** [shouldSkipProperty] *)

Definition skipPatterns : list regex :=
  [ seqs [Bol; wordi "Id"; Eol false];
    seqs [wordi "CreatedAt"; Eol false];
    seqs [wordi "UpdatedAt"; Eol false];
    seqs [wordi "ModifiedAt"; Eol false];
    seqs [wordi "DeletedAt"; Eol false];
    seqs [wordi "Version"; Eol false];
    seqs [wordi "Timestamp"; Eol false];
    seqs [wordi "RowVersion"; Eol false] ].

Definition exclusionAttributes : list str :=
  [lit "NotMapped"; lit "Computed"; lit "DatabaseGenerated"].

Definition shouldSkipProperty (name : str) (attributes : list str) : bool :=
  if existsb (fun attr => existsb (fun excl => includes attr excl) exclusionAttributes)
             attributes
  then true
  else existsb (fun pattern => test pattern name) skipPatterns.

(** *** [cleanupType] *)

Definition cleanupType (type : str) : str :=
  trim
    (replaceFirst                                   (* /^(Microsoft\..*?\.)?/ *)
       (seqs [Bol; opt (Group 1 (seqs [word "Microsoft"; chr "."; lazy dot; chr "."]))]) []
       (replaceFirst                                (* /^(System\.)?/ *)
          (seqs [Bol; opt (Group 1 (seqs [word "System"; chr "."]))]) []
          (replaceFirst                             (* /\?\s*$/ *)
             (seqs [chr "?"; many ws; Eol false]) []
             (replaceAll (plus ws) (lit " ") type)))).   (* /\s+/g *)

(** *** [extractAttributeMetadata] *)

Record Metadata : Type := mkMetadata {
  mDisplayName : option str;
  mDescription : option str;
  mMaxLength : option jsNumber;
  mMinLength : option jsNumber
}.

Definition displayPattern : regex :=   (* /Display\s*\(\s*Name\s*=\s*Q([^Q]+)Q/, Q the double quote *)
  seqs [word "Display"; many ws; chr "("; many ws; word "Name"; many ws; chr "=";
        many ws; Chr (Ascii.eqb dq);
        Group 1 (plus (Chr (fun c => negb (Ascii.eqb c dq)))); Chr (Ascii.eqb dq)].

Definition descriptionPattern : regex :=   (* /Description\s*\(\s*Q([^Q]+)Q/ *)
  seqs [word "Description"; many ws; chr "("; many ws; Chr (Ascii.eqb dq);
        Group 1 (plus (Chr (fun c => negb (Ascii.eqb c dq)))); Chr (Ascii.eqb dq)].

Definition maxLengthPattern : regex :=   (* /(?:MaxLength|StringLength)\s*\(\s*(\d+)/ *)
  seqs [Alt (word "MaxLength") (word "StringLength"); many ws; chr "("; many ws;
        Group 1 (plus digit)].

Definition minLengthPattern : regex :=   (* /MinLength\s*\(\s*(\d+)/ *)
  seqs [word "MinLength"; many ws; chr "("; many ws; Group 1 (plus digit)].

(** [attr.match(p)?.[1]] when it is a non-empty string. *)
Definition group1 (p : regex) (s : str) : option str :=
  match exec p s with
  | Some f =>
      match capture 1 (groups f) with
      | Some (a :: g) => Some (a :: g)
      | _ => None
      end
  | None => None
  end.

Definition orKeep {A : Type} (new old : option A) : option A :=
  match new with
  | Some x => Some x
  | None => old
  end.

Definition extractAttributeMetadata (attributes : list str) : Metadata :=
  fold_left
    (fun metadata attr =>
       mkMetadata
         (orKeep (group1 displayPattern attr) (mDisplayName metadata))
         (orKeep (group1 descriptionPattern attr) (mDescription metadata))
         (orKeep (option_map parseDigits (group1 maxLengthPattern attr)) (mMaxLength metadata))
         (orKeep (option_map parseDigits (group1 minLengthPattern attr)) (mMinLength metadata)))
    attributes (mkMetadata None None None None).

(** *** [createModelProperty] *)

Definition hasKeyword (keyword : string) (attributes : list str) : bool :=
  existsb (fun attr => includes (toLowerCase attr) (lit keyword)) attributes.

Definition createModelProperty (name type : str) (attributes : list str) : ModelProperty :=
  let cleanType := cleanupType type in
  let isNullable := includes type (lit "?") in
  let isPrimaryKey :=
    streq (toLowerCase name) (lit "id")
    || endsWith (toLowerCase name) (lit "id")
    || hasKeyword "key" attributes in
  let isRequired :=
    (negb isNullable && negb isPrimaryKey && negb (hasKeyword "required" attributes))
    || hasKeyword "required" attributes in
  let metadata := extractAttributeMetadata attributes in
  mkModelProperty name cleanType isPrimaryKey isRequired isNullable attributes
    (Some (getInputTypeForProperty
             (mkModelProperty name cleanType isPrimaryKey isRequired isNullable attributes
                None None None None None)))
    (mDisplayName metadata) (mDescription metadata)
    (mMaxLength metadata) (mMinLength metadata).

(** *** [parsePropertiesFromContent] *)

Definition attributePattern : regex :=       (* ^, [, group 1: any run without ], then ], $ *)
  seqs [Bol; chr "["; Group 1 (many (notChr "]")); chr "]"; Eol false].

Definition idStart (c : ascii) : bool := isAlpha c || isUnderscore c.
Definition idChar (c : ascii) : bool := isAlpha c || isDigit c || isUnderscore c.
Definition typeChar (c : ascii) : bool :=   (* [A-Za-z0-9_<>?,\s] *)
  idChar c || Ascii.eqb c "<" || Ascii.eqb c ">" || Ascii.eqb c "?"
  || Ascii.eqb c "," || isWhiteSpace c.

(** The property pattern: at the start of the line an optional access
    modifier, white space, an optional [virtual], [override] or [static]
    followed by white space; group 1, the type: a letter or underscore, any
    run of [typeChar] and an optional question mark; white space; group 2,
    the name: an identifier; white space, an opening brace, any run without
    a closing brace, and a closing brace. *)
Definition propertyPattern : regex :=
  seqs [Bol;
        opt (Alt (word "public") (Alt (word "internal")
               (Alt (word "protected") (word "private"))));
        many ws;
        opt (Alt (Seq (word "virtual") (plus ws))
               (Alt (Seq (word "override") (plus ws)) (Seq (word "static") (plus ws))));
        Group 1 (seqs [Chr idStart; many (Chr typeChar); opt (chr "?")]);
        plus ws;
        Group 2 (seqs [Chr idStart; many (Chr idChar)]);
        many ws; chr "{"; many (notChr "}"); chr "}"].

(** The variables of the loop. *)
Record ScanState : Type := mkScan {
  props : list ModelProperty;
  currentAttributes : list str;
  isInClass : bool;
  braceLevel : Z
}.

Definition initialScan : ScanState := mkScan [] [] false 0.

(** One turn of the [for] loop, on the line [lines[i]]. *)
Definition scanLine (st : ScanState) (rawLine : str) : ScanState :=
  let line := trim rawLine in
  if isEmpty line || startsWith line (lit "using ") || startsWith line (lit "namespace ")
  then st
  else
    let level := (braceLevel st + Z.of_nat (countChar "{" line)
                  - Z.of_nat (countChar "}" line))%Z in
    if negb (isInClass st) && includes line (lit "class ")
    then mkScan (props st) (currentAttributes st) true level
    else if isInClass st && (level =? 0)%Z
    then mkScan (props st) (currentAttributes st) false level
    else if negb (isInClass st)
    then mkScan (props st) (currentAttributes st) (isInClass st) level
    else
      match group1 attributePattern line with
      | Some attribute =>
          mkScan (props st) (currentAttributes st ++ [attribute]) (isInClass st) level
      | None =>
          match exec propertyPattern line with
          | Some (mkFound _ _ _ g) =>
              match capture 1 g, capture 2 g with
              | Some (t0 :: t), Some (n0 :: n) =>
                  let type := trim (t0 :: t) in
                  let name := trim (n0 :: n) in
                  if shouldSkipProperty name (currentAttributes st)
                  then mkScan (props st) [] (isInClass st) level
                  else mkScan (props st ++ [createModelProperty name type (currentAttributes st)])
                              [] (isInClass st) level
              | _, _ =>
                  if negb (includes line (lit "[")) && negb (includes line (lit "{"))
                     && negb (includes line (lit "}"))
                  then mkScan (props st) [] (isInClass st) level
                  else mkScan (props st) (currentAttributes st) (isInClass st) level
              end
          | None =>
              if negb (includes line (lit "[")) && negb (includes line (lit "{"))
                 && negb (includes line (lit "}"))
              then mkScan (props st) [] (isInClass st) level
              else mkScan (props st) (currentAttributes st) (isInClass st) level
          end
      end.

Definition scanLines (st : ScanState) (lines : list str) : ScanState :=
  fold_left scanLine lines st.

Definition parsePropertiesFromContent (content : str) : list ModelProperty :=
  props (scanLines initialScan (split nl content)).

(** *** [extractPropertiesFromContent]

    The class pattern is built from [className] at run time; whether it
    matches does not change the result. *)
Definition classPatternSource (className : str) : str :=
  lit "(?:public\s+)?(?:partial\s+)?class\s+" ++ className
  ++ lit "(?:\s*:\s*[\w<>,\s]+)?\s*\{".

Definition extractPropertiesFromContent (w : World) (content className : str)
  : option (list ModelProperty) :=
  let cleanContent := cleanSourceCode content in
  match newRegExp w (classPatternSource className) (lit "i") with
  | None => None
  | Some classRegex =>
      match exec classRegex cleanContent with
      | None => Some (parsePropertiesFromContent cleanContent)
      | Some _ => Some (parsePropertiesFromContent cleanContent)
      end
  end.

(** *** [findModelFiles], [selectBestModelFile] *)

Definition searchPatterns (className : str) : list str :=
  [ lit "**/" ++ className ++ lit ".cs";
    lit "**/Models/" ++ className ++ lit ".cs";
    lit "**/Models/**/" ++ className ++ lit ".cs";
    lit "**/*Models*/" ++ className ++ lit ".cs";
    lit "**/Entities/" ++ className ++ lit ".cs";
    lit "**/Domain/" ++ className ++ lit ".cs" ].

Fixpoint findFirst (w : World) (patterns : list str) : option (list str) :=
  match patterns with
  | [] => Some []
  | pattern :: rest =>
      match findFiles w pattern with
      | None => None
      | Some [] => findFirst w rest
      | Some files => Some files
      end
  end.

Definition findModelFiles (w : World) (className : str) : option (list str) :=
  findFirst w (searchPatterns className).

Definition preferredFolders : list str := [lit "Models"; lit "Entities"; lit "Domain"].

Fixpoint firstPreferred (folders : list str) (files : list str) : option str :=
  match folders with
  | [] => None
  | folder :: rest =>
      match find (fun file => includes file folder) files with
      | Some preferred => Some preferred
      | None => firstPreferred rest files
      end
  end.

(** A file is its [fsPath]; [None] is the thrown [Error]. *)
Definition selectBestModelFile (files : list str) : option str :=
  match files with
  | [file] => Some file
  | _ =>
      match firstPreferred preferredFolders files with
      | Some preferred => Some preferred
      | None => hd_error files
      end
  end.

(** *** [parseModelProperties]

    The body after the two guards runs inside [try]; every exception ends
    in [return []]. *)
Definition parseModelProperties (w : World) (modelType : str) (cache : ModelCache.store)
  : Promise (list ModelProperty) * ModelCache.store :=
  if isEmpty (trim modelType) then (Fulfilled [], cache)
  else
    let className := last (split "." modelType) [] in
    if isEmpty className then (Fulfilled [], cache)
    else
      match findModelFiles w className with
      | None => (Fulfilled [], cache)
      | Some [] => (Fulfilled [], cache)
      | Some files =>
          match selectBestModelFile files with
          | None => (Fulfilled [], cache)
          | Some modelFile =>
              match ModelCache.get w modelType modelFile cache with
              | (Some cachedProperties, cache1) => (Fulfilled cachedProperties, cache1)
              | (None, cache1) =>
                  match readFile w modelFile with
                  | None => (Fulfilled [], cache1)
                  | Some content =>
                      match extractPropertiesFromContent w content className with
                      | None => (Fulfilled [], cache1)
                      | Some properties =>
                          (Fulfilled properties,
                           ModelCache.set w modelType modelFile properties cache1)
                      end
                  end
              end
          end
      end.

(** *** What the proofs say of the output

    A property of the output was built by [createModelProperty] from a name
    and annotations that the skip policy let through. *)
Definition emitted (p : ModelProperty) : Prop :=
  exists n t a, shouldSkipProperty n a = false /\ p = createModelProperty n t a.

(** A cache all of whose entries hold such properties. *)
Definition cleanCache (m : ModelCache.store) : Prop :=
  Forall (fun ke => Forall emitted (properties (snd ke))) m.

(** A property of the output was built from one of the [lines], matched by
    the property pattern: its type from group 1, its name from group 2,
    both trimmed. *)
Definition declaredOn (lines : list str) (p : ModelProperty) : Prop :=
  exists (line : str) (f : found) (group1 group2 : str) (a : list str),
    In line lines
    /\ exec propertyPattern (trim line) = Some f
    /\ capture 1 (groups f) = Some group1
    /\ capture 2 (groups f) = Some group2
    /\ p = createModelProperty (trim group2) (trim group1) a.

End Parser.

(* ------------------------------------------------------------------ *)
(** ** The older parser ([aspnetcore-view-helper/src/modelParser.ts]) *)

Module Legacy.

Import Parser.

Record ModelProperty : Type := mkModelProperty {
  name : str;
  type : str;
  isPrimaryKey : bool;
  isRequired : bool;
  attributes : list str;
  inputType : option str
}.

Definition plainQuoted (q : ascii) : regex :=     (* /q[^q]*q/g *)
  seqs [Chr (Ascii.eqb q); many (Chr (fun c => negb (Ascii.eqb c q))); Chr (Ascii.eqb q)].

(** The four [replace] calls that open [parsePropertiesFromFullContent]. *)
Definition cleanContent (content : str) : str :=
  replaceAll (plainQuoted sq) [sq; sq]
    (replaceAll (plainQuoted dq) [dq; dq]
       (replaceAll lineComment []
          (replaceAll blockComment [] content))).

Definition cleanupType (type : str) : str :=
  trim
    (replaceFirst (seqs [Bol; opt (Group 1 (seqs [word "System"; chr "."]))]) []
       (replaceFirst (seqs [chr "?"; many ws; Eol false]) []
          (replaceAll (plus ws) (lit " ") type))).

Record ScanState : Type := mkScan {
  props : list ModelProperty;
  currentAttributes : list str;
  collectingAttributes : bool
}.

Definition initialScan : ScanState := mkScan [] [] false.

Definition scanLine (st : ScanState) (rawLine : str) : ScanState :=
  let line := trim rawLine in
  if isEmpty line || startsWith line (lit "using ") || startsWith line (lit "namespace ")
  then st
  else
    match exec attributePattern line with
    | Some f =>
        mkScan (props st)
               (currentAttributes st
                ++ [match capture 1 (groups f) with Some a => a | None => [] end])
               true
    | None =>
        match exec propertyPattern line with
        | Some f =>
            let type := trim (match capture 1 (groups f) with Some t => t | None => [] end) in
            let name := trim (match capture 2 (groups f) with Some n => n | None => [] end) in
            let isPrimaryKey :=
              streq (toLowerCase name) (lit "id")
              || endsWith (toLowerCase name) (lit "id")
              || hasKeyword "key" (currentAttributes st) in
            let isRequired :=
              negb (includes type (lit "?"))
              || hasKeyword "required" (currentAttributes st) in
            mkScan (props st
                    ++ [mkModelProperty name (cleanupType type) isPrimaryKey isRequired
                          (currentAttributes st) None])
                   [] false
        | None =>
            if negb (collectingAttributes st)
               && (includes line (lit "{") || includes line (lit "}")
                   || includes line (lit ";"))
            then mkScan (props st) [] false
            else st
        end
    end.

Definition parsePropertiesFromFullContent (content : str) : list ModelProperty :=
  props (fold_left scanLine (split nl (cleanContent content)) initialScan).

Definition classPatternSource (className : str) : str :=
  lit "class\s+" ++ className ++ lit "[^{]*\{([^}]*)\}".

Definition partialClassPatternSource (className : str) : str :=
  lit "(?:partial\s+)?class\s+" ++ className ++ lit "[^{]*\{".

Definition extractPropertiesFromContent (w : World) (content className : str)
  : option (list ModelProperty) :=
  match newRegExp w (classPatternSource className) (lit "s") with
  | None => None
  | Some classRegex =>
      match exec classRegex content with
      | None =>
          match newRegExp w (partialClassPatternSource className) (lit "s") with
          | None => None
          | Some partialClassRegex =>
              match exec partialClassRegex content with
              | Some _ => Some (parsePropertiesFromFullContent content)
              | None => Some []
              end
          end
      | Some _ => Some (parsePropertiesFromFullContent content)
      end
  end.

Definition parseModelProperties (w : World) (modelType : str)
  : Promise (list ModelProperty) :=
  if isEmpty modelType then Fulfilled []
  else
    let className := last (split "." modelType) [] in
    if isEmpty className then Fulfilled []
    else
      match findFiles w (lit "**/" ++ className ++ lit ".cs") with
      | None => Fulfilled []
      | Some [] => Fulfilled []
      | Some (modelFile :: _) =>
          match readFile w modelFile with
          | None => Fulfilled []
          | Some content =>
              match extractPropertiesFromContent w content className with
              | None => Fulfilled []
              | Some properties => Fulfilled properties
              end
          end
      end.

Definition anyAttr (keyword : string) (attributes : list str) : bool :=
  existsb (fun attr => includes attr (lit keyword)) attributes.

Definition getInputTypeForProperty (property : ModelProperty) : str :=
  let type := toLowerCase (type property) in
  let attributes := map toLowerCase (attributes property) in
  if anyAttr "email" attributes then lit "email"
  else if anyAttr "phone" attributes then lit "tel"
  else if anyAttr "password" attributes then lit "password"
  else if anyAttr "url" attributes then lit "url"
  else if anyAttr "color" attributes then lit "color"
  else if includes type (lit "datetime") then lit "datetime-local"
  else if includes type (lit "date") && negb (includes type (lit "datetime")) then lit "date"
  else if includes type (lit "time") then lit "time"
  else if includes type (lit "bool") then lit "checkbox"
  else if includes type (lit "int") || includes type (lit "long")
          || includes type (lit "short") || includes type (lit "byte") then lit "number"
  else if includes type (lit "decimal") || includes type (lit "double")
          || includes type (lit "float") then lit "number"
  else if includes type (lit "guid") then lit "text"
  else lit "text".

(** *** What the proofs say of the output

    What the older parser emits: required means no question mark in the raw
    type, or a required annotation. *)
Definition legacyEmitted (p : ModelProperty) : Prop :=
  exists n t a,
    p = mkModelProperty n (cleanupType t)
          (streq (toLowerCase n) (lit "id") || endsWith (toLowerCase n) (lit "id")
           || hasKeyword "key" a)
          (negb (includes t (lit "?")) || hasKeyword "required" a)
          a None.

End Legacy.

(* ------------------------------------------------------------------ *)
(** ** The rules in the words of the specification, and sample inputs *)

Module Rules.

(** Required-ness: not nullable and not primary key and no required
    annotation, or an explicit required annotation. *)
Definition requiredRule (nullable primaryKey requiredAnnotation : bool) : bool :=
  (negb nullable && negb primaryKey && negb requiredAnnotation) || requiredAnnotation.

(** The two ordered tables of the input-kind mapping: the first entry of the
    attribute table with a keyword found in some annotation, else the first
    entry of the type table with a keyword found in the type, else text.
    Both searches ignore case. *)
Definition inputKindRule (declaredType : str) (annotations : list str) : str :=
  match find (fun entry => existsb (fun a => includes (toLowerCase a) (fst entry)) annotations)
             Parser.ATTRIBUTE_MAPPINGS with
  | Some entry => snd entry
  | None =>
      match find (fun entry => includes (toLowerCase declaredType) (fst entry))
                 Parser.TYPE_MAPPINGS with
      | Some entry => snd entry
      | None => lit "text"
      end
  end.

End Rules.

Module Samples.

Definition text (l : list string) : str :=
  concat (map (fun x => lit x ++ [nl]) l).

(** A class with the two properties of the end-to-end scenario. *)
Definition productSource : str :=
  text [ "public class Product";
         "{";
         "    public int Id { get; set; }";
         "    public string Name { get; set; }";
         "}" ]%string.

(** A block comment over two lines. *)
Definition twoLineComment : str := lit "/*" ++ [nl] ++ lit "*/".

(** An annotation, a method, then a property. *)
Definition leakSource : str :=
  text [ "class A {";
         "[EmailAddress]";
         "public void M() {";
         "}";
         "public string Name { get; set; }";
         "}" ]%string.

Definition auditSource : str :=
  text [ "public class Order";
         "{";
         "    public DateTime CreatedAt { get; set; }";
         "    public string Note { get; set; }";
         "}" ]%string.

Definition productPath : str := lit "/app/Models/Product.cs".

Definition wordOrAngle (c : ascii) : bool :=        (* [\w<>,\s] *)
  Parser.idChar c || Ascii.eqb c "<" || Ascii.eqb c ">" || Ascii.eqb c ","
  || isWhiteSpace c.

(** The class patterns for the class name [Product], as [RegExp] reads them. *)
Definition productClassRegex : regex :=
  seqs [opt (Seq (wordi "public") (plus ws)); opt (Seq (wordi "partial") (plus ws));
        wordi "class"; plus ws; wordi "Product";
        opt (seqs [many ws; chr ":"; many ws; plus (Chr wordOrAngle)]);
        many ws; chr "{"].

Definition legacyClassRegex : regex :=
  seqs [word "class"; plus ws; word "Product"; many (notChr "{"); chr "{";
        Group 1 (many (notChr "}")); chr "}"].

Definition legacyPartialClassRegex : regex :=
  seqs [opt (Seq (word "partial") (plus ws)); word "class"; plus ws; word "Product";
        many (notChr "{"); chr "{"].

Definition productRegExp (source flags : str) : option regex :=
  if streq source (Parser.classPatternSource (lit "Product")) then Some productClassRegex
  else if streq source (Legacy.classPatternSource (lit "Product")) then Some legacyClassRegex
  else if streq source (Legacy.partialClassPatternSource (lit "Product"))
       then Some legacyPartialClassRegex
  else None.

(** A workspace with one model file, last modified at [mtime], seen at [clock]. *)
Definition workspace (clock mtime : Z) : World :=
  mkWorld clock
    (fun path => if streq path productPath then Some mtime else None)
    (fun path => if streq path productPath then Some productSource else None)
    (fun pattern => if streq pattern (lit "**/Product.cs") then Some [productPath]
                    else Some [])
    productRegExp.

(** The file was written one minute before the call. *)
Definition freshWorld : World := workspace 1700000060000 1700000000000.

(** The file was written ten minutes before the call. *)
Definition staleWorld : World := workspace 1700000600000 1700000000000.

(** No file can be stat-ed. *)
Definition brokenWorld : World :=
  mkWorld 1700000060000 (fun _ => None) (fun _ => None) (fun _ => Some []) (fun _ _ => None).

Definition nameOnly : ModelProperty :=
  Parser.createModelProperty (lit "Name") (lit "string") [].

(** One hundred type names, the first of them the empty string, cached one
    after the other in an empty cache. *)
Definition hundredKeys : list str := map (fun n => repeat "a"%char n) (seq 0 100).

Definition fullCache : ModelCache.store :=
  fold_left (fun m k => ModelCache.set freshWorld k productPath [] m) hundredKeys [].

(** A class with a nullable property under a required annotation, a list of
    nullable numbers and a foreign key. *)
Definition playerSource : str :=
  text [ "public class Player";
         "{";
         "    [Required]";
         "    public string? Nick { get; set; }";
         "    public List<int?> Scores { get; set; }";
         "    public int TeamId { get; set; }";
         "}" ]%string.

Definition nick : ModelProperty :=
  Parser.createModelProperty (lit "Nick") (lit "string?") [lit "Required"].

(** A workspace for the type name that is one space: a file of that name,
    whose class header has two spaces after the keyword, and the class
    pattern of the older parser for that class name, as [RegExp] reads it. *)
Definition spacedSource : str :=
  text [ "public class  Product";
         "{";
         "    public int Id { get; set; }";
         "    public string Name { get; set; }";
         "}" ]%string.

Definition blankPath : str := lit "/app/Models/ .cs".

Definition blankClassRegex : regex :=
  seqs [word "class"; plus ws; chr " "; many (notChr "{"); chr "{";
        Group 1 (many (notChr "}")); chr "}"].

Definition blankWorld : World :=
  mkWorld 1700000060000
    (fun path => if streq path blankPath then Some 1700000000000%Z else None)
    (fun path => if streq path blankPath then Some spacedSource else None)
    (fun pattern => if streq pattern (lit "**/ .cs") then Some [blankPath] else Some [])
    (fun source flags =>
       if streq source (Legacy.classPatternSource (lit " ")) then Some blankClassRegex
       else None).

End Samples.

(* ------------------------------------------------------------------ *)
(** ** What drives the cache ([src/modelParser.ts], [src/cache.ts],
       [src/extension.ts])

    The exported [modelCache] is touched from three places: the entry point
    [parseModelProperties], the [setInterval] timer that calls [cleanup]
    every minute, and [deactivate], which calls [clear]. *)

Module Program.

Inductive Event : Type :=
| ParseCall (w : World) (modelType : str)
| Sweep (w : World)
| Deactivate.

Definition react (cache : ModelCache.store) (e : Event) : ModelCache.store :=
  match e with
  | ParseCall w modelType => snd (Parser.parseModelProperties w modelType cache)
  | Sweep w => ModelCache.cleanup w cache
  | Deactivate => ModelCache.clear cache
  end.

(** The cache after the [events], empty when the module is loaded. *)
Definition cacheAfter (events : list Event) : ModelCache.store :=
  fold_left react events [].

(** One hundred calls of the entry point in the sample workspace, for the
    type names [a.Product], [aa.Product], and so on: all of them name the
    class [Product] of the one model file. *)
Definition hundredTypeNames : list str :=
  map (fun n => repeat "a"%char (S n) ++ lit ".Product") (seq 0 100).

Definition hundredCalls : list Event :=
  map (ParseCall Samples.freshWorld) hundredTypeNames.

End Program.

(* ------------------------------------------------------------------ *)
(** ** The template data of [generateViewFile] ([src/templateGenerator.ts]) *)

Module TemplateGenerator.

(** [modelProperties.map(prop => ({...prop, inputType: getInputTypeForProperty(prop)}))] *)
Definition withInputType (prop : ModelProperty) : ModelProperty :=
  mkModelProperty (name prop) (type prop) (isPrimaryKey prop) (isRequired prop)
    (isNullable prop) (attributes prop)
    (Some (Parser.getInputTypeForProperty prop))
    (displayName prop) (description prop) (maxLength prop) (minLength prop).

Definition templateProperties (modelProperties : list ModelProperty) : list ModelProperty :=
  map withInputType modelProperties.

(** [modelProperties.find(prop => prop.isPrimaryKey)?.name] *)
Definition primaryKeyProperty (modelProperties : list ModelProperty) : option str :=
  match find isPrimaryKey modelProperties with
  | Some prop => Some (name prop)
  | None => None
  end.

End TemplateGenerator.

(* ------------------------------------------------------------------ *)
(** ** The [pluralize] helper of [registerHandlebarsHelpers]
       ([src/extension.ts]) *)

Module Helpers.

Definition pluralize (s : str) : str :=
  if isEmpty s then []
  else if endsWith s (lit "y") then removelast s ++ lit "ies"
  else if endsWith s (lit "s") || endsWith s (lit "sh") || endsWith s (lit "ch")
          || endsWith s (lit "x") || endsWith s (lit "z")
  then s ++ lit "es"
  else s ++ lit "s".

End Helpers.

(* ------------------------------------------------------------------ *)
(** ** What a pattern matches

    [matches total r m rest c c']: at a position where [m ++ rest] is what
    is left of an input of length [total], the pattern [r] can consume [m],
    turning the captures [c] into [c']. *)

Module RegexSpec.

Inductive matches (total : nat) : regex -> str -> str -> caps -> caps -> Prop :=
| MEps (rest : str) (c : caps) : matches total Eps [] rest c c
| MChr (p : ascii -> bool) (a : ascii) (rest : str) (c : caps) :
    p a = true -> matches total (Chr p) [a] rest c c
| MSeq (r1 r2 : regex) (m1 m2 rest : str) (c c1 c2 : caps) :
    matches total r1 m1 (m2 ++ rest) c c1 ->
    matches total r2 m2 rest c1 c2 ->
    matches total (Seq r1 r2) (m1 ++ m2) rest c c2
| MAltL (r1 r2 : regex) (m rest : str) (c c' : caps) :
    matches total r1 m rest c c' -> matches total (Alt r1 r2) m rest c c'
| MAltR (r1 r2 : regex) (m rest : str) (c c' : caps) :
    matches total r2 m rest c c' -> matches total (Alt r1 r2) m rest c c'
| MStarNil (g : bool) (r : regex) (rest : str) (c : caps) :
    matches total (Star g r) [] rest c c
| MStarCons (g : bool) (r : regex) (m1 m2 rest : str) (c c1 c2 : caps) :
    matches total r m1 (m2 ++ rest) c c1 ->
    m1 <> [] ->
    matches total (Star g r) m2 rest c1 c2 ->
    matches total (Star g r) (m1 ++ m2) rest c c2
| MGroup (i : nat) (r : regex) (m rest : str) (c c1 : caps) :
    matches total r m rest c c1 ->
    matches total (Group i r) m rest c ((i, m) :: c1)
| MBol (rest : str) (c : caps) :
    length rest = total -> matches total Bol [] rest c c
| MEol (multiline : bool) (rest : str) (c : caps) :
    (rest = [] \/
     (multiline = true /\ exists a rest', rest = a :: rest' /\ isLineTerminator a = true)) ->
    matches total (Eol multiline) [] rest c c.

(** The matcher finds only what the pattern matches. *)
Definition sound (total : nat) (r : regex)
  (step : str -> caps -> cont -> option mres) : Prop :=
  forall (s : str) (c : caps) (k : cont) (res : mres),
    step s c k = Some res ->
    exists m rest c',
      s = m ++ rest /\ matches total r m rest c c' /\ k rest c' = Some res.

Fixpoint hasGroup (r : regex) : bool :=
  match r with
  | Seq r1 r2 | Alt r1 r2 => hasGroup r1 || hasGroup r2
  | Star _ r1 => hasGroup r1
  | Group _ _ => true
  | _ => false
  end.

(** A C# identifier as the property pattern reads it: a letter or an
    underscore, then letters, digits and underscores. *)
Definition isIdentifier (s : str) : bool :=
  match s with
  | [] => false
  | a :: t => Parser.idStart a && forallb Parser.idChar t
  end.

(** The values of the two tables of [getInputTypeForProperty], and [text]. *)
Definition knownInputTypes : list str :=
  [ lit "email"; lit "tel"; lit "password"; lit "url"; lit "color"; lit "range";
    lit "file"; lit "hidden"; lit "datetime-local"; lit "date"; lit "time";
    lit "number"; lit "checkbox"; lit "text" ].

(** An annotation that is the text between the brackets of one of the
    [lines]. *)
Definition fromLine (lines : list str) (a : str) : Prop :=
  a <> []
  /\ forallb (fun ch => negb (Ascii.eqb ch "]")) a = true
  /\ exists line, In line lines /\ trim line = lit "[" ++ a ++ lit "]".

(** A scan state whose annotations, pending or attached, all are. *)
Definition wellSourced (lines : list str) (st : Parser.ScanState) : Prop :=
  Forall (fromLine lines) (Parser.currentAttributes st)
  /\ Forall (fun p => Forall (fromLine lines) (attributes p)) (Parser.props st).

End RegexSpec.

(* ------------------------------------------------------------------ *)
(** ** [splitParameters] ([src/controllerUtils.ts]) *)

Module ControllerUtils.

(** The variables of the loop; [previous] is [parametersString[i - 1]],
    [stringChar] starts as the empty string ([None]). *)
Record SplitState : Type := mkSplit {
  parameters : list str;
  current : str;
  depth : Z;
  inString : bool;
  stringChar : option ascii;
  previous : option ascii
}.

Definition initialSplit : SplitState := mkSplit [] [] 0 false None None.

Definition isOneOf (chars : string) (char : ascii) : bool :=
  existsb (Ascii.eqb char) (lit chars).

Definition sameChar (char : ascii) (other : option ascii) : bool :=
  match other with
  | Some c => Ascii.eqb char c
  | None => false
  end.

(** One turn of the loop on the character [char]. *)
Definition splitStep (st : SplitState) (char : ascii) : SplitState :=
  if negb (inString st) then
    if Ascii.eqb char Parser.dq || Ascii.eqb char Parser.sq
    then mkSplit (parameters st) (current st ++ [char]) (depth st) true (Some char)
           (Some char)
    else if isOneOf "<[(" char
    then mkSplit (parameters st) (current st ++ [char]) (depth st + 1) false
           (stringChar st) (Some char)
    else if isOneOf ">])" char
    then mkSplit (parameters st) (current st ++ [char]) (depth st - 1) false
           (stringChar st) (Some char)
    else if Ascii.eqb char "," && (depth st =? 0)%Z
    then mkSplit (parameters st ++ [trim (current st)]) [] (depth st) false
           (stringChar st) (Some char)
    else mkSplit (parameters st) (current st ++ [char]) (depth st) false
           (stringChar st) (Some char)
  else if sameChar char (stringChar st) && negb (sameChar Parser.bslash (previous st))
  then mkSplit (parameters st) (current st ++ [char]) (depth st) false
         (stringChar st) (Some char)
  else mkSplit (parameters st) (current st ++ [char]) (depth st) true
         (stringChar st) (Some char).

(** After the loop: [if (current.trim()) parameters.push(current.trim())]. *)
Definition finishSplit (st : SplitState) : list str :=
  if isEmpty (trim (current st)) then parameters st
  else parameters st ++ [trim (current st)].

Definition splitParameters (parametersString : str) : list str :=
  finishSplit (fold_left splitStep parametersString initialSplit).

(** *** What the proofs say of it *)

(** A character that is neither a quote nor a bracket of any kind. *)
Definition plainChar (char : ascii) : bool :=
  negb (Ascii.eqb char Parser.dq || Ascii.eqb char Parser.sq
        || isOneOf "<[(" char || isOneOf ">])" char).

(** The parts of a text cut at its commas, the first part coming after the
    text [pending]. *)
Definition withPending (pending : str) (parts : list str) : list str :=
  match parts with
  | x :: xs => (pending ++ x) :: xs
  | [] => [pending]
  end.

(** A list of parts without its last part when that one is empty. *)
Definition dropEmptyLast (parts : list str) : list str :=
  if isEmpty (last parts []) then removelast parts else parts.

End ControllerUtils.

(* ------------------------------------------------------------------ *)
(** * Properties *)

(** ** Strings *)

Lemma startsWith_same_length (a b : str) :
  length a = length b -> startsWith a b = true -> a = b.
Proof.
  revert b; induction a as [|x a IH]; intros [|y b] Hlen Hpre;
    simpl in *; try discriminate; auto.
  apply andb_true_iff in Hpre as [Hxy Hrest].
  apply Ascii.eqb_eq in Hxy; subst y.
  f_equal; apply IH; auto.
Qed.

Lemma startsWith_refl (a : str) : startsWith a a = true.
Proof.
  induction a as [|x a IH]; simpl; auto.
  rewrite Ascii.eqb_refl; auto.
Qed.

Lemma streq_true_iff (a b : str) : streq a b = true <-> a = b.
Proof.
  unfold streq; split.
  - intros H; apply andb_true_iff in H as [Hlen Hpre].
    apply Nat.eqb_eq in Hlen; now apply startsWith_same_length.
  - intros ->; rewrite Nat.eqb_refl, startsWith_refl; reflexivity.
Qed.

Lemma streq_refl (a : str) : streq a a = true.
Proof. now apply streq_true_iff. Qed.

Lemma isEmpty_true_iff (a : str) : isEmpty a = true <-> a = [].
Proof. destruct a; simpl; split; congruence. Qed.

Lemma countChar_app (c : ascii) (a b : str) :
  countChar c (a ++ b) = countChar c a + countChar c b.
Proof. unfold countChar; now rewrite filter_app, length_app. Qed.

Lemma split_not_nil (sep : ascii) (s : str) : split sep s <> [].
Proof.
  induction s as [|a s IH]; simpl; try discriminate.
  destruct (Ascii.eqb a sep); try discriminate.
  destruct (split sep s); discriminate.
Qed.

Lemma split_length (sep : ascii) (s : str) :
  length (split sep s) = S (countChar sep s).
Proof.
  unfold countChar.
  induction s as [|a s IH]; simpl; auto.
  rewrite (Ascii.eqb_sym sep a).
  destruct (Ascii.eqb a sep); simpl.
  - now rewrite IH.
  - pose proof (split_not_nil sep s) as Hne.
    destruct (split sep s); [contradiction | exact IH].
Qed.

Lemma lineCount_countChar (s : str) : lineCount s = S (countChar nl s).
Proof. apply split_length. Qed.

(** Integers below 2^53 are JS numbers as they are; above, [parseInt]
    rounds. *)
Lemma toNumber_exact (n : N) : (n < 2 ^ 53)%N -> toNumber n = Finite n.
Proof.
  intros Hn; unfold toNumber; cbv zeta.
  assert (Hsize : (N.size n <=? 53)%N = true).
  { apply N.leb_le.
    destruct (N.eq_dec n 0) as [->|Hpos]; [vm_compute; discriminate|].
    rewrite N.size_log2 by exact Hpos.
    apply N.le_succ_l, N.log2_lt_pow2; lia. }
  now rewrite Hsize.
Qed.

Example parseDigits_rounds :
  parseDigits (lit "9007199254740993") = Finite 9007199254740992
  /\ parseDigits (lit "100") = Finite 100.
Proof. vm_compute; auto. Qed.

(** ** The cache *)

Section CacheFacts.

Import ModelCache.

Variable w : World.

Lemma mapGet_mapSet_same (k : str) (e : ModelCacheEntry) (m : store) :
  mapGet k (mapSet k e m) = Some e.
Proof.
  induction m as [|[k' e'] m IH]; simpl.
  - now rewrite streq_refl.
  - destruct (streq k' k) eqn:E; simpl; rewrite E; auto.
Qed.

Lemma size_mapSet (k : str) (e : ModelCacheEntry) (m : store) :
  size (mapSet k e m) =
  match mapGet k m with Some _ => size m | None => S (size m) end.
Proof.
  unfold size; induction m as [|[k' e'] m IH]; simpl; auto.
  destruct (streq k' k); simpl; auto.
  rewrite IH; destruct (mapGet k m); auto.
Qed.

Lemma size_mapSet_le (k : str) (e : ModelCacheEntry) (m : store) :
  size (mapSet k e m) <= S (size m).
Proof. rewrite size_mapSet; destruct (mapGet k m); lia. Qed.

Lemma size_mapDelete_le (k : str) (m : store) : size (mapDelete k m) <= size m.
Proof.
  unfold size; induction m as [|[k' e'] m IH]; simpl; auto.
  destruct (streq k' k); simpl; lia.
Qed.

Lemma mapGet_mapDelete_same (k : str) (m : store) :
  NoDup (keys m) -> mapGet k (mapDelete k m) = None.
Proof.
  induction m as [|[k' e'] m IH]; simpl; auto; intros Hnd.
  inversion Hnd as [|? ? Hnotin Hnd']; subst.
  destruct (streq k' k) eqn:E; simpl.
  - apply streq_true_iff in E; subst k'.
    clear IH Hnd Hnd'; induction m as [|[k2 e2] m IH]; simpl; auto.
    destruct (streq k2 k) eqn:E2.
    + apply streq_true_iff in E2; subst; simpl in Hnotin; tauto.
    + apply IH; simpl in Hnotin; tauto.
  - rewrite E; auto.
Qed.

(** Eviction removes the oldest entry when its key is not the empty string. *)
Lemma evict_oldest (k0 : str) (e0 : ModelCacheEntry) (m : store) :
  maxCacheSize <= size ((k0, e0) :: m) -> k0 <> [] ->
  evict ((k0, e0) :: m) = m.
Proof.
  intros Hfull Hk; unfold evict.
  apply Nat.leb_le in Hfull; rewrite Hfull; simpl.
  destruct k0 as [|a k0]; [congruence|]; simpl.
  now rewrite streq_refl.
Qed.

Lemma evict_below_bound (m : store) : size m < maxCacheSize -> evict m = m.
Proof.
  intros Hlt; unfold evict.
  apply Nat.leb_gt in Hlt; now rewrite Hlt.
Qed.

(** The size bound is kept by [set] as long as the oldest key is not the
    empty string. *)
Lemma set_keeps_bound (k f : str) (ps : list ModelProperty) (m : store) :
  size m <= maxCacheSize -> firstKey m <> Some [] ->
  size (set w k f ps m) <= maxCacheSize.
Proof.
  intros Hle Hfirst; unfold set.
  assert (Hev : size (evict m) < maxCacheSize).
  { destruct (Nat.le_gt_cases maxCacheSize (size m)) as [Hfull|Hlt].
    - destruct m as [|[k0 e0] m].
      + unfold size, maxCacheSize in Hfull; simpl in Hfull; lia.
      + assert (Hk0 : k0 <> []) by (intros ->; apply Hfirst; reflexivity).
        rewrite (evict_oldest Hfull Hk0).
        unfold size in *; rewrite length_cons in Hle; lia.
    - rewrite evict_below_bound; auto. }
  destruct (statSync w f).
  - pose proof (size_mapSet_le k (mkEntry k ps z f) (evict m)); lia.
  - lia.
Qed.

Lemma get_keeps_bound (k f : str) (m : store) :
  size (snd (get w k f m)) <= size m.
Proof.
  unfold get; destruct (mapGet k m); simpl; auto.
  destruct (statSync w f); simpl; [|apply size_mapDelete_le].
  destruct (_ >? _)%Z; simpl; [apply size_mapDelete_le|].
  destruct (_ >? _)%Z; simpl; [apply size_mapDelete_le|auto].
Qed.

Lemma delete_keeps_bound (k : str) (m : store) :
  size (snd (delete k m)) <= size m.
Proof. apply size_mapDelete_le. Qed.

Lemma cleanup_keeps_bound (m : store) : size (cleanup w m) <= size m.
Proof. apply filter_length_le. Qed.

Lemma clear_is_empty (m : store) : size (clear m) = 0.
Proof. reflexivity. Qed.

(** [set] then [get] on a file that did not change returns what was stored,
    provided the file was modified within the expiration window. *)
Lemma set_then_get_recent (k f : str) (ps : list ModelProperty) (m : store) (t : Z) :
  statSync w f = Some t -> (now w - t <= cacheExpirationMs)%Z ->
  get w k f (set w k f ps m) = (Some ps, set w k f ps m).
Proof.
  intros Hstat Hrecent; unfold get, set; rewrite Hstat.
  rewrite mapGet_mapSet_same; simpl.
  rewrite (Z.gtb_ltb t t), Z.ltb_irrefl.
  assert (E : (now w - t >? cacheExpirationMs)%Z = false)
    by (rewrite Z.gtb_ltb; apply Z.ltb_ge; lia).
  now rewrite E.
Qed.

(** A later modification of the file makes [get] miss and drop the entry. *)
Lemma get_after_modification (w' : World) (k f : str) (ps : list ModelProperty)
  (m : store) (t t' : Z) :
  statSync w f = Some t -> statSync w' f = Some t' -> (t < t')%Z ->
  get w' k f (set w k f ps m) = (None, mapDelete k (set w k f ps m)).
Proof.
  intros Hstat Hstat' Hlater; unfold get, set; rewrite Hstat, Hstat'.
  rewrite mapGet_mapSet_same; simpl.
  assert (E : (t' >? t)%Z = true) by (rewrite Z.gtb_ltb; apply Z.ltb_lt; lia).
  now rewrite E.
Qed.

(** A failed [set] at the bound removes the oldest entry when its key is not
    the empty string. *)
Lemma failed_set_evicts_oldest (k f k0 : str) (e0 : ModelCacheEntry)
  (ps : list ModelProperty) (m : store) :
  maxCacheSize <= size ((k0, e0) :: m) -> k0 <> [] -> statSync w f = None ->
  set w k f ps ((k0, e0) :: m) = m.
Proof.
  intros Hfull Hk Hstat; unfold set; rewrite Hstat.
  now apply evict_oldest.
Qed.

End CacheFacts.

(** *** The bound when no type name is empty *)

Section BoundFacts.

Import ModelCache.

Lemma named_mapDelete (k : str) (m : store) : named m -> named (mapDelete k m).
Proof.
  unfold named, keys; induction m as [|[k' e'] m IH]; simpl; auto.
  intros H; inversion H; subst.
  destruct (streq k' k); simpl; auto.
Qed.

Lemma named_mapSet (k : str) (e : ModelCacheEntry) (m : store) :
  k <> [] -> named m -> named (mapSet k e m).
Proof.
  unfold named, keys; intros Hk; induction m as [|[k' e'] m IH]; simpl.
  - repeat constructor; auto.
  - intros H; inversion H; subst.
    destruct (streq k' k); simpl; constructor; auto.
Qed.

Lemma named_evict (m : store) : named m -> named (evict m).
Proof.
  intros H; unfold evict.
  destruct (maxCacheSize <=? size m); auto.
  destruct (firstKey m) as [k|]; auto.
  destruct (isEmpty k); auto using named_mapDelete.
Qed.

Lemma named_filter (keep : str * ModelCacheEntry -> bool) (m : store) :
  named m -> named (filter keep m).
Proof.
  unfold named, keys; induction m as [|ke m IH]; simpl; auto.
  intros H; inversion H; subst.
  destruct (keep ke); simpl; auto.
Qed.

Lemma named_first (m : store) : named m -> firstKey m <> Some [].
Proof.
  destruct m as [|[k e] m]; simpl; [discriminate|].
  intros H; inversion H; subst; congruence.
Qed.

Lemma run_keeps_named (m : store) (c : Call) :
  namesType c -> named m -> named (run m c).
Proof.
  destruct c as [w k f|w k f ps|k| |w]; simpl; intros Hc Hm.
  - unfold get; destruct (mapGet k m); simpl; auto.
    destruct (statSync w f); simpl; auto using named_mapDelete.
    destruct (_ >? _)%Z; simpl; auto using named_mapDelete.
    destruct (_ >? _)%Z; simpl; auto using named_mapDelete.
  - unfold set; destruct (statSync w f); auto using named_evict, named_mapSet.
  - now apply named_mapDelete.
  - constructor.
  - now apply named_filter.
Qed.

Lemma run_keeps_bound (m : store) (c : Call) :
  named m -> size m <= maxCacheSize -> size (run m c) <= maxCacheSize.
Proof.
  destruct c as [w k f|w k f ps|k| |w]; simpl; intros Hm Hle.
  - pose proof (get_keeps_bound w k f m); lia.
  - apply set_keeps_bound; auto using named_first.
  - pose proof (size_mapDelete_le k m); lia.
  - unfold maxCacheSize; lia.
  - pose proof (cleanup_keeps_bound w m); lia.
Qed.

(** Started empty and never asked to store under the empty type name, the
    cache stays within its bound. *)
Lemma bound_without_empty_type_name (calls : list Call) :
  Forall namesType calls ->
  size (fold_left run calls []) <= maxCacheSize.
Proof.
  assert (H : forall m, named m -> size m <= maxCacheSize ->
                        Forall namesType calls ->
                        size (fold_left run calls m) <= maxCacheSize).
  { induction calls as [|c calls IH]; intros m Hm Hle Hcalls; simpl; auto.
    inversion Hcalls; subst.
    apply IH; auto using run_keeps_named, run_keeps_bound. }
  apply H; [constructor | unfold maxCacheSize; simpl; lia].
Qed.

End BoundFacts.

(** C1, as the code has it: the age of an entry is measured from the
    modification time of the file, not from the moment of caching.  When the
    file was last modified longer ago than the expiration window, [get]
    right after [set] on the unchanged file is a miss and removes the
    entry. *)
Theorem C1_expiry_measured_from_file_mtime
  (w : World) (k f : str) (ps : list ModelProperty) (m : ModelCache.store) (t : Z) :
  statSync w f = Some t ->
  (now w - t > ModelCache.cacheExpirationMs)%Z ->
  ModelCache.get w k f (ModelCache.set w k f ps m)
  = (None, ModelCache.mapDelete k (ModelCache.set w k f ps m)).
Proof.
  intros Hstat Hold; unfold ModelCache.get, ModelCache.set; rewrite Hstat.
  rewrite mapGet_mapSet_same; simpl.
  rewrite (Z.gtb_ltb t t), Z.ltb_irrefl.
  assert (E : (now w - t >? ModelCache.cacheExpirationMs)%Z = true)
    by (rewrite Z.gtb_ltb; apply Z.ltb_lt; lia).
  now rewrite E.
Qed.

Lemma C1_stale_file_witness :
  ModelCache.get Samples.staleWorld (lit "Shop.Models.Product") Samples.productPath
    (ModelCache.set Samples.staleWorld (lit "Shop.Models.Product") Samples.productPath
       [Samples.nameOnly] [])
  = (None, []).
Proof.
  rewrite (@C1_expiry_measured_from_file_mtime Samples.staleWorld
             (lit "Shop.Models.Product") Samples.productPath [Samples.nameOnly] []
             1700000000000%Z).
  - reflexivity.
  - reflexivity.
  - reflexivity.
Defined.

(** The class on its own keeps the bound only as long as the oldest key is
    not the empty string: the eviction test [if (firstKey)] is false for
    it, so a [set] of a new type name then evicts nothing and the cache
    grows, and a failed [set] removes nothing.  The program never stores
    under the empty type name (see [program_cache_invariant]). *)
Lemma set_with_empty_oldest_key_grows
  (w : World) (k f : str) (ps : list ModelProperty) (m : ModelCache.store) (t : Z) :
  ModelCache.size m = ModelCache.maxCacheSize ->
  ModelCache.firstKey m = Some [] ->
  ModelCache.mapGet k m = None ->
  statSync w f = Some t ->
  ModelCache.size (ModelCache.set w k f ps m) = S ModelCache.maxCacheSize.
Proof.
  intros Hsize Hfirst Hnew Hstat; unfold ModelCache.set, ModelCache.evict.
  rewrite Hstat, Hfirst, Hsize, Nat.leb_refl; simpl.
  now rewrite size_mapSet, Hnew, Hsize.
Qed.

Lemma failed_set_with_empty_oldest_key
  (w : World) (k f : str) (ps : list ModelProperty) (m : ModelCache.store) :
  ModelCache.maxCacheSize <= ModelCache.size m ->
  ModelCache.firstKey m = Some [] ->
  statSync w f = None ->
  ModelCache.set w k f ps m = m.
Proof.
  intros Hfull Hfirst Hstat; unfold ModelCache.set, ModelCache.evict.
  rewrite Hstat, Hfirst.
  destruct (ModelCache.maxCacheSize <=? ModelCache.size m); reflexivity.
Qed.

(** ** The matcher only consumes input *)

Lemma suffix_refl (s : str) : suffix s s.
Proof. now exists []. Qed.

Lemma suffix_trans (a b c : str) : suffix a b -> suffix b c -> suffix a c.
Proof.
  intros [p ->] [q ->]; exists (q ++ p); now rewrite app_assoc.
Qed.

Lemma suffix_cons (a : ascii) (s : str) : suffix s (a :: s).
Proof. now exists [a]. Qed.

Create HintDb regex.
#[local] Hint Resolve suffix_refl suffix_cons : regex.

Lemma starLoop_suffix (step : str -> caps -> cont -> option mres) (g : bool) (k : cont) :
  onSuffix step ->
  forall (fuel : nat) (s : str) (c : caps) (res : mres),
    starLoop step g k fuel s c = Some res ->
    exists s' c', suffix s' s /\ k s' c' = Some res.
Proof.
  intros Hstep; induction fuel as [|fuel IHf]; intros s c res H; simpl in H.
  - exists s, c; auto with regex.
  - assert (Hiter : forall x,
               step s c (fun s1 c1 =>
                           if length s1 <? length s then starLoop step g k fuel s1 c1
                           else None) = Some x ->
               exists s' c', suffix s' s /\ k s' c' = Some x).
    { intros x E.
      apply Hstep in E as (s1 & c1 & Hs1 & E).
      destruct (length s1 <? length s); [|discriminate].
      apply IHf in E as (s2 & c2 & Hs2 & E).
      exists s2, c2; split; auto; eapply suffix_trans; eauto. }
    destruct g.
    + match type of H with orElse ?a _ = _ => destruct a eqn:E end; simpl in H.
      * inversion H; subst; now apply Hiter.
      * exists s, c; auto with regex.
    + destruct (k s c) eqn:E; simpl in H.
      * inversion H; subst; exists s, c; auto with regex.
      * now apply Hiter.
Qed.

Lemma rmatch_suffix (total : nat) (r : regex) : onSuffix (rmatch total r).
Proof.
  unfold onSuffix.
  induction r as [|p|r1 IH1 r2 IH2|r1 IH1 r2 IH2|g r1 IH1|i r1 IH1| |m];
    intros s c k res H; simpl in H.
  - exists s, c; auto with regex.
  - destruct s as [|a s]; [discriminate|].
    destruct (p a); [|discriminate].
    exists s, c; auto with regex.
  - apply IH1 in H as (s1 & c1 & Hs1 & H).
    apply IH2 in H as (s2 & c2 & Hs2 & H).
    exists s2, c2; split; auto; eapply suffix_trans; eauto.
  - destruct (rmatch total r1 s c k) eqn:E; simpl in H.
    + inversion H; subst; now apply IH1 in E.
    + now apply IH2 in H.
  - eapply starLoop_suffix; eauto.
  - apply IH1 in H as (s1 & c1 & Hs1 & H).
    eexists s1, _; split; eauto.
  - destruct (length s =? total); [|discriminate].
    exists s, c; auto with regex.
  - destruct s as [|a s].
    + exists [], c; auto with regex.
    + destruct (m && isLineTerminator a); [|discriminate].
      exists (a :: s), c; auto with regex.
Qed.

Lemma firstn_prefix (p rest : str) :
  firstn (length (p ++ rest) - length rest) (p ++ rest) = p.
Proof.
  rewrite length_app, Nat.add_sub, firstn_app, firstn_all, Nat.sub_diag.
  simpl; apply app_nil_r.
Qed.

(** *** The fuel of a star is enough *)

Lemma suffix_length (s' s : str) : suffix s' s -> length s' <= length s.
Proof. intros [p ->]; rewrite length_app; lia. Qed.

Lemma starLoop_ext (step : str -> caps -> cont -> option mres) (g : bool) :
  contExt step ->
  forall (fuel : nat) (s : str) (c : caps) (k1 k2 : cont),
    (forall s' c', suffix s' s -> k1 s' c' = k2 s' c') ->
    starLoop step g k1 fuel s c = starLoop step g k2 fuel s c.
Proof.
  intros Hstep; induction fuel as [|fuel IH]; intros s c k1 k2 Hk; simpl.
  - apply Hk; auto with regex.
  - rewrite (Hk s c) by auto with regex.
    rewrite (Hstep s c _
               (fun s1 c1 =>
                  if length s1 <? length s then starLoop step g k2 fuel s1 c1 else None));
      auto.
    intros s1 c1 Hs1; destruct (length s1 <? length s); auto.
    apply IH; intros s2 c2 Hs2; apply Hk; eapply suffix_trans; eauto.
Qed.

Lemma rmatch_ext (total : nat) (r : regex) : contExt (rmatch total r).
Proof.
  unfold contExt.
  induction r as [|p|r1 IH1 r2 IH2|r1 IH1 r2 IH2|g r1 IH1|i r1 IH1| |m];
    intros s c k1 k2 Hk; simpl.
  - apply Hk; auto with regex.
  - destruct s as [|a s]; auto.
    destruct (p a); auto; apply Hk; auto with regex.
  - apply IH1; intros s1 c1 Hs1.
    apply IH2; intros s2 c2 Hs2; apply Hk; eapply suffix_trans; eauto.
  - now rewrite (IH1 s c k1 k2 Hk), (IH2 s c k1 k2 Hk).
  - apply starLoop_ext; auto.
  - apply IH1; intros s1 c1 Hs1; apply Hk; auto.
  - destruct (length s =? total); auto; apply Hk; auto with regex.
  - destruct s as [|a s]; [apply Hk; auto with regex|].
    destruct (m && isLineTerminator a); auto; apply Hk; auto with regex.
Qed.

(** With at least [length s] units of fuel the iterations of a star do not
    depend on the fuel: the bound never cuts a match short. *)
Lemma starLoop_fuel (step : str -> caps -> cont -> option mres) (g : bool) (k : cont) :
  onSuffix step -> contExt step ->
  forall (n : nat) (s : str) (c : caps) (fuel1 fuel2 : nat),
    length s <= n -> length s <= fuel1 -> length s <= fuel2 ->
    starLoop step g k fuel1 s c = starLoop step g k fuel2 s c.
Proof.
  intros Hsuf Hext.
  assert (Hstuck : forall fuel c,
             starLoop step g k fuel [] c = k [] c).
  { intros [|fuel] c; simpl; auto.
    destruct (step [] c _) as [res|] eqn:E.
    - apply Hsuf in E as (s1 & c1 & _ & E); simpl in E; discriminate.
    - destruct g; simpl; auto.
      destruct (k [] c); reflexivity. }
  induction n as [|n IH]; intros s c fuel1 fuel2 Hn H1 H2.
  - destruct s; [|simpl in Hn; lia].
    now rewrite !Hstuck.
  - destruct s as [|a s]; [now rewrite !Hstuck|].
    destruct fuel1 as [|fuel1]; [simpl in H1; lia|].
    destruct fuel2 as [|fuel2]; [simpl in H2; lia|].
    simpl starLoop.
    rewrite (Hext (a :: s) c _
               (fun s1 c1 =>
                  if length s1 <? length (a :: s) then starLoop step g k fuel2 s1 c1
                  else None)); auto.
    intros s1 c1 Hs1; cbn [length].
    destruct (length s1 <? S (length s)) eqn:Hlt; auto.
    apply Nat.ltb_lt in Hlt; simpl in *.
    apply IH; lia.
Qed.

Lemma mkFound_split (skipped s rest : str) (c : caps) :
  suffix rest s ->
  rev skipped ++ s
  = before (mkFound (rev skipped) (firstn (length s - length rest) s) rest c)
    ++ matched (mkFound (rev skipped) (firstn (length s - length rest) s) rest c)
    ++ after (mkFound (rev skipped) (firstn (length s - length rest) s) rest c).
Proof. intros [p ->]; simpl; now rewrite firstn_prefix. Qed.

Lemma search_unfold (total : nat) (r : regex) (skipped s : str) :
  search total r skipped s =
  match rmatch total r s [] (fun s1 c1 => Some (s1, c1)) with
  | Some (rest, c) =>
      Some (mkFound (rev skipped) (firstn (length s - length rest) s) rest c)
  | None =>
      match s with
      | [] => None
      | a :: s' => search total r (a :: skipped) s'
      end
  end.
Proof. destruct s; reflexivity. Qed.

(** A match found by [search] splits the text it was looked for in. *)
Lemma search_sound (total : nat) (r : regex) :
  forall (s skipped : str) (f : found),
    search total r skipped s = Some f ->
    rev skipped ++ s = before f ++ matched f ++ after f.
Proof.
  induction s as [|a s IH]; intros skipped f H; rewrite search_unfold in H;
    destruct (rmatch total r _ [] (fun s1 c1 => Some (s1, c1))) as [[rest c]|] eqn:E;
    try discriminate.
  - apply rmatch_suffix in E as (s' & c' & Hsuf & E).
    injection E as <- <-; injection H as <-.
    exact (@mkFound_split skipped [] s' c' Hsuf).
  - apply rmatch_suffix in E as (s' & c' & Hsuf & E).
    injection E as <- <-; injection H as <-.
    exact (@mkFound_split skipped (a :: s) s' c' Hsuf).
  - apply IH in H; simpl in H.
    now rewrite <- app_assoc in H.
Qed.

(** A global replacement whose replacement text has no line break cannot
    add a line break. *)
Lemma replaceLoop_countChar (ch : ascii) (r : regex) (rep : str) (total : nat) :
  countChar ch rep = 0 ->
  forall (fuel : nat) (s : str),
    countChar ch (replaceLoop fuel total r rep s) <= countChar ch s.
Proof.
  intros Hrep; induction fuel as [|fuel IH]; intros s; simpl; auto.
  destruct (search total r [] s) as [f|] eqn:E; auto.
  apply search_sound in E; simpl in E; rewrite E.
  destruct (matched f) as [|x mt] eqn:Em; destruct (after f) as [|y rest] eqn:Ea.
  - rewrite !countChar_app, Hrep; simpl; lia.
  - change (y :: replaceLoop fuel total r rep rest)
      with ([y] ++ replaceLoop fuel total r rep rest).
    change (y :: rest) with ([y] ++ rest).
    rewrite !countChar_app, Hrep.
    pose proof (IH rest); simpl; lia.
  - rewrite !countChar_app, Hrep.
    pose proof (IH []); lia.
  - rewrite !countChar_app, Hrep.
    pose proof (IH (y :: rest)); lia.
Qed.

Lemma replaceAll_lineCount (r : regex) (rep : str) (s : str) :
  countChar nl rep = 0 -> lineCount (replaceAll r rep s) <= lineCount s.
Proof.
  intros Hrep; rewrite !lineCount_countChar; unfold replaceAll.
  apply le_n_S, replaceLoop_countChar, Hrep.
Qed.

(** The fuel of [replaceAll] is enough: more fuel gives the same text. *)
Lemma replaceLoop_fuel (r : regex) (rep : str) (total : nat) :
  forall (fuel1 fuel2 : nat) (s : str),
    length s < fuel1 -> length s < fuel2 ->
    replaceLoop fuel1 total r rep s = replaceLoop fuel2 total r rep s.
Proof.
  induction fuel1 as [|fuel1 IH]; intros fuel2 s H1 H2; [lia|].
  destruct fuel2 as [|fuel2]; [lia|]; simpl.
  destruct (search total r [] s) as [f|] eqn:E; auto.
  apply search_sound in E; simpl in E.
  assert (Hlen : length s = length (before f) + (length (matched f) + length (after f)))
    by (rewrite E, !length_app; reflexivity).
  destruct (matched f) as [|x mt]; destruct (after f) as [|y rest]; auto;
    simpl in Hlen.
  - rewrite (IH fuel2 rest); auto; lia.
  - rewrite (IH fuel2 []); auto; simpl; lia.
  - rewrite (IH fuel2 (y :: rest)); auto; simpl; lia.
Qed.

(** C2, as the code has it: normalization never adds a line, in either
    parser; it removes the line breaks that lie inside a block comment or a
    quoted literal, so the number of lines can go down. *)
Theorem C2_normalization_never_adds_lines (content : str) :
  lineCount (Parser.cleanSourceCode content) <= lineCount content /\
  lineCount (Legacy.cleanContent content) <= lineCount content.
Proof.
  assert (Hblock : lineCount (replaceAll Parser.blockComment [] content) <= lineCount content)
    by (apply replaceAll_lineCount; reflexivity).
  assert (Hline : lineCount (replaceAll Parser.lineComment []
                               (replaceAll Parser.blockComment [] content))
                  <= lineCount content)
    by (etransitivity; [apply replaceAll_lineCount; reflexivity | exact Hblock]).
  split.
  - unfold Parser.cleanSourceCode.
    etransitivity; [apply replaceAll_lineCount; reflexivity|].
    etransitivity; [apply replaceAll_lineCount; reflexivity|].
    etransitivity; [apply replaceAll_lineCount; reflexivity|exact Hline].
  - unfold Legacy.cleanContent.
    etransitivity; [apply replaceAll_lineCount; reflexivity|].
    etransitivity; [apply replaceAll_lineCount; reflexivity|exact Hline].
Qed.

(** C2 as stated fails: a block comment over two lines is removed with its
    line break, in both parsers. *)
Lemma C2_line_count_changes :
  lineCount Samples.twoLineComment = 2 /\
  lineCount (Parser.cleanSourceCode Samples.twoLineComment) = 1 /\
  lineCount (Legacy.cleanContent Samples.twoLineComment) = 1.
Proof. vm_compute; auto. Qed.

(** ** The patterns on sample texts *)

Example propertyPattern_captures :
  option_map (fun f => (capture 1 (groups f), capture 2 (groups f)))
    (exec Parser.propertyPattern
       (lit "public virtual ICollection<Order> Orders { get; set; }"))
  = Some (Some (lit "ICollection<Order>"), Some (lit "Orders")).
Proof. vm_compute; reflexivity. Qed.

Example propertyPattern_backtracks_over_type :
  option_map (fun f => (capture 1 (groups f), capture 2 (groups f)))
    (exec Parser.propertyPattern (lit "public string Name { get; set; }"))
  = Some (Some (lit "string"), Some (lit "Name")).
Proof. vm_compute; reflexivity. Qed.

Example propertyPattern_rejects_method :
  exec Parser.propertyPattern (lit "public void M() {") = None.
Proof. vm_compute; reflexivity. Qed.

Example attributePattern_interior :
  Parser.group1 Parser.attributePattern (lit "[StringLength(100)]")
  = Some (lit "StringLength(100)").
Proof. vm_compute; reflexivity. Qed.

Example attributePattern_empty_interior :
  Parser.group1 Parser.attributePattern (lit "[]") = None.
Proof. vm_compute; reflexivity. Qed.

Example cleanSourceCode_comments :
  Parser.cleanSourceCode (lit "a /* x */ b // c") = lit "a  b ".
Proof. vm_compute; reflexivity. Qed.

Example cleanSourceCode_literals :
  Parser.cleanSourceCode
    (lit "s = " ++ [Parser.dq] ++ lit "a{b" ++ [Parser.dq] ++ lit "; c = 'x';")
  = lit "s = " ++ [Parser.dq; Parser.dq] ++ lit "; c = '';".
Proof. vm_compute; reflexivity. Qed.

Example cleanupType_nullable_system :
  Parser.cleanupType (lit "System.DateTime? ") = lit "DateTime".
Proof. vm_compute; reflexivity. Qed.

Example metadata_lengths :
  Parser.extractAttributeMetadata [lit "Required"; lit "StringLength(100)"]
  = Parser.mkMetadata None None (Some (Finite 100)) None.
Proof. vm_compute; reflexivity. Qed.

Example skip_by_suffix_ignores_case :
  Parser.shouldSkipProperty (lit "createdat") [] = true /\
  Parser.shouldSkipProperty (lit "OrderId") [] = false /\
  Parser.shouldSkipProperty (lit "Total") [lit "NotMapped"] = true.
Proof. vm_compute; auto. Qed.

(** ** The line scan of the current parser *)

Section ScanFacts.

Import Parser.

(** A turn of the loop adds no property, or adds one that the skip policy
    let through, built from the pending annotations. *)
Lemma scanLine_props (st : ScanState) (raw : str) :
  props (scanLine st raw) = props st \/
  exists n t,
    shouldSkipProperty n (currentAttributes st) = false /\
    props (scanLine st raw)
    = props st ++ [createModelProperty n t (currentAttributes st)].
Proof.
  unfold scanLine.
  destruct (isEmpty _ || _ || _); [now left|].
  destruct (negb (isInClass st) && _); [now left|].
  destruct (isInClass st && _); [now left|].
  destruct (negb (isInClass st)); [now left|].
  destruct (group1 _ _); [now left|].
  destruct (exec _ _) as [[b mt af g]|].
  - destruct (capture 1 g) as [[|t0 t]|]; destruct (capture 2 g) as [[|n0 n]|];
      try (destruct (negb _ && _ && _); now left).
    destruct (shouldSkipProperty _ _) eqn:Hskip; [now left|].
    right; eexists _, _; split; [exact Hskip|reflexivity].
  - destruct (negb _ && _ && _); now left.
Qed.

Lemma scanLines_emitted (lines : list str) :
  forall st : ScanState,
    Forall emitted (props st) -> Forall emitted (props (scanLines st lines)).
Proof.
  unfold scanLines; induction lines as [|l lines IH]; intros st Hst; simpl; auto.
  apply IH.
  destruct (scanLine_props st l) as [-> | (n & t & Hskip & ->)]; auto.
  apply Forall_app; split; auto.
  constructor; [|constructor].
  now exists n, t, (currentAttributes st).
Qed.

Lemma parse_emitted (content : str) :
  Forall emitted (parsePropertiesFromContent content).
Proof.
  unfold parsePropertiesFromContent; apply scanLines_emitted; constructor.
Qed.

Lemma extract_emitted (w : World) (content className : str) (ps : list ModelProperty) :
  extractPropertiesFromContent w content className = Some ps -> Forall emitted ps.
Proof.
  unfold extractPropertiesFromContent.
  destruct (newRegExp _ _ _); [|discriminate].
  destruct (exec _ _); intros H; injection H as <-; apply parse_emitted.
Qed.

(** A name with an audit suffix is skipped whatever the annotations. *)
Lemma skip_by_name (n : str) (a : list str) :
  existsb (fun pattern => test pattern n) skipPatterns = true ->
  shouldSkipProperty n a = true.
Proof.
  intros H; unfold shouldSkipProperty; rewrite H.
  now destruct (existsb _ a).
Qed.

Lemma skip_by_annotation (n : str) (a : list str) :
  existsb (fun attr => existsb (fun excl => includes attr excl) exclusionAttributes) a = true ->
  shouldSkipProperty n a = true.
Proof. intros H; unfold shouldSkipProperty; now rewrite H. Qed.

Lemma createdAt_skipped (a : list str) : shouldSkipProperty (lit "CreatedAt") a = true.
Proof. apply skip_by_name; vm_compute; reflexivity. Qed.

End ScanFacts.

(** ** The line scan of the older parser *)

Section LegacyScanFacts.

Import Legacy.

Lemma legacy_scanLine_props (st : ScanState) (raw : str) :
  props (scanLine st raw) = props st \/
  exists p, legacyEmitted p /\ props (scanLine st raw) = props st ++ [p].
Proof.
  unfold scanLine.
  destruct (isEmpty _ || _ || _); [now left|].
  destruct (exec Parser.attributePattern _); [now left|].
  destruct (exec Parser.propertyPattern _) as [f|].
  - right; eexists; split; [|reflexivity].
    eexists _, _, _; reflexivity.
  - destruct (negb _ && _); now left.
Qed.

Lemma legacy_parse_emitted (content : str) :
  Forall legacyEmitted (parsePropertiesFromFullContent content).
Proof.
  unfold parsePropertiesFromFullContent.
  assert (H : Forall legacyEmitted (props initialScan)) by constructor.
  revert H; generalize initialScan.
  induction (split nl (cleanContent content)) as [|l lines IH]; intros st Hst; simpl; auto.
  apply IH.
  destruct (legacy_scanLine_props st l) as [-> | (p & Hp & ->)]; auto.
  apply Forall_app; split; auto.
Qed.

End LegacyScanFacts.

(** ** End to end *)

(** C3, as the code has it: on a class with [Id] and [Name] the older parser
    gives both properties, [Id] a primary key with a numeric input, [Name]
    not a primary key, required, with a text input; the current parser
    drops [Id] (first pattern of the skip list) and gives [Name] alone, not
    a primary key, required, with a text input. *)
Theorem C3_end_to_end_in_each_parser :
  Legacy.parseModelProperties Samples.freshWorld (lit "Shop.Models.Product")
  = Fulfilled
      [ Legacy.mkModelProperty (lit "Id") (lit "int") true true [] None;
        Legacy.mkModelProperty (lit "Name") (lit "string") false true [] None ]
  /\ map Legacy.getInputTypeForProperty
       (Legacy.parsePropertiesFromFullContent Samples.productSource)
     = [lit "number"; lit "text"]
  /\ fst (Parser.parseModelProperties Samples.freshWorld (lit "Shop.Models.Product") [])
     = Fulfilled
         [ mkModelProperty (lit "Name") (lit "string") false true false []
             (Some (lit "text")) None None None None ].
Proof. vm_compute; auto. Qed.

(** C3 as stated fails for the current parser: the result has one property,
    and it is not [Id]. *)
Lemma C3_current_parser_drops_Id :
  option_map (map name)
    (Parser.extractPropertiesFromContent Samples.freshWorld Samples.productSource
       (lit "Product"))
  = Some [lit "Name"].
Proof. vm_compute; reflexivity. Qed.

(** ** Blank type names *)

Lemma dropWhile_nil (p : ascii -> bool) (s : str) :
  dropWhile p s = [] -> forallb p s = true.
Proof.
  induction s as [|a s IH]; simpl; auto.
  destruct (p a); [exact IH | discriminate].
Qed.

(** A string that trims to the empty string holds white space only. *)
Lemma blank_all_space (s : str) :
  isEmpty (trim s) = true -> forallb isWhiteSpace s = true.
Proof.
  intros H; apply isEmpty_true_iff in H.
  unfold trim, trimEnd, trimStart in H.
  apply (f_equal (@rev ascii)) in H; rewrite rev_involutive in H; simpl in H.
  apply dropWhile_nil in H.
  destruct (dropWhile isWhiteSpace s) as [|a d] eqn:E.
  - now apply dropWhile_nil.
  - assert (Ha : isWhiteSpace a = true).
    { rewrite forallb_forall in H; apply H, in_rev; rewrite rev_involutive; now left. }
    clear H; exfalso.
    induction s as [|b s IH]; simpl in E; [discriminate|].
    destruct (isWhiteSpace b) eqn:Eb; auto.
    injection E as -> ->; congruence.
Qed.

Lemma split_without_separator (sep : ascii) (s : str) :
  forallb (fun a => negb (Ascii.eqb a sep)) s = true -> split sep s = [s].
Proof.
  induction s as [|a s IH]; simpl; auto.
  intros H; apply andb_true_iff in H as [Ha Hs].
  apply negb_true_iff in Ha; rewrite Ha, (IH Hs); reflexivity.
Qed.

(** A blank type name has no dot: it is its own class name. *)
Lemma blank_class_name (modelType : str) :
  isEmpty (trim modelType) = true -> last (split "." modelType) [] = modelType.
Proof.
  intros H; apply blank_all_space in H.
  rewrite split_without_separator; [reflexivity|].
  rewrite forallb_forall in *; intros a Ha.
  specialize (H a Ha).
  destruct (Ascii.eqb_spec a "."%char) as [->|]; [discriminate H | reflexivity].
Qed.

(** C4, as the code has it, entry point by entry point.  The current one
    answers a type name that is empty or only white space with the empty
    sequence at once, the cache as it was.  The older one does so for the
    empty type name only: a type name of white space passes its guard, is
    searched for as a class name, and the properties of the file found are
    returned.  The promise is fulfilled in every case, never rejected. *)
Theorem C4_blank_type_name_in_each_entry_point
  (w : World) (modelType : str) (cache : ModelCache.store) :
  isEmpty (trim modelType) = true ->
  Parser.parseModelProperties w modelType cache = (Fulfilled [], cache)
  /\ Legacy.parseModelProperties w modelType <> Rejected
  /\ (modelType = [] -> Legacy.parseModelProperties w modelType = Fulfilled [])
  /\ (modelType <> [] ->
      forall (modelFile : str) (others : list str) (content : str)
             (properties : list Legacy.ModelProperty),
        findFiles w (lit "**/" ++ modelType ++ lit ".cs") = Some (modelFile :: others) ->
        readFile w modelFile = Some content ->
        Legacy.extractPropertiesFromContent w content modelType = Some properties ->
        Legacy.parseModelProperties w modelType = Fulfilled properties).
Proof.
  intros Hblank; repeat apply conj.
  - unfold Parser.parseModelProperties; now rewrite Hblank.
  - unfold Legacy.parseModelProperties.
    destruct (isEmpty modelType); [discriminate|].
    destruct (isEmpty (last (split "." modelType) [])); [discriminate|].
    destruct (findFiles _ _) as [[|file files]|]; try discriminate.
    destruct (readFile _ _); [|discriminate].
    destruct (Legacy.extractPropertiesFromContent _ _ _); discriminate.
  - intros ->; reflexivity.
  - intros Hne modelFile others content properties Hfind Hread Hextract.
    unfold Legacy.parseModelProperties.
    rewrite (blank_class_name modelType Hblank).
    destruct modelType as [|a rest]; [congruence|].
    cbn [isEmpty]; cbv zeta.
    now rewrite Hfind, Hread, Hextract.
Qed.

Lemma C4_blank_witness :
  Parser.parseModelProperties Samples.blankWorld (lit " ") Samples.fullCache
  = (Fulfilled [], Samples.fullCache)
  /\ Legacy.parseModelProperties Samples.blankWorld (lit " ")
     = Fulfilled
         [ Legacy.mkModelProperty (lit "Id") (lit "int") true true [] None;
           Legacy.mkModelProperty (lit "Name") (lit "string") false true [] None ].
Proof.
  assert (Hblank : isEmpty (trim (lit " ")) = true) by (vm_compute; reflexivity).
  destruct (@C4_blank_type_name_in_each_entry_point Samples.blankWorld (lit " ")
              Samples.fullCache Hblank) as (Hcurrent & _ & _ & Holder).
  split; [exact Hcurrent|].
  apply (Holder ltac:(discriminate) Samples.blankPath [] Samples.spacedSource).
  - vm_compute; reflexivity.
  - vm_compute; reflexivity.
  - vm_compute; reflexivity.
Defined.

(** C4 as stated fails: the empty type name is answered with a fulfilled
    promise holding the empty sequence, by both entry points. *)
Lemma C4_empty_type_name_not_rejected :
  fst (Parser.parseModelProperties Samples.freshWorld [] []) = Fulfilled [] /\
  Legacy.parseModelProperties Samples.freshWorld [] = Fulfilled [] /\
  fst (Parser.parseModelProperties Samples.freshWorld [] []) <> Rejected.
Proof. repeat split; discriminate. Qed.

(** No call of either entry point is rejected. *)
Lemma parseModelProperties_never_rejected
  (w : World) (modelType : str) (cache : ModelCache.store) :
  fst (Parser.parseModelProperties w modelType cache) <> Rejected.
Proof.
  unfold Parser.parseModelProperties.
  destruct (isEmpty (trim modelType)); [discriminate|].
  destruct (isEmpty _); [discriminate|].
  destruct (Parser.findModelFiles _ _) as [[|file files]|]; try discriminate.
  destruct (Parser.selectBestModelFile _); [|discriminate].
  destruct (ModelCache.get _ _ _ _) as [[cached|] cache1]; [discriminate|].
  destruct (readFile _ _); [|discriminate].
  destruct (Parser.extractPropertiesFromContent _ _ _); discriminate.
Qed.

Lemma legacy_parseModelProperties_never_rejected (w : World) (modelType : str) :
  Legacy.parseModelProperties w modelType <> Rejected.
Proof.
  unfold Legacy.parseModelProperties.
  destruct (isEmpty modelType); [discriminate|].
  destruct (isEmpty _); [discriminate|].
  destruct (findFiles _ _) as [[|file files]|]; try discriminate.
  destruct (readFile _ _); [|discriminate].
  destruct (Legacy.extractPropertiesFromContent _ _ _); discriminate.
Qed.

(** The entry point never stores under the empty type name, so the cache
    it fills stays within the bound. *)
Lemma entry_point_keeps_bound
  (w : World) (modelType : str) (cache : ModelCache.store) :
  ModelCache.named cache ->
  ModelCache.size cache <= ModelCache.maxCacheSize ->
  ModelCache.named (snd (Parser.parseModelProperties w modelType cache)) /\
  ModelCache.size (snd (Parser.parseModelProperties w modelType cache))
  <= ModelCache.maxCacheSize.
Proof.
  intros Hnamed Hle; unfold Parser.parseModelProperties.
  destruct (isEmpty (trim modelType)) eqn:Hblank; [auto|].
  assert (Hk : modelType <> []) by (intros ->; discriminate Hblank).
  cbv zeta.
  destruct (isEmpty (last (split "." modelType) [])); [auto|].
  destruct (Parser.findModelFiles _ _) as [[|file files]|]; auto.
  destruct (Parser.selectBestModelFile _) as [modelFile|]; auto.
  pose proof (run_keeps_named (ModelCache.CallGet w modelType modelFile) I Hnamed)
    as Hnamed1.
  pose proof (run_keeps_bound (ModelCache.CallGet w modelType modelFile) Hnamed Hle)
    as Hle1.
  simpl in Hnamed1, Hle1.
  destruct (ModelCache.get w modelType modelFile cache) as [[cached|] cache1];
    simpl in *; auto.
  destruct (readFile _ _) as [content|]; auto.
  destruct (Parser.extractPropertiesFromContent _ _ _) as [properties|]; auto.
  simpl; split.
  - exact (run_keeps_named (ModelCache.CallSet w modelType modelFile properties)
             Hk Hnamed1).
  - exact (run_keeps_bound (ModelCache.CallSet w modelType modelFile properties)
             Hnamed1 Hle1).
Qed.

(** ** Required-ness *)

Section DeclarationFacts.

Import Parser.

Variable lines : list str.

(** A turn of the loop on one of the lines adds no property, or one built
    from what the property pattern captured on that line. *)
Lemma scanLine_declared (st : ScanState) (raw : str) :
  In raw lines ->
  Forall (declaredOn lines) (props st) ->
  Forall (declaredOn lines) (props (scanLine st raw)).
Proof.
  intros Hraw Hst; unfold scanLine.
  destruct (isEmpty _ || _ || _); [exact Hst|].
  destruct (negb (isInClass st) && _); [exact Hst|].
  destruct (isInClass st && _); [exact Hst|].
  destruct (negb (isInClass st)); [exact Hst|].
  destruct (group1 _ _); [exact Hst|].
  destruct (exec propertyPattern (trim raw)) as [[b mt af g]|] eqn:Eexec.
  - destruct (capture 1 g) as [[|t0 t]|] eqn:E1;
      destruct (capture 2 g) as [[|n0 n]|] eqn:E2;
      try (destruct (negb _ && _ && _); exact Hst).
    destruct (shouldSkipProperty _ _); [exact Hst|].
    cbn [props]; apply Forall_app; split; [exact Hst|].
    constructor; [|constructor].
    exists raw, (mkFound b mt af g), (t0 :: t), (n0 :: n), (currentAttributes st).
    repeat apply conj; auto.
  - destruct (negb _ && _ && _); exact Hst.
Qed.

Lemma scanLines_declared (todo : list str) :
  forall st : ScanState,
    incl todo lines ->
    Forall (declaredOn lines) (props st) ->
    Forall (declaredOn lines) (props (scanLines st todo)).
Proof.
  unfold scanLines; induction todo as [|l todo IH]; intros st Hincl Hst; simpl; auto.
  apply IH.
  - intros x Hx; apply Hincl; now right.
  - apply scanLine_declared; auto; apply Hincl; now left.
Qed.

Lemma parse_declared :
  Forall (declaredOn lines) (props (scanLines initialScan lines)).
Proof.
  apply scanLines_declared; [apply incl_refl | constructor].
Qed.

End DeclarationFacts.

(** C5, as the code has it: every property the current parser returns was
    declared on a line of the text that the property pattern matches; with
    the raw type being group 1 of that match, trimmed, the property counts
    as nullable exactly when the raw type contains a question mark, and
    [isRequired] is the rule of the specification applied to that test, to
    primary-key status (the name is [id] or ends with [id], or an
    annotation contains [key], whatever the letter case) and to the
    presence of a required annotation; a required annotation makes the
    property required. *)
Theorem C5_required_rule_in_current_parser (content : str) (p : ModelProperty) :
  In p (Parser.parsePropertiesFromContent content) ->
  exists (line : str) (f : found) (group1 group2 : str),
    In line (split nl content)
    /\ exec Parser.propertyPattern (trim line) = Some f
    /\ capture 1 (groups f) = Some group1
    /\ capture 2 (groups f) = Some group2
    /\ name p = trim group2
    /\ isNullable p = includes (trim group1) (lit "?")
    /\ isPrimaryKey p
       = streq (toLowerCase (name p)) (lit "id")
         || endsWith (toLowerCase (name p)) (lit "id")
         || Parser.hasKeyword "key" (attributes p)
    /\ isRequired p
       = Rules.requiredRule (includes (trim group1) (lit "?")) (isPrimaryKey p)
           (Parser.hasKeyword "required" (attributes p))
    /\ (Parser.hasKeyword "required" (attributes p) = true -> isRequired p = true).
Proof.
  intros Hin.
  pose proof (parse_declared (split nl content)) as Hall.
  rewrite Forall_forall in Hall.
  destruct (Hall p Hin) as (line & f & group1 & group2 & a & Hline & Hexec & H1 & H2 & ->).
  exists line, f, group1, group2.
  unfold Parser.createModelProperty, Rules.requiredRule;
    cbn [name isNullable isPrimaryKey isRequired attributes].
  repeat apply conj; auto.
  intros ->; apply orb_true_r.
Qed.

Lemma C5_required_rule_witness :
  isNullable Samples.nick = true
  /\ Parser.hasKeyword "required" (attributes Samples.nick) = true
  /\ exists (line : str) (f : found) (group1 group2 : str),
       In line (split nl Samples.playerSource)
       /\ exec Parser.propertyPattern (trim line) = Some f
       /\ capture 1 (groups f) = Some group1
       /\ capture 2 (groups f) = Some group2
       /\ name Samples.nick = trim group2
       /\ isNullable Samples.nick = includes (trim group1) (lit "?")
       /\ isPrimaryKey Samples.nick
          = streq (toLowerCase (name Samples.nick)) (lit "id")
            || endsWith (toLowerCase (name Samples.nick)) (lit "id")
            || Parser.hasKeyword "key" (attributes Samples.nick)
       /\ isRequired Samples.nick
          = Rules.requiredRule (includes (trim group1) (lit "?"))
              (isPrimaryKey Samples.nick)
              (Parser.hasKeyword "required" (attributes Samples.nick))
       /\ (Parser.hasKeyword "required" (attributes Samples.nick) = true ->
           isRequired Samples.nick = true).
Proof.
  split; [vm_compute; reflexivity|].
  split; [vm_compute; reflexivity|].
  apply (@C5_required_rule_in_current_parser Samples.playerSource Samples.nick).
  vm_compute; left; reflexivity.
Defined.

(** What the rule gives on the sample class: the nullable [Nick] is required
    by its annotation; [Scores], a list of nullable numbers, counts as
    nullable for the question mark inside its type and is not required;
    the foreign key [TeamId] is a primary key by its name and is not
    required. *)
Lemma required_flags_of_the_sample_class :
  map (fun p => (name p, type p, isNullable p, isPrimaryKey p, isRequired p))
    (Parser.parsePropertiesFromContent (Parser.cleanSourceCode Samples.playerSource))
  = [ (lit "Nick", lit "string", true, false, true);
      (lit "Scores", lit "List<int?>", true, false, false);
      (lit "TeamId", lit "int", false, true, false) ].
Proof. vm_compute; reflexivity. Qed.

(** C5 as stated fails for the older parser: its [Id], declared [int]
    without annotation, is a primary key and is required, where the rule
    gives not required. *)
Lemma C5_legacy_ignores_primary_key :
  exists p,
    In p (Legacy.parsePropertiesFromFullContent Samples.productSource) /\
    Legacy.name p = lit "Id" /\ Legacy.type p = lit "int" /\
    Legacy.attributes p = [] /\ Legacy.isPrimaryKey p = true /\
    Legacy.isRequired p = true /\
    Rules.requiredRule (includes (Legacy.type p) (lit "?")) (Legacy.isPrimaryKey p)
      (Parser.hasKeyword "required" (Legacy.attributes p)) = false.
Proof.
  exists (Legacy.mkModelProperty (lit "Id") (lit "int") true true [] None).
  vm_compute; repeat split; auto.
Qed.

(** In the older parser too a required annotation makes the property
    required. *)
Lemma legacy_required_annotation_wins (content : str) (p : Legacy.ModelProperty) :
  In p (Legacy.parsePropertiesFromFullContent content) ->
  Parser.hasKeyword "required" (Legacy.attributes p) = true ->
  Legacy.isRequired p = true.
Proof.
  intros Hin Hreq.
  pose proof (legacy_parse_emitted content) as Hall.
  rewrite Forall_forall in Hall.
  destruct (Hall p Hin) as (n & t & a & ->); simpl in *.
  rewrite Hreq; apply orb_true_r.
Qed.

(** ** The pending annotations *)

Lemma startsWith_nil (s : str) : startsWith s [] = true.
Proof. destruct s; reflexivity. Qed.

Lemma countChar_absent (c : ascii) (s : str) :
  includes s [c] = false -> countChar c s = 0.
Proof.
  unfold countChar; induction s as [|a s IH]; simpl; auto.
  rewrite startsWith_nil, andb_true_r, (Ascii.eqb_sym c a).
  intros H; apply orb_false_iff in H as [-> H]; auto.
Qed.

(** C6, as the code has it: inside the class (brace level not zero), a line
    that is not blank, not a [using] or [namespace] line, not an annotation,
    not a property, and that holds no bracket and no brace, empties the
    pending annotations and changes nothing else. *)
Theorem C6_plain_line_clears_pending_annotations (st : Parser.ScanState) (raw : str) :
  isEmpty (trim raw) = false ->
  startsWith (trim raw) (lit "using ") = false ->
  startsWith (trim raw) (lit "namespace ") = false ->
  Parser.isInClass st = true ->
  Parser.braceLevel st <> 0%Z ->
  Parser.group1 Parser.attributePattern (trim raw) = None ->
  exec Parser.propertyPattern (trim raw) = None ->
  includes (trim raw) (lit "[") = false ->
  includes (trim raw) (lit "{") = false ->
  includes (trim raw) (lit "}") = false ->
  Parser.scanLine st raw = Parser.mkScan (Parser.props st) [] true (Parser.braceLevel st).
Proof.
  intros Hne Hus Hns Hin Hlevel Hattr Hprop Hb Ho Hc.
  unfold Parser.scanLine.
  rewrite Hne, Hus, Hns, Hin, Hattr, Hprop, Hb, Ho, Hc.
  change (lit "{") with ["{"%char] in Ho; change (lit "}") with ["}"%char] in Hc.
  rewrite (countChar_absent _ _ Ho), (countChar_absent _ _ Hc).
  replace (Parser.braceLevel st + Z.of_nat 0 - Z.of_nat 0)%Z
    with (Parser.braceLevel st) by (simpl; lia).
  apply Z.eqb_neq in Hlevel; rewrite Hlevel; reflexivity.
Qed.

Lemma C6_plain_line_witness :
  Parser.scanLine (Parser.mkScan [] [lit "EmailAddress"] true 1) (lit "    private int count;")
  = Parser.mkScan [] [] true 1.
Proof.
  apply (@C6_plain_line_clears_pending_annotations
           (Parser.mkScan [] [lit "EmailAddress"] true 1) (lit "    private int count;"));
    try (vm_compute; reflexivity).
  simpl; lia.
Defined.

(** A line with a bracket or a brace that is neither an annotation nor a
    property leaves the pending annotations as they are. *)
Lemma bracket_line_keeps_pending_annotations (st : Parser.ScanState) (raw : str) :
  Parser.group1 Parser.attributePattern (trim raw) = None ->
  exec Parser.propertyPattern (trim raw) = None ->
  includes (trim raw) (lit "[") || includes (trim raw) (lit "{")
  || includes (trim raw) (lit "}") = true ->
  Parser.currentAttributes (Parser.scanLine st raw) = Parser.currentAttributes st.
Proof.
  intros Hattr Hprop Hbr; unfold Parser.scanLine; rewrite Hattr, Hprop.
  destruct (isEmpty _ || _ || _); auto.
  destruct (negb (Parser.isInClass st) && _); auto.
  destruct (Parser.isInClass st && _); auto.
  destruct (negb (Parser.isInClass st)); auto.
  destruct (includes (trim raw) (lit "[")), (includes (trim raw) (lit "{")),
    (includes (trim raw) (lit "}")); simpl in *; auto; discriminate.
Qed.

(** C6 as stated fails: a method header and its closing brace stand between
    an annotation and a property, and the property still gets the
    annotation, in both parsers. *)
Lemma C6_annotation_leaks_past_method :
  map (fun p => (name p, attributes p, inputType p))
    (Parser.parsePropertiesFromContent (Parser.cleanSourceCode Samples.leakSource))
  = [(lit "Name", [lit "EmailAddress"], Some (lit "email"))]
  /\ Parser.currentAttributes
       (Parser.scanLine (Parser.mkScan [] [lit "EmailAddress"] true 1)
          (lit "public void M() {"))
     = [lit "EmailAddress"]
  /\ map (fun p => (Legacy.name p, Legacy.attributes p))
       (Legacy.parsePropertiesFromFullContent Samples.leakSource)
     = [(lit "Name", [lit "EmailAddress"])].
Proof. vm_compute; auto. Qed.

(** ** The skip policy *)

(** C7, as the code has it: no property returned by the current parser is
    one that the skip policy rejects; in particular none is named
    [CreatedAt], with or without annotations. *)
Theorem C7_skip_policy_in_current_parser
  (w : World) (content className : str) (ps : list ModelProperty) (p : ModelProperty) :
  Parser.extractPropertiesFromContent w content className = Some ps ->
  In p ps ->
  Parser.shouldSkipProperty (name p) (attributes p) = false
  /\ name p <> lit "CreatedAt".
Proof.
  intros Hextract Hin.
  pose proof (extract_emitted _ _ _ Hextract) as Hall.
  rewrite Forall_forall in Hall.
  destruct (Hall p Hin) as (n & t & a & Hskip & ->); simpl.
  split; auto.
  intros ->; rewrite createdAt_skipped in Hskip; discriminate.
Qed.

Lemma C7_skip_policy_witness :
  Parser.shouldSkipProperty (lit "Note") [] = false /\ lit "Note" <> lit "CreatedAt".
Proof.
  apply (@C7_skip_policy_in_current_parser Samples.freshWorld Samples.auditSource
           (lit "Product")
           [Parser.createModelProperty (lit "Note") (lit "string") []]
           (Parser.createModelProperty (lit "Note") (lit "string") [])).
  - vm_compute; reflexivity.
  - left; reflexivity.
Defined.

(** The same through the entry point, when the cache was filled by it. *)
Lemma cleanCache_mapGet (k : str) (m : ModelCache.store) (e : ModelCacheEntry) :
  Parser.cleanCache m -> ModelCache.mapGet k m = Some e ->
  Forall Parser.emitted (properties e).
Proof.
  unfold Parser.cleanCache; induction m as [|[k' e'] m IH]; simpl; [discriminate|].
  intros H Hget; inversion H; subst.
  destruct (streq k' k); auto.
  now injection Hget as <-.
Qed.

Lemma cleanCache_mapDelete (k : str) (m : ModelCache.store) :
  Parser.cleanCache m -> Parser.cleanCache (ModelCache.mapDelete k m).
Proof.
  unfold Parser.cleanCache; induction m as [|[k' e'] m IH]; simpl; auto.
  intros H; inversion H; subst.
  destruct (streq k' k); auto.
Qed.

Lemma cleanCache_mapSet (k : str) (e : ModelCacheEntry) (m : ModelCache.store) :
  Forall Parser.emitted (properties e) ->
  Parser.cleanCache m -> Parser.cleanCache (ModelCache.mapSet k e m).
Proof.
  unfold Parser.cleanCache; intros He; induction m as [|[k' e'] m IH]; simpl.
  - repeat constructor; auto.
  - intros H; inversion H; subst.
    destruct (streq k' k); constructor; auto.
Qed.

Lemma cleanCache_get (w : World) (k f : str) (m : ModelCache.store) :
  Parser.cleanCache m ->
  Parser.cleanCache (snd (ModelCache.get w k f m)) /\
  (forall ps, fst (ModelCache.get w k f m) = Some ps -> Forall Parser.emitted ps).
Proof.
  intros Hm; unfold ModelCache.get.
  destruct (ModelCache.mapGet k m) as [e|] eqn:Hget; simpl; [|split; [auto|discriminate]].
  destruct (statSync w f); simpl;
    [|split; [now apply cleanCache_mapDelete|discriminate]].
  destruct (_ >? _)%Z; simpl; [split; [now apply cleanCache_mapDelete|discriminate]|].
  destruct (_ >? _)%Z; simpl; [split; [now apply cleanCache_mapDelete|discriminate]|].
  split; auto.
  intros ps Hps; injection Hps as <-; eapply cleanCache_mapGet; eauto.
Qed.

Lemma cleanCache_set (w : World) (k f : str) (ps : list ModelProperty)
  (m : ModelCache.store) :
  Forall Parser.emitted ps -> Parser.cleanCache m ->
  Parser.cleanCache (ModelCache.set w k f ps m).
Proof.
  intros Hps Hm; unfold ModelCache.set.
  assert (Hev : Parser.cleanCache (ModelCache.evict m)).
  { unfold ModelCache.evict.
    destruct (_ <=? _); auto.
    destruct (ModelCache.firstKey m) as [k0|]; auto.
    destruct (isEmpty k0); auto using cleanCache_mapDelete. }
  destruct (statSync w f); auto using cleanCache_mapSet.
Qed.

Lemma entry_point_skip_policy
  (w : World) (modelType : str) (cache cache' : ModelCache.store)
  (ps : list ModelProperty) :
  Parser.cleanCache cache ->
  Parser.parseModelProperties w modelType cache = (Fulfilled ps, cache') ->
  Forall Parser.emitted ps /\ Parser.cleanCache cache'.
Proof.
  intros Hm; unfold Parser.parseModelProperties.
  destruct (isEmpty (trim modelType));
    [intros H; injection H as <- <-; auto|].
  destruct (isEmpty _); [intros H; injection H as <- <-; auto|].
  destruct (Parser.findModelFiles _ _) as [[|file files]|];
    try (intros H; injection H as <- <-; now auto).
  destruct (Parser.selectBestModelFile _) as [modelFile|];
    [|intros H; injection H as <- <-; auto].
  destruct (cleanCache_get w modelType modelFile Hm) as [Hm1 Hhit].
  destruct (ModelCache.get w modelType modelFile cache) as [[cached|] cache1];
    simpl in *.
  - intros H; injection H as <- <-; auto.
  - destruct (readFile _ _) as [content|]; [|intros H; injection H as <- <-; auto].
    destruct (Parser.extractPropertiesFromContent _ _ _) as [properties|] eqn:E;
      [|intros H; injection H as <- <-; auto].
    intros H; injection H as <- <-.
    pose proof (extract_emitted _ _ _ E).
    auto using cleanCache_set.
Qed.

(** C7 as stated fails for the older parser, which has no skip policy: it
    returns [CreatedAt], without annotations. *)
Lemma C7_legacy_returns_CreatedAt :
  map (fun p => (Legacy.name p, Legacy.attributes p))
    (Legacy.parsePropertiesFromFullContent Samples.auditSource)
  = [(lit "CreatedAt", []); (lit "Note", [])].
Proof. vm_compute; reflexivity. Qed.

(** ** Input kinds *)

Lemma firstHit_find (hit : str -> bool) (table : list (str * str)) :
  Parser.firstHit hit table
  = option_map snd (find (fun entry => hit (fst entry)) table).
Proof.
  induction table as [|[key value] table IH]; simpl; auto.
  destruct (hit key); auto.
Qed.

Lemma existsb_map {A B : Type} (f : A -> B) (test : B -> bool) (l : list A) :
  existsb test (map f l) = existsb (fun x => test (f x)) l.
Proof. induction l as [|x l IH]; simpl; auto; now rewrite IH. Qed.

Lemma find_ext {A : Type} (f g : A -> bool) (l : list A) :
  (forall x, f x = g x) -> find f l = find g l.
Proof.
  intros H; induction l as [|x l IH]; simpl; auto.
  rewrite H, IH; reflexivity.
Qed.

Lemma inputKind_is_rule (p : ModelProperty) :
  Parser.getInputTypeForProperty p = Rules.inputKindRule (type p) (attributes p).
Proof.
  unfold Parser.getInputTypeForProperty, Rules.inputKindRule.
  rewrite !firstHit_find.
  rewrite (find_ext
             (fun entry => existsb (fun attr => includes attr (fst entry))
                             (map toLowerCase (attributes p)))
             (fun entry => existsb (fun a => includes (toLowerCase a) (fst entry))
                             (attributes p)))
    by (intros x; apply existsb_map).
  repeat match goal with
         | |- context [find ?f ?table] => destruct (find f table)
         end; reflexivity.
Qed.

(** C8, as the code has it: the current [getInputTypeForProperty] is the
    two-table rule, attribute keywords first, in the order email, phone,
    password, url, color, range, file, hidden, then the type table, then
    text; a [string] property annotated [EmailAddress] gets [email]. *)
Theorem C8_input_kind_rule_in_current_parser (p : ModelProperty) :
  Parser.getInputTypeForProperty p = Rules.inputKindRule (type p) (attributes p)
  /\ map fst Parser.ATTRIBUTE_MAPPINGS
     = [lit "email"; lit "phone"; lit "password"; lit "url"; lit "color";
        lit "range"; lit "file"; lit "hidden"]
  /\ inputType (Parser.createModelProperty (lit "Contact") (lit "string")
                  [lit "EmailAddress"])
     = Some (lit "email").
Proof.
  split; [apply inputKind_is_rule|split; vm_compute; reflexivity].
Qed.

(** An annotation with the email keyword decides, whatever the type. *)
Lemma email_annotation_wins (p : ModelProperty) :
  Parser.hasKeyword "email" (attributes p) = true ->
  Parser.getInputTypeForProperty p = lit "email".
Proof.
  intros H; unfold Parser.getInputTypeForProperty.
  unfold Parser.ATTRIBUTE_MAPPINGS; cbn [Parser.firstHit].
  rewrite existsb_map; unfold Parser.hasKeyword in H; now rewrite H.
Qed.

(** Without any keyword of either table the input kind is text. *)
Lemma no_keyword_gives_text (p : ModelProperty) :
  (forall entry, In entry Parser.ATTRIBUTE_MAPPINGS ->
     existsb (fun a => includes (toLowerCase a) (fst entry)) (attributes p) = false) ->
  (forall entry, In entry Parser.TYPE_MAPPINGS ->
     includes (toLowerCase (type p)) (fst entry) = false) ->
  Parser.getInputTypeForProperty p = lit "text".
Proof.
  intros Hattr Htype.
  rewrite inputKind_is_rule; unfold Rules.inputKindRule.
  match goal with
  | |- context [find ?f Parser.ATTRIBUTE_MAPPINGS] =>
      destruct (find f Parser.ATTRIBUTE_MAPPINGS) as [entry|] eqn:E
  end.
  - apply find_some in E as [Hin Hhit]; rewrite Hattr in Hhit; auto; discriminate.
  - match goal with
    | |- context [find ?f Parser.TYPE_MAPPINGS] =>
        destruct (find f Parser.TYPE_MAPPINGS) as [entry|] eqn:E'
    end; auto.
    apply find_some in E' as [Hin Hhit]; rewrite Htype in Hhit; auto; discriminate.
Qed.

(** C8 as stated fails for the older function, which knows no range, file
    or hidden keyword: an [int] with a [Range] annotation gets [number]
    where the rule gives [range]. *)
Lemma C8_legacy_ignores_range :
  Legacy.getInputTypeForProperty
    (Legacy.mkModelProperty (lit "Quantity") (lit "int") false true [lit "Range(1, 10)"] None)
  = lit "number"
  /\ Rules.inputKindRule (lit "int") [lit "Range(1, 10)"] = lit "range".
Proof. vm_compute; auto. Qed.

(* ------------------------------------------------------------------ *)
(** * Further properties of the cache *)

Section MapFacts.

Import ModelCache.

Lemma streq_false_iff (a b : str) : streq a b = false <-> a <> b.
Proof.
  split.
  - intros H Heq; apply streq_true_iff in Heq; congruence.
  - intros H; destruct (streq a b) eqn:E; auto.
    apply streq_true_iff in E; contradiction.
Qed.

Lemma mapGet_mapDelete_other (k k' : str) (m : store) :
  k <> k' -> mapGet k' (mapDelete k m) = mapGet k' m.
Proof.
  intros Hne; induction m as [|[k0 e0] m IH]; simpl; auto.
  destruct (streq k0 k) eqn:E.
  - apply streq_true_iff in E; subst k0.
    apply streq_false_iff in Hne; now rewrite Hne.
  - simpl; destruct (streq k0 k'); auto.
Qed.

Lemma mapGet_mapSet_other (k k' : str) (e : ModelCacheEntry) (m : store) :
  k <> k' -> mapGet k' (mapSet k e m) = mapGet k' m.
Proof.
  intros Hne; induction m as [|[k0 e0] m IH]; simpl.
  - apply streq_false_iff in Hne; now rewrite Hne.
  - destruct (streq k0 k) eqn:E; simpl.
    + apply streq_true_iff in E; subst k0.
      apply streq_false_iff in Hne; now rewrite Hne.
    + destruct (streq k0 k'); auto.
Qed.

Lemma mapSet_absent (k : str) (e : ModelCacheEntry) (m : store) :
  mapGet k m = None -> mapSet k e m = m ++ [(k, e)].
Proof.
  induction m as [|[k0 e0] m IH]; simpl; auto.
  destruct (streq k0 k); [discriminate|].
  intros H; now rewrite IH.
Qed.

Lemma keys_mapSet_present (k : str) (e e0 : ModelCacheEntry) (m : store) :
  mapGet k m = Some e0 -> keys (mapSet k e m) = keys m.
Proof.
  unfold keys; induction m as [|[k1 e1] m IH]; simpl; [discriminate|].
  destruct (streq k1 k); simpl; auto.
  intros H; now rewrite IH.
Qed.

Lemma mapGet_None_keys (k : str) (m : store) :
  mapGet k m = None <-> ~ In k (keys m).
Proof.
  unfold keys; induction m as [|[k0 e0] m IH]; simpl; [tauto|].
  destruct (streq k0 k) eqn:E.
  - apply streq_true_iff in E; subst; split; [discriminate|tauto].
  - apply streq_false_iff in E; rewrite IH; tauto.
Qed.

Lemma keys_mapDelete_incl (k k' : str) (m : store) :
  In k' (keys (mapDelete k m)) -> In k' (keys m).
Proof.
  unfold keys; induction m as [|[k0 e0] m IH]; simpl; auto.
  destruct (streq k0 k); simpl; tauto.
Qed.

Lemma NoDup_mapDelete (k : str) (m : store) :
  NoDup (keys m) -> NoDup (keys (mapDelete k m)).
Proof.
  induction m as [|[k0 e0] m IH]; simpl; auto.
  intros H; inversion H as [|? ? Hnotin Hnd]; subst.
  destruct (streq k0 k); simpl; auto.
  constructor; auto.
  intros Hin; apply Hnotin; eapply keys_mapDelete_incl; eauto.
Qed.

Lemma keys_mapSet_incl (k k' : str) (e : ModelCacheEntry) (m : store) :
  In k' (keys (mapSet k e m)) -> k' = k \/ In k' (keys m).
Proof.
  unfold keys; induction m as [|[k0 e0] m IH]; simpl; [intuition|].
  destruct (streq k0 k); simpl; intuition.
Qed.

Lemma NoDup_mapSet (k : str) (e : ModelCacheEntry) (m : store) :
  NoDup (keys m) -> NoDup (keys (mapSet k e m)).
Proof.
  induction m as [|[k0 e0] m IH]; simpl.
  - intros _; repeat constructor; auto.
  - intros H; inversion H as [|? ? Hnotin Hnd]; subst.
    destruct (streq k0 k) eqn:E; simpl.
    + constructor; auto.
    + constructor; auto.
      intros Hin; apply keys_mapSet_incl in Hin as [->|Hin]; auto.
      apply streq_false_iff in E; congruence.
Qed.

Lemma NoDup_evict (m : store) : NoDup (keys m) -> NoDup (keys (evict m)).
Proof.
  intros H; unfold evict.
  destruct (maxCacheSize <=? size m); auto.
  destruct (firstKey m) as [k|]; auto.
  destruct (isEmpty k); auto using NoDup_mapDelete.
Qed.

Lemma NoDup_filter_keys (keep : str * ModelCacheEntry -> bool) (m : store) :
  NoDup (keys m) -> NoDup (keys (filter keep m)).
Proof.
  induction m as [|ke m IH]; simpl; auto.
  intros H; inversion H as [|? ? Hnotin Hnd]; subst.
  destruct (keep ke); simpl; auto.
  constructor; auto.
  intros Hin; apply Hnotin.
  unfold keys in *; apply in_map_iff in Hin as (x & Hx & Hin).
  apply filter_In in Hin as [Hin _].
  apply in_map_iff; eauto.
Qed.

(** The keys stay pairwise different under every operation, as in a [Map]. *)
Lemma run_keeps_NoDup (m : store) (c : Call) :
  NoDup (keys m) -> NoDup (keys (run m c)).
Proof.
  destruct c as [w k f|w k f ps|k| |w]; simpl; intros Hm.
  - unfold get; destruct (mapGet k m); simpl; auto.
    destruct (statSync w f); simpl; auto using NoDup_mapDelete.
    destruct (_ >? _)%Z; simpl; auto using NoDup_mapDelete.
    destruct (_ >? _)%Z; simpl; auto using NoDup_mapDelete.
  - unfold set; destruct (statSync w f); auto using NoDup_evict, NoDup_mapSet.
  - now apply NoDup_mapDelete.
  - constructor.
  - now apply NoDup_filter_keys.
Qed.

End MapFacts.

(** ** The cache as the program fills it *)

Lemma entry_point_keeps_NoDup
  (w : World) (modelType : str) (cache : ModelCache.store) :
  NoDup (ModelCache.keys cache) ->
  NoDup (ModelCache.keys (snd (Parser.parseModelProperties w modelType cache))).
Proof.
  intros Hnd; unfold Parser.parseModelProperties.
  destruct (isEmpty (trim modelType)); [auto|].
  cbv zeta.
  destruct (isEmpty (last (split "." modelType) [])); [auto|].
  destruct (Parser.findModelFiles _ _) as [[|file files]|]; auto.
  destruct (Parser.selectBestModelFile _) as [modelFile|]; auto.
  pose proof (@run_keeps_NoDup cache (ModelCache.CallGet w modelType modelFile) Hnd)
    as Hnd1.
  simpl in Hnd1.
  destruct (ModelCache.get w modelType modelFile cache) as [[cached|] cache1];
    simpl in *; auto.
  destruct (readFile _ _) as [content|]; auto.
  destruct (Parser.extractPropertiesFromContent _ _ _) as [properties|]; auto.
  exact (@run_keeps_NoDup cache1 (ModelCache.CallSet w modelType modelFile properties)
           Hnd1).
Qed.

(** Whatever the program did, no key of its cache is the empty string, the
    keys are pairwise different and the bound is kept: the one call of
    [set] comes after the guard on blank type names. *)
Lemma program_cache_invariant (events : list Program.Event) :
  ModelCache.named (Program.cacheAfter events)
  /\ NoDup (ModelCache.keys (Program.cacheAfter events))
  /\ ModelCache.size (Program.cacheAfter events) <= ModelCache.maxCacheSize.
Proof.
  unfold Program.cacheAfter.
  assert (H : forall m,
             ModelCache.named m -> NoDup (ModelCache.keys m) ->
             ModelCache.size m <= ModelCache.maxCacheSize ->
             ModelCache.named (fold_left Program.react events m)
             /\ NoDup (ModelCache.keys (fold_left Program.react events m))
             /\ ModelCache.size (fold_left Program.react events m)
                <= ModelCache.maxCacheSize).
  { induction events as [|e events IH]; intros m Hm Hnd Hle; simpl; auto.
    destruct e as [w modelType|w|]; simpl.
    - destruct (entry_point_keeps_bound w modelType Hm Hle) as [Hm' Hle'].
      apply IH; auto using entry_point_keeps_NoDup.
    - apply IH.
      + exact (run_keeps_named (ModelCache.CallCleanup w) I Hm).
      + exact (@run_keeps_NoDup m (ModelCache.CallCleanup w) Hnd).
      + exact (run_keeps_bound (ModelCache.CallCleanup w) Hm Hle).
    - apply IH; [constructor | constructor | unfold ModelCache.maxCacheSize; simpl; lia]. }
  apply H; [constructor | constructor | unfold ModelCache.maxCacheSize; simpl; lia].
Qed.

(** C9: the cache the program builds (any sequence of calls of the entry
    point, timer sweeps and deactivations, from the empty cache) never
    holds more than one hundred entries; each of [get], [set], [delete],
    [clear] and [cleanup], with any arguments, leaves it within the bound;
    and a [set] that finds it at the bound first removes the entry inserted
    first, then stores the new one in what is left. *)
Theorem C9_program_cache_stays_within_bound
  (events : list Program.Event) (w : World) (k f : str) (ps : list ModelProperty) :
  ModelCache.size (Program.cacheAfter events) <= ModelCache.maxCacheSize
  /\ ModelCache.size (snd (ModelCache.get w k f (Program.cacheAfter events)))
     <= ModelCache.maxCacheSize
  /\ ModelCache.size (ModelCache.set w k f ps (Program.cacheAfter events))
     <= ModelCache.maxCacheSize
  /\ ModelCache.size (snd (ModelCache.delete k (Program.cacheAfter events)))
     <= ModelCache.maxCacheSize
  /\ ModelCache.size (ModelCache.clear (Program.cacheAfter events))
     <= ModelCache.maxCacheSize
  /\ ModelCache.size (ModelCache.cleanup w (Program.cacheAfter events))
     <= ModelCache.maxCacheSize
  /\ (ModelCache.maxCacheSize <= ModelCache.size (Program.cacheAfter events) ->
      forall t : Z,
        statSync w f = Some t ->
        exists k0 e0 rest,
          Program.cacheAfter events = (k0, e0) :: rest
          /\ ModelCache.set w k f ps (Program.cacheAfter events)
             = ModelCache.mapSet k (mkEntry k ps t f) rest).
Proof.
  destruct (program_cache_invariant events) as (Hnamed & _ & Hle).
  repeat apply conj.
  - exact Hle.
  - pose proof (get_keeps_bound w k f (Program.cacheAfter events)); lia.
  - apply set_keeps_bound; auto using named_first.
  - pose proof (delete_keeps_bound k (Program.cacheAfter events)); lia.
  - unfold ModelCache.maxCacheSize; simpl; lia.
  - pose proof (cleanup_keeps_bound w (Program.cacheAfter events)); lia.
  - intros Hfull t Hstat.
    destruct (Program.cacheAfter events) as [|[k0 e0] rest].
    + unfold ModelCache.maxCacheSize in Hfull; simpl in Hfull; lia.
    + assert (Hk0 : k0 <> []) by (inversion Hnamed; auto).
      exists k0, e0, rest; split; [reflexivity|].
      unfold ModelCache.set; rewrite Hstat.
      now rewrite (evict_oldest Hfull Hk0).
Qed.

Lemma C9_full_program_cache_witness :
  ModelCache.size (Program.cacheAfter Program.hundredCalls) = 100
  /\ ModelCache.firstKey (Program.cacheAfter Program.hundredCalls)
     = Some (lit "a.Product")
  /\ exists k0 e0 rest,
       Program.cacheAfter Program.hundredCalls = (k0, e0) :: rest
       /\ ModelCache.set Samples.freshWorld (lit "Shop.Models.Product")
            Samples.productPath [Samples.nameOnly]
            (Program.cacheAfter Program.hundredCalls)
          = ModelCache.mapSet (lit "Shop.Models.Product")
              (mkEntry (lit "Shop.Models.Product") [Samples.nameOnly]
                 1700000000000 Samples.productPath)
              rest.
Proof.
  split; [vm_compute; reflexivity|].
  split; [vm_compute; reflexivity|].
  destruct (@C9_program_cache_stays_within_bound Program.hundredCalls
              Samples.freshWorld (lit "Shop.Models.Product") Samples.productPath
              [Samples.nameOnly]) as (_ & _ & _ & _ & _ & _ & Hset).
  apply Hset.
  - apply Nat.leb_le; vm_compute; reflexivity.
  - reflexivity.
Defined.

(** C10: on a cache the program built, a [set] that finds it at the bound
    and whose [statSync] fails has removed the entry inserted first and
    stored nothing: the cache is left one entry smaller, without the oldest
    type name, which need not be the one the call was for. *)
Theorem C10_failed_set_evicts_the_oldest
  (events : list Program.Event) (w : World) (k f : str) (ps : list ModelProperty) :
  ModelCache.maxCacheSize <= ModelCache.size (Program.cacheAfter events) ->
  statSync w f = None ->
  exists k0 e0 rest,
    Program.cacheAfter events = (k0, e0) :: rest
    /\ ModelCache.set w k f ps (Program.cacheAfter events) = rest
    /\ ModelCache.mapGet k0 (ModelCache.set w k f ps (Program.cacheAfter events)) = None
    /\ S (ModelCache.size (ModelCache.set w k f ps (Program.cacheAfter events)))
       = ModelCache.size (Program.cacheAfter events).
Proof.
  intros Hfull Hstat.
  destruct (program_cache_invariant events) as (Hnamed & Hnd & _).
  destruct (Program.cacheAfter events) as [|[k0 e0] rest].
  - unfold ModelCache.maxCacheSize in Hfull; simpl in Hfull; lia.
  - assert (Hk0 : k0 <> []) by (inversion Hnamed; auto).
    exists k0, e0, rest.
    rewrite (@failed_set_evicts_oldest w k f k0 e0 ps rest Hfull Hk0 Hstat).
    repeat apply conj; auto.
    apply mapGet_None_keys.
    now inversion Hnd.
Qed.

Lemma C10_failed_set_witness :
  ModelCache.mapGet (lit "a.Product") (Program.cacheAfter Program.hundredCalls)
  = Some (mkEntry (lit "a.Product") [Samples.nameOnly] 1700000000000
            Samples.productPath)
  /\ exists k0 e0 rest,
       Program.cacheAfter Program.hundredCalls = (k0, e0) :: rest
       /\ ModelCache.set Samples.brokenWorld (lit "Shop.Models.Product")
            Samples.productPath [] (Program.cacheAfter Program.hundredCalls)
          = rest
       /\ ModelCache.mapGet k0
            (ModelCache.set Samples.brokenWorld (lit "Shop.Models.Product")
               Samples.productPath [] (Program.cacheAfter Program.hundredCalls))
          = None
       /\ S (ModelCache.size
               (ModelCache.set Samples.brokenWorld (lit "Shop.Models.Product")
                  Samples.productPath [] (Program.cacheAfter Program.hundredCalls)))
          = ModelCache.size (Program.cacheAfter Program.hundredCalls).
Proof.
  split; [vm_compute; reflexivity|].
  apply (@C10_failed_set_evicts_the_oldest Program.hundredCalls Samples.brokenWorld
           (lit "Shop.Models.Product") Samples.productPath []).
  - apply Nat.leb_le; vm_compute; reflexivity.
  - reflexivity.
Defined.

(** X1: a [get] for one type name, hit or miss, never changes what is
    stored under another type name. *)
Theorem X1_get_leaves_other_types
  (w : World) (k k' f : str) (m : ModelCache.store) :
  k <> k' ->
  ModelCache.mapGet k' (snd (ModelCache.get w k f m)) = ModelCache.mapGet k' m.
Proof.
  intros Hne; unfold ModelCache.get.
  destruct (ModelCache.mapGet k m); simpl; auto.
  destruct (statSync w f); simpl; [|now apply mapGet_mapDelete_other].
  destruct (_ >? _)%Z; simpl; [now apply mapGet_mapDelete_other|].
  destruct (_ >? _)%Z; simpl; [now apply mapGet_mapDelete_other|auto].
Qed.

Lemma X1_witness :
  ModelCache.mapGet (lit "B")
    (snd (ModelCache.get Samples.brokenWorld (lit "A") (lit "/a.cs")
            [(lit "A", mkEntry (lit "A") [] 0 (lit "/a.cs"));
             (lit "B", mkEntry (lit "B") [] 0 (lit "/b.cs"))]))
  = ModelCache.mapGet (lit "B")
      [(lit "A", mkEntry (lit "A") [] 0 (lit "/a.cs"));
       (lit "B", mkEntry (lit "B") [] 0 (lit "/b.cs"))].
Proof.
  apply (@X1_get_leaves_other_types Samples.brokenWorld (lit "A") (lit "B")).
  vm_compute; discriminate.
Defined.

(** X2: a hit of [get] leaves the cache as it was; after a miss, whatever
    its cause (no entry, newer file, expired entry, file that cannot be
    stat-ed), no entry is left under the type name. *)
Theorem X2_get_hit_keeps_miss_removes
  (w : World) (k f : str) (m : ModelCache.store) :
  NoDup (ModelCache.keys m) ->
  match fst (ModelCache.get w k f m) with
  | Some _ => snd (ModelCache.get w k f m) = m
  | None => ModelCache.mapGet k (snd (ModelCache.get w k f m)) = None
  end.
Proof.
  intros Hnd; unfold ModelCache.get.
  destruct (ModelCache.mapGet k m) eqn:Hget; simpl; auto.
  destruct (statSync w f); simpl; [|now apply mapGet_mapDelete_same].
  destruct (_ >? _)%Z; simpl; [now apply mapGet_mapDelete_same|].
  destruct (_ >? _)%Z; simpl; [now apply mapGet_mapDelete_same|auto].
Qed.

Lemma X2_witness :
  ModelCache.mapGet (lit "A")
    (snd (ModelCache.get Samples.brokenWorld (lit "A") (lit "/a.cs")
            [(lit "A", mkEntry (lit "A") [] 0 (lit "/a.cs"))])) = None.
Proof.
  apply (@X2_get_hit_keeps_miss_removes Samples.brokenWorld (lit "A") (lit "/a.cs")
           [(lit "A", mkEntry (lit "A") [] 0 (lit "/a.cs"))]).
  repeat constructor; simpl; tauto.
Defined.

(** X3: after [cleanup] every entry left is within the expiration window,
    every entry within the window is still found under its type name, and a
    second [cleanup] at the same time changes nothing. *)
Theorem X3_cleanup_sweeps_exactly_the_expired (w : World) (m : ModelCache.store) :
  (forall k e, ModelCache.mapGet k (ModelCache.cleanup w m) = Some e ->
               (now w - lastModified e <= ModelCache.cacheExpirationMs)%Z)
  /\ (forall k e, ModelCache.mapGet k m = Some e ->
                  (now w - lastModified e <= ModelCache.cacheExpirationMs)%Z ->
                  ModelCache.mapGet k (ModelCache.cleanup w m) = Some e)
  /\ ModelCache.cleanup w (ModelCache.cleanup w m) = ModelCache.cleanup w m.
Proof.
  unfold ModelCache.cleanup, ModelCache.expired; repeat split.
  - intros k e; induction m as [|[k0 e0] m IH]; simpl; [discriminate|].
    destruct (now w - lastModified e0 >? ModelCache.cacheExpirationMs)%Z eqn:E;
      simpl; auto.
    destruct (streq k0 k); auto.
    intros H; injection H as <-.
    rewrite Z.gtb_ltb in E; apply Z.ltb_ge in E; exact E.
  - intros k e; induction m as [|[k0 e0] m IH]; simpl; [discriminate|].
    destruct (streq k0 k) eqn:Ek.
    + intros H Hle; injection H as <-.
      assert (E : (now w - lastModified e0 >? ModelCache.cacheExpirationMs)%Z = false)
        by (rewrite Z.gtb_ltb; apply Z.ltb_ge; lia).
      rewrite E; simpl; now rewrite Ek.
    + intros H Hle.
      destruct (now w - lastModified e0 >? ModelCache.cacheExpirationMs)%Z; simpl; auto.
      rewrite Ek; auto.
  - induction m as [|[k0 e0] m IH]; simpl; auto.
    destruct (now w - lastModified e0 >? ModelCache.cacheExpirationMs)%Z eqn:E;
      simpl; auto.
    rewrite E; simpl; now rewrite IH.
Qed.

(** X4: first in, first out.  On a full cache whose oldest type name is not
    the empty string, caching a type name that is not yet stored removes
    the oldest entry, keeps all the others in their order and puts the new
    entry last. *)
Theorem X4_set_on_full_cache_evicts_oldest
  (w : World) (k f k0 : str) (e0 : ModelCacheEntry) (ps : list ModelProperty)
  (m : ModelCache.store) (t : Z) :
  ModelCache.maxCacheSize <= ModelCache.size ((k0, e0) :: m) ->
  k0 <> [] ->
  ModelCache.mapGet k m = None ->
  statSync w f = Some t ->
  ModelCache.set w k f ps ((k0, e0) :: m) = m ++ [(k, mkEntry k ps t f)].
Proof.
  intros Hfull Hk0 Hnew Hstat; unfold ModelCache.set.
  rewrite Hstat, (evict_oldest Hfull Hk0).
  now apply mapSet_absent.
Qed.

Lemma X4_witness :
  ModelCache.set Samples.freshWorld (lit "Shop.Models.Product") Samples.productPath []
    (map (fun n => (repeat "a"%char (S n),
                    mkEntry (repeat "a"%char (S n)) [] 0 Samples.productPath))
       (seq 0 100))
  = map (fun n => (repeat "a"%char (S n),
                   mkEntry (repeat "a"%char (S n)) [] 0 Samples.productPath))
      (seq 1 99)
    ++ [(lit "Shop.Models.Product",
         mkEntry (lit "Shop.Models.Product") [] 1700000000000 Samples.productPath)].
Proof.
  apply (@X4_set_on_full_cache_evicts_oldest Samples.freshWorld
           (lit "Shop.Models.Product") Samples.productPath (lit "a")
           (mkEntry (lit "a") [] 0 Samples.productPath) []
           (map (fun n => (repeat "a"%char (S n),
                           mkEntry (repeat "a"%char (S n)) [] 0 Samples.productPath))
              (seq 1 99))
           1700000000000%Z).
  - apply Nat.leb_le; vm_compute; reflexivity.
  - discriminate.
  - vm_compute; reflexivity.
  - reflexivity.
Defined.

(** X5: caching again a type name that is already stored replaces its entry
    in place: below the bound the type names and their order are unchanged,
    so the entry does not become younger for eviction. *)
Theorem X5_set_again_keeps_place
  (w : World) (k f : str) (ps : list ModelProperty) (m : ModelCache.store)
  (e0 : ModelCacheEntry) (t : Z) :
  ModelCache.size m < ModelCache.maxCacheSize ->
  ModelCache.mapGet k m = Some e0 ->
  statSync w f = Some t ->
  ModelCache.keys (ModelCache.set w k f ps m) = ModelCache.keys m
  /\ ModelCache.mapGet k (ModelCache.set w k f ps m) = Some (mkEntry k ps t f).
Proof.
  intros Hlt Hget Hstat; unfold ModelCache.set.
  rewrite Hstat, (evict_below_bound m Hlt); split.
  - eapply keys_mapSet_present; eauto.
  - apply mapGet_mapSet_same.
Qed.

Lemma X5_witness :
  ModelCache.keys
    (ModelCache.set Samples.freshWorld (lit "A") Samples.productPath [Samples.nameOnly]
       [(lit "A", mkEntry (lit "A") [] 0 (lit "/a.cs"));
        (lit "B", mkEntry (lit "B") [] 0 (lit "/b.cs"))])
  = [lit "A"; lit "B"]
  /\ ModelCache.mapGet (lit "A")
       (ModelCache.set Samples.freshWorld (lit "A") Samples.productPath [Samples.nameOnly]
          [(lit "A", mkEntry (lit "A") [] 0 (lit "/a.cs"));
           (lit "B", mkEntry (lit "B") [] 0 (lit "/b.cs"))])
     = Some (mkEntry (lit "A") [Samples.nameOnly] 1700000000000 Samples.productPath).
Proof.
  apply (@X5_set_again_keeps_place Samples.freshWorld (lit "A") Samples.productPath
           [Samples.nameOnly]
           [(lit "A", mkEntry (lit "A") [] 0 (lit "/a.cs"));
            (lit "B", mkEntry (lit "B") [] 0 (lit "/b.cs"))]
           (mkEntry (lit "A") [] 0 (lit "/a.cs")) 1700000000000%Z).
  - apply Nat.ltb_lt; vm_compute; reflexivity.
  - vm_compute; reflexivity.
  - reflexivity.
Defined.

(** X6: a [set], successful or not, changes nothing under another type
    name, unless the cache is full and that type name is the oldest. *)
Theorem X6_set_leaves_other_types
  (w : World) (k k' f : str) (ps : list ModelProperty) (m : ModelCache.store) :
  k <> k' ->
  ModelCache.size m < ModelCache.maxCacheSize \/ ModelCache.firstKey m <> Some k' ->
  ModelCache.mapGet k' (ModelCache.set w k f ps m) = ModelCache.mapGet k' m.
Proof.
  intros Hne Hsafe; unfold ModelCache.set.
  assert (Hev : ModelCache.mapGet k' (ModelCache.evict m) = ModelCache.mapGet k' m).
  { unfold ModelCache.evict.
    destruct (ModelCache.maxCacheSize <=? ModelCache.size m) eqn:Hfull; auto.
    destruct (ModelCache.firstKey m) as [k0|] eqn:Hfirst; auto.
    destruct (isEmpty k0); auto.
    apply mapGet_mapDelete_other.
    destruct Hsafe as [Hlt|Hnot]; [apply Nat.leb_le in Hfull; lia|congruence]. }
  destruct (statSync w f); auto.
  rewrite mapGet_mapSet_other; auto.
Qed.

Lemma X6_witness :
  ModelCache.mapGet (lit "B")
    (ModelCache.set Samples.freshWorld (lit "A") Samples.productPath [Samples.nameOnly]
       [(lit "B", mkEntry (lit "B") [] 0 (lit "/b.cs"))])
  = ModelCache.mapGet (lit "B") [(lit "B", mkEntry (lit "B") [] 0 (lit "/b.cs"))].
Proof.
  apply (@X6_set_leaves_other_types Samples.freshWorld (lit "A") (lit "B")).
  - vm_compute; discriminate.
  - left; apply Nat.ltb_lt; vm_compute; reflexivity.
Defined.

(** X7: [delete] answers whether the type name was stored; afterwards it is
    not stored, the size has gone down by one exactly when the answer is
    [true], and a [false] answer leaves the cache as it was. *)
Theorem X7_delete_removes_and_reports (k : str) (m : ModelCache.store) :
  NoDup (ModelCache.keys m) ->
  ModelCache.mapGet k (snd (ModelCache.delete k m)) = None
  /\ (if fst (ModelCache.delete k m)
      then S (ModelCache.size (snd (ModelCache.delete k m))) = ModelCache.size m
      else snd (ModelCache.delete k m) = m).
Proof.
  intros Hnd; unfold ModelCache.delete; simpl; split.
  - now apply mapGet_mapDelete_same.
  - clear Hnd; unfold ModelCache.size.
    induction m as [|[k0 e0] m IH]; simpl; auto.
    destruct (streq k0 k); simpl; auto.
    destruct (ModelCache.mapGet k m); simpl in *; [now rewrite IH|now rewrite IH].
Qed.

Lemma X7_witness :
  ModelCache.mapGet (lit "A")
    (snd (ModelCache.delete (lit "A")
            [(lit "A", mkEntry (lit "A") [] 0 (lit "/a.cs"))])) = None
  /\ (if fst (ModelCache.delete (lit "A")
                [(lit "A", mkEntry (lit "A") [] 0 (lit "/a.cs"))])
      then S (ModelCache.size
                (snd (ModelCache.delete (lit "A")
                        [(lit "A", mkEntry (lit "A") [] 0 (lit "/a.cs"))])))
           = ModelCache.size [(lit "A", mkEntry (lit "A") [] 0 (lit "/a.cs"))]
      else snd (ModelCache.delete (lit "A")
                  [(lit "A", mkEntry (lit "A") [] 0 (lit "/a.cs"))])
           = [(lit "A", mkEntry (lit "A") [] 0 (lit "/a.cs"))]).
Proof.
  apply (@X7_delete_removes_and_reports (lit "A")
           [(lit "A", mkEntry (lit "A") [] 0 (lit "/a.cs"))]).
  repeat constructor; simpl; tauto.
Defined.

(** X8: driven as the extension drives it (calls of the entry point with
    any type name in any workspace, the periodic [cleanup], [clear] on
    deactivation), the cache never holds more than one hundred entries. *)
Theorem X8_program_keeps_the_bound (events : list Program.Event) :
  ModelCache.size (fold_left Program.react events []) <= ModelCache.maxCacheSize.
Proof.
  assert (H : forall m,
             ModelCache.named m -> ModelCache.size m <= ModelCache.maxCacheSize ->
             ModelCache.named (fold_left Program.react events m) /\
             ModelCache.size (fold_left Program.react events m)
             <= ModelCache.maxCacheSize).
  { induction events as [|e events IH]; intros m Hm Hle; simpl; auto.
    destruct e as [w modelType|w|]; simpl.
    - destruct (entry_point_keeps_bound w modelType Hm Hle); now apply IH.
    - apply IH.
      + exact (run_keeps_named (ModelCache.CallCleanup w) I Hm).
      + exact (run_keeps_bound (ModelCache.CallCleanup w) Hm Hle).
    - apply IH; [constructor | unfold ModelCache.maxCacheSize; simpl; lia]. }
  apply H; [constructor | unfold ModelCache.maxCacheSize; simpl; lia].
Qed.

(* ------------------------------------------------------------------ *)
(** * Further properties of the entry point *)

(** X9: the round trip through the entry point.  When a call had to read
    and parse the model file and could cache the result, a later call for
    the same type name, with the same search result and a file neither
    modified since nor older than the expiration window, returns the same
    properties from the cache: it needs neither [readFile] nor [RegExp]. *)
Theorem X9_second_call_is_served_from_cache
  (w w' : World) (modelType modelFile content : str) (files : list str)
  (ps : list ModelProperty) (cache : ModelCache.store) (t t' : Z) :
  isEmpty (trim modelType) = false ->
  isEmpty (last (split "." modelType) []) = false ->
  Parser.findModelFiles w (last (split "." modelType) []) = Some files ->
  Parser.selectBestModelFile files = Some modelFile ->
  fst (ModelCache.get w modelType modelFile cache) = None ->
  readFile w modelFile = Some content ->
  Parser.extractPropertiesFromContent w content (last (split "." modelType) []) = Some ps ->
  statSync w modelFile = Some t ->
  Parser.findModelFiles w' (last (split "." modelType) []) = Some files ->
  statSync w' modelFile = Some t' ->
  (t' <= t)%Z ->
  (now w' - t <= ModelCache.cacheExpirationMs)%Z ->
  fst (Parser.parseModelProperties w modelType cache) = Fulfilled ps
  /\ fst (Parser.parseModelProperties w' modelType
            (snd (Parser.parseModelProperties w modelType cache)))
     = Fulfilled ps.
Proof.
  intros Hblank Hclass Hfind Hsel Hmiss Hread Hextract Hstat Hfind' Hstat' Hold Hrecent.
  assert (Hfirst : Parser.parseModelProperties w modelType cache
                   = (Fulfilled ps,
                      ModelCache.set w modelType modelFile ps
                        (snd (ModelCache.get w modelType modelFile cache)))).
  { unfold Parser.parseModelProperties.
    rewrite Hblank; cbv zeta; rewrite Hclass, Hfind.
    destruct files as [|file files]; [discriminate Hsel|].
    rewrite Hsel.
    destruct (ModelCache.get w modelType modelFile cache) as [[cached|] cache1];
      [discriminate Hmiss|].
    now rewrite Hread, Hextract. }
  rewrite Hfirst; split; auto; simpl.
  unfold Parser.parseModelProperties.
  rewrite Hblank; cbv zeta; rewrite Hclass, Hfind'.
  destruct files as [|file files]; [discriminate Hsel|].
  rewrite Hsel.
  unfold ModelCache.get, ModelCache.set.
  rewrite Hstat, mapGet_mapSet_same, Hstat'; simpl.
  assert (E1 : (t' >? t)%Z = false) by (rewrite Z.gtb_ltb; apply Z.ltb_ge; lia).
  assert (E2 : (now w' - t >? ModelCache.cacheExpirationMs)%Z = false)
    by (rewrite Z.gtb_ltb; apply Z.ltb_ge; lia).
  now rewrite E1, E2.
Qed.

Lemma X9_witness :
  fst (Parser.parseModelProperties Samples.freshWorld (lit "Shop.Models.Product") [])
  = Fulfilled [Samples.nameOnly]
  /\ fst (Parser.parseModelProperties
            (mkWorld 1700000120000
               (statSync Samples.freshWorld) (fun _ => None)
               (findFiles Samples.freshWorld) (fun _ _ => None))
            (lit "Shop.Models.Product")
            (snd (Parser.parseModelProperties Samples.freshWorld
                    (lit "Shop.Models.Product") [])))
     = Fulfilled [Samples.nameOnly].
Proof.
  apply (@X9_second_call_is_served_from_cache Samples.freshWorld
           (mkWorld 1700000120000
              (statSync Samples.freshWorld) (fun _ => None)
              (findFiles Samples.freshWorld) (fun _ _ => None))
           (lit "Shop.Models.Product") Samples.productPath Samples.productSource
           [Samples.productPath] [Samples.nameOnly] []
           1700000000000%Z 1700000000000%Z);
    try (vm_compute; reflexivity).
  - vm_compute; discriminate.
  - vm_compute; discriminate.
Defined.

(** X10: when the workspace search finds no file for any pattern, the entry
    point returns the empty sequence and leaves the cache untouched, for
    every type name. *)
Theorem X10_no_model_file_gives_empty
  (w : World) (modelType : str) (cache : ModelCache.store) :
  (forall pattern, findFiles w pattern = Some []) ->
  Parser.parseModelProperties w modelType cache = (Fulfilled [], cache).
Proof.
  intros Hnone; unfold Parser.parseModelProperties.
  destruct (isEmpty (trim modelType)); auto.
  cbv zeta; destruct (isEmpty (last (split "." modelType) [])); auto.
  unfold Parser.findModelFiles, Parser.searchPatterns; simpl.
  now rewrite !Hnone.
Qed.

Lemma X10_witness :
  Parser.parseModelProperties Samples.brokenWorld (lit "Shop.Models.Product")
    Samples.fullCache
  = (Fulfilled [], Samples.fullCache).
Proof.
  apply (@X10_no_model_file_gives_empty Samples.brokenWorld
           (lit "Shop.Models.Product") Samples.fullCache).
  intros pattern; reflexivity.
Defined.

Lemma split_trailing_separator (sep : ascii) (s : str) :
  split sep (s ++ [sep]) = split sep s ++ [[]].
Proof.
  induction s as [|a s IH]; simpl.
  - now rewrite Ascii.eqb_refl.
  - destruct (Ascii.eqb a sep); [now rewrite IH|].
    rewrite IH.
    pose proof (split_not_nil sep s) as Hne.
    destruct (split sep s); [contradiction|reflexivity].
Qed.

(** X11: a type name that ends with a dot has an empty class name: the
    entry point returns the empty sequence without searching, and leaves
    the cache untouched. *)
Theorem X11_trailing_dot_gives_empty
  (w : World) (namespace : str) (cache : ModelCache.store) :
  Parser.parseModelProperties w (namespace ++ lit ".") cache = (Fulfilled [], cache).
Proof.
  unfold Parser.parseModelProperties.
  destruct (isEmpty (trim (namespace ++ lit "."))); auto.
  cbv zeta.
  change (lit ".") with ["."%char].
  now rewrite split_trailing_separator, last_last.
Qed.

Lemma find_none_existsb {A : Type} (f : A -> bool) (l : list A) :
  find f l = None -> existsb f l = false.
Proof.
  induction l as [|x l IH]; simpl; auto.
  destruct (f x); [discriminate|auto].
Qed.

(** X12: from a non-empty list of candidates [selectBestModelFile] never
    throws and picks one of the candidates; when there are several and one
    of them has [Models] in its path, the pick has [Models] in its path. *)
Theorem X12_best_model_file_is_a_candidate (files : list str) :
  files <> [] ->
  exists file,
    Parser.selectBestModelFile files = Some file
    /\ In file files
    /\ (length files <> 1 ->
        existsb (fun f => includes f (lit "Models")) files = true ->
        includes file (lit "Models") = true).
Proof.
  intros Hne.
  destruct files as [|f1 [|f2 rest]]; [contradiction| |].
  - exists f1; simpl; intuition.
  - unfold Parser.selectBestModelFile, Parser.preferredFolders, Parser.firstPreferred.
    destruct (find (fun file => includes file (lit "Models")) (f1 :: f2 :: rest))
      as [file|] eqn:Hmodels.
    + apply find_some in Hmodels as [Hin Hhit]; exists file; auto.
    + apply find_none_existsb in Hmodels.
      destruct (find (fun file => includes file (lit "Entities")) (f1 :: f2 :: rest))
        as [file|] eqn:Hentities.
      * apply find_some in Hentities as [Hin _]; exists file.
        repeat split; auto; intros _ H; rewrite Hmodels in H; discriminate.
      * destruct (find (fun file => includes file (lit "Domain")) (f1 :: f2 :: rest))
          as [file|] eqn:Hdomain.
        -- apply find_some in Hdomain as [Hin _]; exists file.
           repeat split; auto; intros _ H; rewrite Hmodels in H; discriminate.
        -- exists f1; repeat split; simpl; auto.
           intros _ H; simpl in Hmodels; rewrite Hmodels in H; discriminate.
Qed.

Lemma X12_witness :
  exists file,
    Parser.selectBestModelFile [lit "/app/Dto/Product.cs"; lit "/app/Models/Product.cs"]
    = Some file
    /\ In file [lit "/app/Dto/Product.cs"; lit "/app/Models/Product.cs"]
    /\ (length [lit "/app/Dto/Product.cs"; lit "/app/Models/Product.cs"] <> 1 ->
        existsb (fun f => includes f (lit "Models"))
          [lit "/app/Dto/Product.cs"; lit "/app/Models/Product.cs"] = true ->
        includes file (lit "Models") = true).
Proof.
  apply (@X12_best_model_file_is_a_candidate
           [lit "/app/Dto/Product.cs"; lit "/app/Models/Product.cs"]).
  discriminate.
Defined.

(* ------------------------------------------------------------------ *)
(** * What the patterns capture *)

Section MatcherSoundness.

Import RegexSpec.

Variable total : nat.

Lemma starLoop_sound (r : regex) (step : str -> caps -> cont -> option mres)
  (g : bool) (k : cont) :
  sound total r step ->
  forall (fuel : nat) (s : str) (c : caps) (res : mres),
    starLoop step g k fuel s c = Some res ->
    exists m rest c',
      s = m ++ rest /\ matches total (Star g r) m rest c c' /\ k rest c' = Some res.
Proof.
  intros Hstep; induction fuel as [|fuel IHf]; intros s c res H; simpl in H.
  - exists [], s, c; repeat split; auto; constructor.
  - assert (Hiter : forall x,
               step s c (fun s1 c1 =>
                           if length s1 <? length s then starLoop step g k fuel s1 c1
                           else None) = Some x ->
               exists m rest c',
                 s = m ++ rest /\ matches total (Star g r) m rest c c'
                 /\ k rest c' = Some x).
    { intros x E.
      apply Hstep in E as (m1 & s1 & c1 & Hs & Hm1 & E).
      destruct (length s1 <? length s) eqn:Hlt; [|discriminate].
      apply Nat.ltb_lt in Hlt.
      apply IHf in E as (m2 & rest & c2 & Hs1 & Hm2 & E).
      exists (m1 ++ m2), rest, c2; subst s s1; repeat split; auto.
      - now rewrite app_assoc.
      - econstructor; eauto.
        intros ->; simpl in Hlt; lia. }
    destruct g.
    + match type of H with orElse ?a _ = _ => destruct a eqn:E end; simpl in H.
      * inversion H; subst; now apply Hiter.
      * exists [], s, c; repeat split; auto; constructor.
    + destruct (k s c) eqn:E; simpl in H.
      * inversion H; subst; exists [], s, c; repeat split; auto; constructor.
      * now apply Hiter.
Qed.

Lemma rmatch_sound (r : regex) : sound total r (rmatch total r).
Proof.
  unfold sound.
  induction r as [|p|r1 IH1 r2 IH2|r1 IH1 r2 IH2|g r1 IH1|i r1 IH1| |m];
    intros s c k res H; simpl in H.
  - exists [], s, c; repeat split; auto; constructor.
  - destruct s as [|a s]; [discriminate|].
    destruct (p a) eqn:Hp; [|discriminate].
    exists [a], s, c; repeat split; auto; now constructor.
  - apply IH1 in H as (m1 & s1 & c1 & -> & Hm1 & H).
    apply IH2 in H as (m2 & rest & c2 & -> & Hm2 & H).
    exists (m1 ++ m2), rest, c2; repeat split; auto.
    + now rewrite app_assoc.
    + econstructor; eauto.
  - destruct (rmatch total r1 s c k) eqn:E; simpl in H.
    + inversion H; subst.
      apply IH1 in E as (m1 & rest & c1 & -> & Hm1 & E).
      exists m1, rest, c1; repeat split; auto; now apply MAltL.
    + apply IH2 in H as (m1 & rest & c1 & -> & Hm1 & E').
      exists m1, rest, c1; repeat split; auto; now apply MAltR.
  - eapply starLoop_sound; eauto.
  - apply IH1 in H as (m1 & rest & c1 & -> & Hm1 & H).
    rewrite firstn_prefix in H.
    exists m1, rest, ((i, m1) :: c1); repeat split; auto; now constructor.
  - destruct (length s =? total) eqn:E; [|discriminate].
    apply Nat.eqb_eq in E.
    exists [], s, c; repeat split; auto; now constructor.
  - destruct s as [|a s].
    + exists [], [], c; repeat split; auto; constructor; auto.
    + destruct (m && isLineTerminator a) eqn:E; [|discriminate].
      apply andb_true_iff in E as [-> Ha].
      exists [], (a :: s), c; repeat split; auto.
      constructor; right; split; auto; eauto.
Qed.

Lemma mkFound_matches (r : regex) (skipped s m rest : str) (c : caps) :
  s = m ++ rest ->
  matches total r m rest [] c ->
  matches total r
    (matched (mkFound skipped (firstn (length s - length rest) s) rest c))
    (after (mkFound skipped (firstn (length s - length rest) s) rest c))
    []
    (groups (mkFound skipped (firstn (length s - length rest) s) rest c)).
Proof. intros -> H; simpl; now rewrite firstn_prefix. Qed.

Lemma search_matches (r : regex) :
  forall (s skipped : str) (f : found),
    search total r skipped s = Some f ->
    matches total r (matched f) (after f) [] (groups f).
Proof.
  induction s as [|a s IH]; intros skipped f H; rewrite search_unfold in H;
    destruct (rmatch total r _ [] (fun s1 c1 => Some (s1, c1))) as [[rest c]|] eqn:E;
    try discriminate.
  - apply rmatch_sound in E as (m & rest' & c' & Hs & Hm & E).
    injection E as <- <-; injection H as <-.
    exact (@mkFound_matches r (rev skipped) [] m rest' c' Hs Hm).
  - apply rmatch_sound in E as (m & rest' & c' & Hs & Hm & E).
    injection E as <- <-; injection H as <-.
    exact (@mkFound_matches r (rev skipped) (a :: s) m rest' c' Hs Hm).
  - eapply IH; eauto.
Qed.

Lemma matches_seq_inv (r1 r2 : regex) (m rest : str) (c c' : caps) :
  matches total (Seq r1 r2) m rest c c' ->
  exists m1 m2 c1,
    m = m1 ++ m2 /\ matches total r1 m1 (m2 ++ rest) c c1
    /\ matches total r2 m2 rest c1 c'.
Proof. intros H; inversion H; subst; eauto 7. Qed.

Lemma matches_group_inv (i : nat) (r : regex) (m rest : str) (c c' : caps) :
  matches total (Group i r) m rest c c' ->
  exists c1, c' = (i, m) :: c1 /\ matches total r m rest c c1.
Proof. intros H; inversion H; subst; eauto. Qed.

Lemma matches_chr_inv (p : ascii -> bool) (m rest : str) (c c' : caps) :
  matches total (Chr p) m rest c c' ->
  exists a, m = [a] /\ p a = true /\ c' = c.
Proof. intros H; inversion H; subst; eauto. Qed.

(** A pattern without a capture group leaves the captures as they are. *)
Lemma matches_no_group (r : regex) (m rest : str) (c c' : caps) :
  matches total r m rest c c' -> hasGroup r = false -> c' = c.
Proof.
  induction 1; simpl; intros Hg; auto; try discriminate.
  - apply orb_false_iff in Hg as [Hg1 Hg2].
    rewrite IHmatches2, IHmatches1; auto.
  - apply orb_false_iff in Hg as [Hg1 Hg2]; auto.
  - apply orb_false_iff in Hg as [Hg1 Hg2]; auto.
  - rewrite IHmatches2, IHmatches1; auto.
Qed.

(** A star over a character class consumes characters of the class. *)
Lemma matches_star_chr (g : bool) (p : ascii -> bool) (m rest : str) (c c' : caps) :
  matches total (Star g (Chr p)) m rest c c' -> forallb p m = true.
Proof.
  intros H; remember (Star g (Chr p)) as r eqn:Hr.
  induction H; try discriminate; auto.
  injection Hr as -> ->.
  apply matches_chr_inv in H as (a & -> & Ha & _).
  simpl; rewrite Ha; auto.
Qed.

Lemma matches_identifier (m rest : str) (c c' : caps) :
  matches total (seqs [Chr Parser.idStart; many (Chr Parser.idChar)]) m rest c c' ->
  isIdentifier m = true.
Proof.
  cbn [seqs]; intros H.
  apply matches_seq_inv in H as (m1 & m2 & c1 & -> & H1 & H2).
  apply matches_chr_inv in H1 as (a & -> & Ha & _).
  apply matches_star_chr in H2.
  simpl; now rewrite Ha, H2.
Qed.

End MatcherSoundness.

Lemma exec_matches (r : regex) (s : str) (f : found) :
  exec r s = Some f ->
  RegexSpec.matches (length s) r (matched f) (after f) [] (groups f).
Proof. apply search_matches. Qed.

(** What a match of the property pattern captures: group 1 and group 2, the
    second an identifier. *)
Lemma propertyPattern_groups (line : str) (f : found) :
  exec Parser.propertyPattern line = Some f ->
  exists t n,
    groups f = [(2, n); (1, t)] /\ RegexSpec.isIdentifier n = true.
Proof.
  intros H; apply exec_matches in H.
  unfold Parser.propertyPattern in H; cbn [seqs] in H.
  apply matches_seq_inv in H as (? & ? & c1 & _ & H1 & H).
  apply matches_no_group in H1; [subst c1|reflexivity].
  apply matches_seq_inv in H as (? & ? & c2 & _ & H2 & H).
  apply matches_no_group in H2; [subst c2|reflexivity].
  apply matches_seq_inv in H as (? & ? & c3 & _ & H3 & H).
  apply matches_no_group in H3; [subst c3|reflexivity].
  apply matches_seq_inv in H as (? & ? & c4 & _ & H4 & H).
  apply matches_no_group in H4; [subst c4|reflexivity].
  apply matches_seq_inv in H as (t & ? & c5 & _ & H5 & H).
  apply matches_group_inv in H5 as (c5' & -> & H5).
  apply matches_no_group in H5; [subst c5'|reflexivity].
  apply matches_seq_inv in H as (? & ? & c6 & _ & H6 & H).
  apply matches_no_group in H6; [subst c6|reflexivity].
  apply matches_seq_inv in H as (n & ? & c7 & _ & H7 & H).
  apply matches_group_inv in H7 as (c7' & -> & H7).
  pose proof (matches_identifier H7) as Hid.
  apply matches_no_group in H7; [subst c7'|reflexivity].
  apply matches_no_group in H; [|reflexivity].
  exists t, n; split; auto.
Qed.

Lemma idChar_not_space (a : ascii) : Parser.idChar a = true -> isWhiteSpace a = false.
Proof.
  destruct a as [b0 b1 b2 b3 b4 b5 b6 b7].
  destruct b0, b1, b2, b3, b4, b5, b6, b7; vm_compute; intros H;
    first [reflexivity | discriminate H].
Qed.

Lemma idStart_idChar (a : ascii) : Parser.idStart a = true -> Parser.idChar a = true.
Proof.
  unfold Parser.idStart, Parser.idChar.
  destruct (isAlpha a), (isUnderscore a), (Regex.isDigit a); simpl; auto.
Qed.

Lemma dropWhile_head (p : ascii -> bool) (s : str) :
  match s with [] => True | a :: _ => p a = false end -> dropWhile p s = s.
Proof. destruct s as [|a s]; simpl; auto; now intros ->. Qed.

Lemma trim_without_space (s : str) :
  forallb (fun a => negb (isWhiteSpace a)) s = true -> trim s = s.
Proof.
  intros H; unfold trim, trimStart, trimEnd.
  rewrite forallb_forall in H.
  rewrite (dropWhile_head isWhiteSpace s).
  - rewrite (dropWhile_head isWhiteSpace (rev s)); [apply rev_involutive|].
    destruct (rev s) as [|a r] eqn:E; auto.
    apply negb_true_iff, H, in_rev; rewrite E; now left.
  - destruct s as [|a s]; auto.
    apply negb_true_iff, H; now left.
Qed.

Lemma trim_identifier (n : str) : RegexSpec.isIdentifier n = true -> trim n = n.
Proof.
  intros H; apply trim_without_space.
  destruct n as [|a n]; [discriminate|]; simpl in *.
  apply andb_true_iff in H as [Ha Hn].
  rewrite (idChar_not_space a (idStart_idChar a Ha)); simpl.
  rewrite forallb_forall in *; intros x Hx.
  now rewrite (idChar_not_space x (Hn x Hx)).
Qed.

(* ------------------------------------------------------------------ *)
(** * Further properties of the parsers *)

Section NamedScanFacts.

Import Parser.

Lemma scanLine_props_named (st : ScanState) (raw : str) :
  props (scanLine st raw) = props st \/
  exists n t,
    RegexSpec.isIdentifier n = true /\
    shouldSkipProperty n (currentAttributes st) = false /\
    props (scanLine st raw)
    = props st ++ [createModelProperty n t (currentAttributes st)].
Proof.
  unfold scanLine.
  destruct (isEmpty _ || _ || _); [now left|].
  destruct (negb (isInClass st) && _); [now left|].
  destruct (isInClass st && _); [now left|].
  destruct (negb (isInClass st)); [now left|].
  destruct (group1 _ _); [now left|].
  destruct (exec propertyPattern (trim raw)) as [[b mt af g]|] eqn:E.
  - apply propertyPattern_groups in E as (t & n & Hg & Hid).
    cbn [groups] in Hg; subst g.
    change (capture 1 [(2, n); (1, t)]) with (Some t).
    change (capture 2 [(2, n); (1, t)]) with (Some n).
    destruct t as [|t0 t]; destruct n as [|n0 n]; try discriminate Hid;
      try (destruct (negb _ && _ && _); now left).
    rewrite (trim_identifier (n0 :: n) Hid).
    destruct (shouldSkipProperty _ _) eqn:Hskip; [now left|].
    right; eexists _, _; split; [exact Hid|split; [exact Hskip|reflexivity]].
  - destruct (negb _ && _ && _); now left.
Qed.

Lemma scanLines_length (lines : list str) :
  forall st : ScanState,
    length (props (scanLines st lines)) <= length (props st) + length lines.
Proof.
  unfold scanLines; induction lines as [|l lines IH]; intros st; simpl; [lia|].
  specialize (IH (scanLine st l)).
  destruct (scanLine_props st l) as [E | (n & t & _ & E)]; rewrite E in IH.
  - lia.
  - rewrite length_app in IH; simpl in IH; lia.
Qed.

Lemma scanLines_named (lines : list str) :
  forall st : ScanState,
    Forall (fun p => RegexSpec.isIdentifier (name p) = true) (props st) ->
    Forall (fun p => RegexSpec.isIdentifier (name p) = true)
      (props (scanLines st lines)).
Proof.
  unfold scanLines; induction lines as [|l lines IH]; intros st Hst; simpl; auto.
  apply IH.
  destruct (scanLine_props_named st l) as [-> | (n & t & Hid & _ & ->)]; auto.
  apply Forall_app; split; auto.
Qed.

End NamedScanFacts.

Section LegacyNamedScanFacts.

Import Legacy.

Lemma legacy_scanLine_named (st : ScanState) (raw : str) :
  props (scanLine st raw) = props st \/
  exists p,
    RegexSpec.isIdentifier (Legacy.name p) = true /\
    props (scanLine st raw) = props st ++ [p].
Proof.
  unfold scanLine.
  destruct (isEmpty _ || _ || _); [now left|].
  destruct (exec Parser.attributePattern _); [now left|].
  destruct (exec Parser.propertyPattern (trim raw)) as [f|] eqn:E.
  - apply propertyPattern_groups in E as (t & n & Hg & Hid).
    rewrite Hg.
    change (capture 1 [(2, n); (1, t)]) with (Some t).
    change (capture 2 [(2, n); (1, t)]) with (Some n).
    right; eexists; split; [|reflexivity].
    cbn [Legacy.name]; now rewrite (trim_identifier n Hid).
  - destruct (negb _ && _); now left.
Qed.

Lemma legacy_scan_length (lines : list str) :
  forall st : ScanState,
    length (props (fold_left scanLine lines st)) <= length (props st) + length lines.
Proof.
  induction lines as [|l lines IH]; intros st; simpl; [lia|].
  specialize (IH (scanLine st l)).
  destruct (legacy_scanLine_props st l) as [E | (p & _ & E)]; rewrite E in IH.
  - lia.
  - rewrite length_app in IH; simpl in IH; lia.
Qed.

Lemma legacy_scan_named (lines : list str) :
  forall st : ScanState,
    Forall (fun p => RegexSpec.isIdentifier (Legacy.name p) = true) (props st) ->
    Forall (fun p => RegexSpec.isIdentifier (Legacy.name p) = true)
      (props (fold_left scanLine lines st)).
Proof.
  induction lines as [|l lines IH]; intros st Hst; simpl; auto.
  apply IH.
  destruct (legacy_scanLine_named st l) as [-> | (p & Hid & ->)]; auto.
  apply Forall_app; split; auto.
Qed.

End LegacyNamedScanFacts.

Lemma cleanSourceCode_lineCount (content : str) :
  lineCount (Parser.cleanSourceCode content) <= lineCount content.
Proof.
  unfold Parser.cleanSourceCode.
  repeat (etransitivity; [apply replaceAll_lineCount; reflexivity|]).
  reflexivity.
Qed.

Lemma cleanContent_lineCount (content : str) :
  lineCount (Legacy.cleanContent content) <= lineCount content.
Proof.
  unfold Legacy.cleanContent.
  repeat (etransitivity; [apply replaceAll_lineCount; reflexivity|]).
  reflexivity.
Qed.

(** X13: extraction returns at most one property per line of the source
    text: the number of properties is at most the number of lines, in the
    current parser (normalization, then scan) and in the older one. *)
Theorem X13_at_most_one_property_per_line (content : str) :
  length (Parser.parsePropertiesFromContent (Parser.cleanSourceCode content))
  <= lineCount content
  /\ length (Legacy.parsePropertiesFromFullContent content) <= lineCount content.
Proof.
  split.
  - unfold Parser.parsePropertiesFromContent.
    pose proof (scanLines_length (split nl (Parser.cleanSourceCode content))
                  Parser.initialScan) as H.
    pose proof (cleanSourceCode_lineCount content) as Hc.
    unfold lineCount in *; simpl in H; lia.
  - unfold Legacy.parsePropertiesFromFullContent.
    pose proof (legacy_scan_length (split nl (Legacy.cleanContent content))
                  Legacy.initialScan) as H.
    pose proof (cleanContent_lineCount content) as Hc.
    unfold lineCount in *; simpl in H; lia.
Qed.

(** X14: the name of every property returned, by either parser, is an
    identifier: it is not empty, starts with a letter or an underscore and
    holds only letters, digits and underscores. *)
Theorem X14_names_are_identifiers (content : str) :
  Forall (fun p => RegexSpec.isIdentifier (name p) = true)
    (Parser.parsePropertiesFromContent content)
  /\ Forall (fun p => RegexSpec.isIdentifier (Legacy.name p) = true)
       (Legacy.parsePropertiesFromFullContent content).
Proof.
  split.
  - unfold Parser.parsePropertiesFromContent; apply scanLines_named; constructor.
  - unfold Legacy.parsePropertiesFromFullContent; apply legacy_scan_named; constructor.
Qed.

Lemma streq_endsWith (a b : str) : streq a b = true -> endsWith a b = true.
Proof.
  intros H; apply streq_true_iff in H; subst.
  unfold endsWith; apply startsWith_refl.
Qed.

(** X15: for every property the current parser returns, [isPrimaryKey] is
    true exactly when the name ends with [id], whatever the letter case, or
    some annotation contains [key], whatever the letter case. *)
Theorem X15_primary_key_rule (content : str) :
  Forall (fun p =>
            isPrimaryKey p
            = endsWith (toLowerCase (name p)) (lit "id")
              || Parser.hasKeyword "key" (attributes p))
    (Parser.parsePropertiesFromContent content).
Proof.
  eapply Forall_impl; [|apply parse_emitted].
  intros p (n & t & a & _ & ->).
  unfold Parser.createModelProperty; cbn [isPrimaryKey name attributes].
  destruct (streq (toLowerCase n) (lit "id")) eqn:E; auto.
  now rewrite (streq_endsWith _ _ E).
Qed.

Lemma withInputType_emitted (p : ModelProperty) :
  Parser.emitted p -> TemplateGenerator.withInputType p = p.
Proof.
  intros (n & t & a & _ & ->).
  unfold TemplateGenerator.withInputType, Parser.createModelProperty.
  cbn [name type isPrimaryKey isRequired isNullable attributes displayName
       description maxLength minLength].
  reflexivity.
Qed.

(** X16: the input kinds that [generateViewFile] computes again for its
    template data are the ones the parser stored: on the parser's output the
    mapping changes nothing. *)
Theorem X16_template_properties_are_the_parsed_ones (content : str) :
  TemplateGenerator.templateProperties (Parser.parsePropertiesFromContent content)
  = Parser.parsePropertiesFromContent content.
Proof.
  unfold TemplateGenerator.templateProperties.
  pose proof (parse_emitted content) as H.
  induction H as [|p ps Hp _ IH]; simpl; auto.
  now rewrite IH, withInputType_emitted.
Qed.

Lemma toLower_i (a : ascii) : toLower a = "i"%char -> a = "i"%char \/ a = "I"%char.
Proof.
  destruct a as [b0 b1 b2 b3 b4 b5 b6 b7].
  destruct b0, b1, b2, b3, b4, b5, b6, b7; vm_compute; intros H;
    first [left; reflexivity | right; reflexivity | discriminate H].
Qed.

Lemma toLower_d (a : ascii) : toLower a = "d"%char -> a = "d"%char \/ a = "D"%char.
Proof.
  destruct a as [b0 b1 b2 b3 b4 b5 b6 b7].
  destruct b0, b1, b2, b3, b4, b5, b6, b7; vm_compute; intros H;
    first [left; reflexivity | right; reflexivity | discriminate H].
Qed.

(** A property named [Id], in any letter case, is skipped. *)
Lemma skip_Id (n : str) (a : list str) :
  streq (toLowerCase n) (lit "id") = true -> Parser.shouldSkipProperty n a = true.
Proof.
  intros H; apply streq_true_iff in H.
  destruct n as [|x [|y [|z n]]]; try discriminate H.
  injection H as Hx Hy.
  apply skip_by_name.
  destruct (toLower_i x Hx) as [-> | ->], (toLower_d y Hy) as [-> | ->];
    vm_compute; reflexivity.
Qed.

Lemma find_split {A : Type} (f : A -> bool) (l : list A) (x : A) :
  find f l = Some x ->
  exists before after,
    l = before ++ x :: after /\ f x = true /\ forallb (fun y => negb (f y)) before = true.
Proof.
  induction l as [|y l IH]; simpl; [discriminate|].
  destruct (f y) eqn:E.
  - intros H; injection H as <-; exists [], l; auto.
  - intros H; apply IH in H as (before & after & -> & Hx & Hb).
    exists (y :: before), after; simpl; rewrite E; auto.
Qed.

(** X17: when [generateViewFile] finds a primary-key property in what the
    current parser returned, it is the first returned property marked as
    primary key, and its name is never [Id] in any letter case, because
    such a property is skipped. *)
Theorem X17_primary_key_property_is_never_Id (content n : str) :
  TemplateGenerator.primaryKeyProperty (Parser.parsePropertiesFromContent content)
  = Some n ->
  streq (toLowerCase n) (lit "id") = false
  /\ exists before p after,
       Parser.parsePropertiesFromContent content = before ++ p :: after
       /\ name p = n /\ isPrimaryKey p = true
       /\ forallb (fun q => negb (isPrimaryKey q)) before = true.
Proof.
  unfold TemplateGenerator.primaryKeyProperty.
  destruct (find isPrimaryKey (Parser.parsePropertiesFromContent content))
    as [p|] eqn:E; [|discriminate].
  intros H; injection H as <-.
  pose proof (find_some _ _ E) as [Hin _].
  apply find_split in E as (before & after & Hsplit & Hpk & Hbefore).
  split; [|exists before, p, after; auto].
  pose proof (parse_emitted content) as Hall.
  rewrite Forall_forall in Hall.
  destruct (Hall p Hin) as (n & t & a & Hskip & ->); simpl.
  destruct (streq (toLowerCase n) (lit "id")) eqn:Hid; auto.
  rewrite (skip_Id n a Hid) in Hskip; discriminate.
Qed.

Lemma X17_witness :
  streq (toLowerCase (lit "OrderId")) (lit "id") = false
  /\ exists before p after,
       Parser.parsePropertiesFromContent
         (Samples.text [ "class Line {";
                         "public int Id { get; set; }";
                         "public int OrderId { get; set; }";
                         "}" ]%string)
       = before ++ p :: after
       /\ name p = lit "OrderId" /\ isPrimaryKey p = true
       /\ forallb (fun q => negb (isPrimaryKey q)) before = true.
Proof.
  apply (@X17_primary_key_property_is_never_Id
           (Samples.text [ "class Line {";
                           "public int Id { get; set; }";
                           "public int OrderId { get; set; }";
                           "}" ]%string)
           (lit "OrderId")).
  vm_compute; reflexivity.
Defined.

Lemma firstHit_in (hit : str -> bool) (table : list (str * str)) (v : str) :
  Parser.firstHit hit table = Some v -> In v (map snd table).
Proof.
  induction table as [|[key value] table IH]; simpl; [discriminate|].
  destruct (hit key); auto.
  intros H; injection H as <-; now left.
Qed.

(** X18: [getInputTypeForProperty], current or older, never returns anything
    but one of fourteen input kinds; a type and annotations it does not
    know give [text]. *)
Theorem X18_input_kinds_are_known (p : ModelProperty) (q : Legacy.ModelProperty) :
  In (Parser.getInputTypeForProperty p) RegexSpec.knownInputTypes
  /\ In (Legacy.getInputTypeForProperty q) RegexSpec.knownInputTypes.
Proof.
  split.
  - unfold Parser.getInputTypeForProperty.
    destruct (Parser.firstHit _ Parser.ATTRIBUTE_MAPPINGS) as [v|] eqn:Ea.
    + apply firstHit_in in Ea; simpl in Ea.
      repeat (destruct Ea as [<-|Ea]; [vm_compute; tauto|]); contradiction.
    + destruct (Parser.firstHit _ Parser.TYPE_MAPPINGS) as [v|] eqn:Et.
      * apply firstHit_in in Et; simpl in Et.
        repeat (destruct Et as [<-|Et]; [vm_compute; tauto|]); contradiction.
      * vm_compute; tauto.
  - unfold Legacy.getInputTypeForProperty.
    repeat match goal with
           | |- context [if ?b then _ else _] => destruct b
           end; vm_compute; tauto.
Qed.

Section LegacyBufferFacts.

Import Legacy.

(** While nothing is being collected, nothing is pending. *)
Lemma legacy_pending_invariant (lines : list str) :
  forall st : ScanState,
    (collectingAttributes st = false -> currentAttributes st = []) ->
    collectingAttributes (fold_left scanLine lines st) = false ->
    currentAttributes (fold_left scanLine lines st) = [].
Proof.
  induction lines as [|l lines IH]; intros st Hst; simpl; auto.
  apply IH; unfold scanLine.
  destruct (isEmpty _ || _ || _); auto.
  destruct (exec Parser.attributePattern _); simpl; [discriminate|].
  destruct (exec Parser.propertyPattern _); simpl; auto.
  destruct (negb _ && _); simpl; auto.
Qed.

End LegacyBufferFacts.

(** X19: in the older parser a line that is not a property declaration
    never removes a pending annotation: at any point of a scan the buffer
    after such a line is the buffer before it, possibly with one more
    annotation.  Pending annotations therefore always reach the next
    property. *)
Theorem X19_legacy_annotations_stay_pending (lines : list str) (raw : str) :
  exec Parser.propertyPattern (trim raw) = None ->
  exists more,
    Legacy.currentAttributes
      (Legacy.scanLine (fold_left Legacy.scanLine lines Legacy.initialScan) raw)
    = Legacy.currentAttributes (fold_left Legacy.scanLine lines Legacy.initialScan)
      ++ more.
Proof.
  intros Hprop.
  pose proof (legacy_pending_invariant lines Legacy.initialScan (fun _ => eq_refl))
    as Hinv.
  destruct (fold_left Legacy.scanLine lines Legacy.initialScan) as [ps attrs coll].
  simpl in Hinv; unfold Legacy.scanLine; rewrite Hprop.
  destruct (isEmpty _ || _ || _); [exists []; simpl; now rewrite app_nil_r|].
  destruct (exec Parser.attributePattern _); simpl; [eauto|].
  destruct coll; simpl.
  - exists []; now rewrite app_nil_r.
  - rewrite (Hinv eq_refl).
    destruct (includes _ _ || _ || _); exists []; reflexivity.
Qed.

Lemma X19_witness :
  exists more,
    Legacy.currentAttributes
      (Legacy.scanLine
         (fold_left Legacy.scanLine [lit "class A {"; lit "[Required]"] Legacy.initialScan)
         (lit "public void M() {"))
    = Legacy.currentAttributes
        (fold_left Legacy.scanLine [lit "class A {"; lit "[Required]"] Legacy.initialScan)
      ++ more.
Proof.
  apply (@X19_legacy_annotations_stay_pending
           [lit "class A {"; lit "[Required]"] (lit "public void M() {")).
  vm_compute; reflexivity.
Defined.

Lemma removelast_shorter (s : str) : s <> [] -> S (length (removelast s)) = length s.
Proof.
  induction s as [|a s IH]; [congruence|]; intros _.
  destruct s as [|b s]; auto.
  change (removelast (a :: b :: s)) with (a :: removelast (b :: s)).
  cbn [length]; f_equal.
  assert (Hb : b :: s <> []) by discriminate.
  exact (IH Hb).
Qed.

Lemma endsWith_app_s (x : str) (tail : str) :
  endsWith (x ++ tail ++ lit "s") (lit "s") = true.
Proof.
  unfold endsWith; rewrite app_assoc, rev_app_distr.
  change (rev (lit "s")) with ["s"%char]; simpl.
  destruct (rev (x ++ tail)); reflexivity.
Qed.

(** X20: the [pluralize] helper maps the empty string to itself, and every
    other word to a word that ends with [s] and is one or two characters
    longer. *)
Theorem X20_pluralize_appends_a_plural_ending (s : str) :
  s <> [] ->
  endsWith (Helpers.pluralize s) (lit "s") = true
  /\ length s < length (Helpers.pluralize s) <= length s + 2.
Proof.
  intros Hne; unfold Helpers.pluralize.
  destruct s as [|a s]; [congruence|]; cbn [isEmpty].
  destruct (endsWith (a :: s) (lit "y")); [|destruct (_ || _)].
  - split; [apply (endsWith_app_s (removelast (a :: s)) (lit "ie"))|].
    rewrite length_app; pose proof (removelast_shorter Hne).
    change (length (lit "ies")) with 3; lia.
  - split; [apply (endsWith_app_s (a :: s) (lit "e"))|].
    rewrite length_app; change (length (lit "es")) with 2; lia.
  - split; [apply (endsWith_app_s (a :: s) [])|].
    rewrite length_app; change (length (lit "s")) with 1; lia.
Qed.

Lemma X20_witness :
  endsWith (Helpers.pluralize (lit "Category")) (lit "s") = true
  /\ length (lit "Category") < length (Helpers.pluralize (lit "Category"))
     <= length (lit "Category") + 2.
Proof.
  apply (@X20_pluralize_appends_a_plural_ending (lit "Category")).
  discriminate.
Defined.

(** X21: the current parser returns nothing for a text in which no line
    holds the word [class] followed by a space: property lines outside a
    class are not recognized. *)
Theorem X21_no_class_no_property (content : str) :
  Forall (fun line => includes (trim line) (lit "class ") = false) (split nl content) ->
  Parser.parsePropertiesFromContent content = [].
Proof.
  intros Hlines; unfold Parser.parsePropertiesFromContent, Parser.scanLines.
  assert (H : forall st,
             Parser.isInClass st = false -> Parser.props st = [] ->
             Parser.props (fold_left Parser.scanLine (split nl content) st) = []).
  { induction Hlines as [|l lines Hl _ IH]; intros st Hout Hnone; simpl; auto.
    apply IH; unfold Parser.scanLine; rewrite Hout, Hl; simpl;
      destruct (isEmpty _ || _ || _); auto. }
  now apply H.
Qed.

Lemma X21_witness :
  Parser.parsePropertiesFromContent
    (Samples.text [ "public int Id { get; set; }";
                    "public string Name { get; set; }" ]%string) = [].
Proof.
  apply (@X21_no_class_no_property
           (Samples.text [ "public int Id { get; set; }";
                           "public string Name { get; set; }" ]%string)).
  vm_compute; repeat constructor.
Defined.

(** ** Normalization of plain text *)

Lemma rmatch_needs_first (total : nat) (p : ascii -> bool) (r : regex)
  (s : str) (c : caps) (k : cont) :
  forallb (fun a => negb (p a)) s = true ->
  rmatch total (Seq (Chr p) r) s c k = None.
Proof.
  destruct s as [|a s]; simpl; auto.
  intros H; apply andb_true_iff in H as [Ha _].
  apply negb_true_iff in Ha; now rewrite Ha.
Qed.

Lemma rmatch_needs_second (total : nat) (p1 p2 : ascii -> bool) (r : regex)
  (s : str) (c : caps) (k : cont) :
  forallb (fun a => negb (p2 a)) s = true ->
  rmatch total (Seq (Chr p1) (Seq (Chr p2) r)) s c k = None.
Proof.
  destruct s as [|a s]; auto.
  intros H; simpl in H; apply andb_true_iff in H as [_ Hs].
  cbn [rmatch]; destruct (p1 a); auto.
  now apply (rmatch_needs_first total p2 r s c).
Qed.

Lemma search_without_candidate (total : nat) (r : regex) :
  forall (s skipped : str),
    (forall s' c k, suffix s' s -> rmatch total r s' c k = None) ->
    search total r skipped s = None.
Proof.
  induction s as [|a s IH]; intros skipped H; rewrite search_unfold.
  - now rewrite H by apply suffix_refl.
  - rewrite H by apply suffix_refl.
    apply IH; intros s' c k Hs; apply H.
    eapply suffix_trans; [exact Hs|apply suffix_cons].
Qed.

Lemma forallb_suffix (q : ascii -> bool) (s' s : str) :
  suffix s' s -> forallb q s = true -> forallb q s' = true.
Proof.
  intros [pre ->] H; rewrite forallb_app in H.
  now apply andb_true_iff in H as [_ H].
Qed.

Lemma replaceAll_without_candidate (r : regex) (rep s : str) :
  (forall s' c k, suffix s' s -> rmatch (length s) r s' c k = None) ->
  replaceAll r rep s = s.
Proof.
  intros H; unfold replaceAll; simpl.
  now rewrite (@search_without_candidate (length s) r s [] H).
Qed.

Lemma replaceAll_needs_first (p : ascii -> bool) (r : regex) (rep s : str) :
  forallb (fun a => negb (p a)) s = true ->
  replaceAll (Seq (Chr p) r) rep s = s.
Proof.
  intros H; apply replaceAll_without_candidate; intros s' c k Hs.
  apply rmatch_needs_first; eapply forallb_suffix; eauto.
Qed.

Lemma replaceAll_needs_second (p1 p2 : ascii -> bool) (r : regex) (rep s : str) :
  forallb (fun a => negb (p2 a)) s = true ->
  replaceAll (Seq (Chr p1) (Seq (Chr p2) r)) rep s = s.
Proof.
  intros H; apply replaceAll_without_candidate; intros s' c k Hs.
  apply rmatch_needs_second; eapply forallb_suffix; eauto.
Qed.

Lemma forallb_weaken (q1 q2 : ascii -> bool) (s : str) :
  (forall a, q1 a = true -> q2 a = true) ->
  forallb q1 s = true -> forallb q2 s = true.
Proof.
  intros Himp H; rewrite forallb_forall in *; auto.
Qed.

(** X22: normalization leaves a text without slash, double quote and single
    quote exactly as it is, in both parsers: only comments and quoted
    literals are ever rewritten. *)
Theorem X22_normalization_keeps_plain_text (content : str) :
  forallb (fun a => negb (Ascii.eqb a "/" || Ascii.eqb a Parser.dq
                          || Ascii.eqb a Parser.sq)) content = true ->
  Parser.cleanSourceCode content = content
  /\ Legacy.cleanContent content = content.
Proof.
  intros H.
  assert (Hslash : forallb (fun a => negb (Ascii.eqb "/" a)) content = true).
  { revert H; apply forallb_weaken; intros a.
    rewrite (Ascii.eqb_sym "/" a); destruct (Ascii.eqb a "/"); auto. }
  assert (Hdq : forallb (fun a => negb (Ascii.eqb Parser.dq a)) content = true).
  { revert H; apply forallb_weaken; intros a.
    rewrite (Ascii.eqb_sym Parser.dq a).
    destruct (Ascii.eqb a "/"), (Ascii.eqb a Parser.dq); auto. }
  assert (Hsq : forallb (fun a => negb (Ascii.eqb Parser.sq a)) content = true).
  { revert H; apply forallb_weaken; intros a.
    rewrite (Ascii.eqb_sym Parser.sq a).
    destruct (Ascii.eqb a "/"), (Ascii.eqb a Parser.dq), (Ascii.eqb a Parser.sq); auto. }
  assert (Hblock : replaceAll Parser.blockComment [] content = content)
    by (apply (replaceAll_needs_first (Ascii.eqb "/")); exact Hslash).
  assert (Hline : replaceAll Parser.lineComment [] content = content)
    by (apply (replaceAll_needs_first (Ascii.eqb "/")); exact Hslash).
  split.
  - unfold Parser.cleanSourceCode; rewrite Hblock, Hline.
    rewrite (replaceAll_needs_first (Ascii.eqb Parser.dq) _ _ content Hdq
             : replaceAll (Parser.quoted Parser.dq) _ content = content).
    rewrite (replaceAll_needs_first (Ascii.eqb Parser.sq) _ _ content Hsq
             : replaceAll (Parser.quoted Parser.sq) _ content = content).
    exact (replaceAll_needs_second (Ascii.eqb "@") (Ascii.eqb Parser.dq) _ _ content Hdq).
  - unfold Legacy.cleanContent; rewrite Hblock, Hline.
    rewrite (replaceAll_needs_first (Ascii.eqb Parser.dq) _ _ content Hdq
             : replaceAll (Legacy.plainQuoted Parser.dq) _ content = content).
    exact (replaceAll_needs_first (Ascii.eqb Parser.sq) _ _ content Hsq).
Qed.

Lemma X22_witness :
  Parser.cleanSourceCode (lit "public int Id { get; set; }")
  = lit "public int Id { get; set; }"
  /\ Legacy.cleanContent (lit "public int Id { get; set; }")
     = lit "public int Id { get; set; }".
Proof.
  apply (@X22_normalization_keeps_plain_text (lit "public int Id { get; set; }")).
  vm_compute; reflexivity.
Defined.

(** X23: no stale answer after a change.  When a call cached its result and
    the model file is modified afterwards (its time stamp is newer), the
    next call for the same type name does not answer from the cache: it
    reads the file again and returns the properties of the new text. *)
Theorem X23_modified_file_is_parsed_again
  (w w' : World) (modelType modelFile content content' : str) (files : list str)
  (ps ps' : list ModelProperty) (cache : ModelCache.store) (t t' : Z) :
  isEmpty (trim modelType) = false ->
  isEmpty (last (split "." modelType) []) = false ->
  Parser.findModelFiles w (last (split "." modelType) []) = Some files ->
  Parser.selectBestModelFile files = Some modelFile ->
  fst (ModelCache.get w modelType modelFile cache) = None ->
  readFile w modelFile = Some content ->
  Parser.extractPropertiesFromContent w content (last (split "." modelType) []) = Some ps ->
  statSync w modelFile = Some t ->
  Parser.findModelFiles w' (last (split "." modelType) []) = Some files ->
  statSync w' modelFile = Some t' ->
  (t < t')%Z ->
  readFile w' modelFile = Some content' ->
  Parser.extractPropertiesFromContent w' content' (last (split "." modelType) [])
  = Some ps' ->
  fst (Parser.parseModelProperties w' modelType
         (snd (Parser.parseModelProperties w modelType cache)))
  = Fulfilled ps'.
Proof.
  intros Hblank Hclass Hfind Hsel Hmiss Hread Hextract Hstat
         Hfind' Hstat' Hnewer Hread' Hextract'.
  assert (Hfirst : snd (Parser.parseModelProperties w modelType cache)
                   = ModelCache.set w modelType modelFile ps
                       (snd (ModelCache.get w modelType modelFile cache))).
  { unfold Parser.parseModelProperties.
    rewrite Hblank; cbv zeta; rewrite Hclass, Hfind.
    destruct files as [|file files]; [discriminate Hsel|].
    rewrite Hsel.
    destruct (ModelCache.get w modelType modelFile cache) as [[cached|] cache1];
      [discriminate Hmiss|].
    now rewrite Hread, Hextract. }
  rewrite Hfirst.
  unfold Parser.parseModelProperties.
  rewrite Hblank; cbv zeta; rewrite Hclass, Hfind'.
  destruct files as [|file files]; [discriminate Hsel|].
  rewrite Hsel.
  rewrite (@get_after_modification w w' modelType modelFile ps
             (snd (ModelCache.get w modelType modelFile cache)) t t'
             Hstat Hstat' Hnewer).
  now rewrite Hread', Hextract'.
Qed.

Lemma X23_witness :
  fst (Parser.parseModelProperties
         (mkWorld 1700000120000
            (fun path => if streq path Samples.productPath then Some 1700000100000%Z
                         else None)
            (fun _ => Some Samples.auditSource)
            (findFiles Samples.freshWorld) Samples.productRegExp)
         (lit "Shop.Models.Product")
         (snd (Parser.parseModelProperties Samples.freshWorld
                 (lit "Shop.Models.Product") [])))
  = Fulfilled [Parser.createModelProperty (lit "Note") (lit "string") []].
Proof.
  apply (@X23_modified_file_is_parsed_again Samples.freshWorld
           (mkWorld 1700000120000
              (fun path => if streq path Samples.productPath then Some 1700000100000%Z
                           else None)
              (fun _ => Some Samples.auditSource)
              (findFiles Samples.freshWorld) Samples.productRegExp)
           (lit "Shop.Models.Product") Samples.productPath
           Samples.productSource Samples.auditSource
           [Samples.productPath] [Samples.nameOnly]
           [Parser.createModelProperty (lit "Note") (lit "string") []] []
           1700000000000%Z 1700000100000%Z);
    try (vm_compute; reflexivity).
Defined.

(** ** The two input-kind functions side by side *)

Lemma startsWith_spec (s p : str) : startsWith s p = true <-> exists b, s = p ++ b.
Proof.
  revert s; induction p as [|x p IH]; intros s.
  - rewrite startsWith_nil; split; [exists s; reflexivity|reflexivity].
  - destruct s as [|a s]; simpl.
    + split; [discriminate|intros [b H]; discriminate].
    + rewrite andb_true_iff, IH; split.
      * intros [Ha [b ->]]; apply Ascii.eqb_eq in Ha; subst; eauto.
      * intros [b H]; injection H as -> ->; rewrite Ascii.eqb_refl; eauto.
Qed.

Lemma includes_nil (p : str) : includes [] p = startsWith [] p.
Proof. destruct p; reflexivity. Qed.

Lemma includes_cons (x : ascii) (s p : str) :
  includes (x :: s) p = startsWith (x :: s) p || includes s p.
Proof. reflexivity. Qed.

Lemma includes_spec (s p : str) :
  includes s p = true <-> exists a b, s = a ++ p ++ b.
Proof.
  induction s as [|x s IH].
  - rewrite includes_nil, startsWith_spec; split.
    + intros [b H]; exists [], b; exact H.
    + intros (a & b & H); destruct a; [eauto|discriminate].
  - rewrite includes_cons, orb_true_iff, startsWith_spec, IH; split.
    + intros [[b H] | (a & b & ->)]; [exists [], b; exact H|exists (x :: a), b; auto].
    + intros (a & b & H); destruct a as [|y a]; [left; eauto|].
      injection H as -> ->; right; eauto.
Qed.

Lemma includes_trans (s p q : str) :
  includes s p = true -> includes p q = true -> includes s q = true.
Proof.
  rewrite !includes_spec; intros (a & b & ->) (a' & b' & ->).
  exists (a ++ a'), (b' ++ b); now rewrite <- !app_assoc.
Qed.

Lemma includes_shadow (s p q : str) :
  includes p q = true -> includes s q = false -> includes s p = false.
Proof.
  intros Hpq Hq; destruct (includes s p) eqn:E; auto.
  rewrite (includes_trans _ _ _ E Hpq) in Hq; discriminate.
Qed.

(** X24: the older and the current [getInputTypeForProperty] give the same
    input kind for the same type and annotations, provided no annotation
    has one of the keywords the older one does not know (range, file,
    hidden) and the type does not contain both [bool] and a numeric
    keyword (the two functions test them in opposite orders). *)
Theorem X24_older_and_current_input_kinds_agree
  (p : ModelProperty) (q : Legacy.ModelProperty) :
  type p = Legacy.type q ->
  attributes p = Legacy.attributes q ->
  Parser.hasKeyword "range" (attributes p) = false ->
  Parser.hasKeyword "file" (attributes p) = false ->
  Parser.hasKeyword "hidden" (attributes p) = false ->
  includes (toLowerCase (type p)) (lit "bool")
  && (includes (toLowerCase (type p)) (lit "int")
      || includes (toLowerCase (type p)) (lit "long")
      || includes (toLowerCase (type p)) (lit "short")
      || includes (toLowerCase (type p)) (lit "byte")
      || includes (toLowerCase (type p)) (lit "decimal")
      || includes (toLowerCase (type p)) (lit "double")
      || includes (toLowerCase (type p)) (lit "float")) = false ->
  Parser.getInputTypeForProperty p = Legacy.getInputTypeForProperty q.
Proof.
  intros Ht Ha Hrange Hfile Hhidden Hmix.
  unfold Parser.getInputTypeForProperty, Legacy.getInputTypeForProperty, Legacy.anyAttr.
  rewrite <- Ht, <- Ha.
  unfold Parser.ATTRIBUTE_MAPPINGS, Parser.TYPE_MAPPINGS; cbn [Parser.firstHit].
  rewrite !existsb_map.
  unfold Parser.hasKeyword in Hrange, Hfile, Hhidden.
  rewrite Hrange, Hfile, Hhidden.
  set (ty := toLowerCase (type p)) in *.
  destruct (existsb (fun x => includes (toLowerCase x) (lit "email")) (attributes p));
    [reflexivity|].
  destruct (existsb (fun x => includes (toLowerCase x) (lit "phone")) (attributes p));
    [reflexivity|].
  destruct (existsb (fun x => includes (toLowerCase x) (lit "password")) (attributes p));
    [reflexivity|].
  destruct (existsb (fun x => includes (toLowerCase x) (lit "url")) (attributes p));
    [reflexivity|].
  destruct (existsb (fun x => includes (toLowerCase x) (lit "color")) (attributes p));
    [reflexivity|].
  destruct (includes ty (lit "datetime")) eqn:Edatetime; [reflexivity|].
  rewrite (includes_shadow ty (lit "datetimeoffset") (lit "datetime") eq_refl Edatetime).
  destruct (includes ty (lit "date")) eqn:Edate; [reflexivity|].
  destruct (includes ty (lit "time")) eqn:Etime; [reflexivity|].
  rewrite (includes_shadow ty (lit "timespan") (lit "time") eq_refl Etime).
  destruct (includes ty (lit "int")) eqn:Eint;
    [rewrite andb_true_r in Hmix; rewrite Hmix; reflexivity|].
  rewrite (includes_shadow ty (lit "integer") (lit "int") eq_refl Eint).
  destruct (includes ty (lit "long")) eqn:Elong;
    [rewrite andb_true_r in Hmix; rewrite Hmix; reflexivity|].
  destruct (includes ty (lit "short")) eqn:Eshort;
    [rewrite andb_true_r in Hmix; rewrite Hmix; reflexivity|].
  destruct (includes ty (lit "byte")) eqn:Ebyte;
    [rewrite andb_true_r in Hmix; rewrite Hmix; reflexivity|].
  destruct (includes ty (lit "decimal")) eqn:Edecimal;
    [rewrite andb_true_r in Hmix; rewrite Hmix; reflexivity|].
  destruct (includes ty (lit "double")) eqn:Edouble;
    [rewrite andb_true_r in Hmix; rewrite Hmix; reflexivity|].
  destruct (includes ty (lit "float")) eqn:Efloat;
    [rewrite andb_true_r in Hmix; rewrite Hmix; reflexivity|].
  destruct (includes ty (lit "bool")) eqn:Ebool; [reflexivity|].
  rewrite (includes_shadow ty (lit "boolean") (lit "bool") eq_refl Ebool).
  destruct (includes ty (lit "string")); [destruct (includes ty (lit "guid")); reflexivity|].
  destruct (includes ty (lit "char")); [destruct (includes ty (lit "guid")); reflexivity|].
  destruct (includes ty (lit "guid")); [reflexivity|].
  destruct (includes ty (lit "uuid")); reflexivity.
Qed.

Lemma X24_witness :
  Parser.getInputTypeForProperty
    (mkModelProperty (lit "BirthDate") (lit "DateTime") false true false
       [lit "Required"] None None None None None)
  = Legacy.getInputTypeForProperty
      (Legacy.mkModelProperty (lit "BirthDate") (lit "DateTime") false true
         [lit "Required"] None).
Proof.
  apply X24_older_and_current_input_kinds_agree; vm_compute; reflexivity.
Defined.

(** ** Where the annotations come from *)

Lemma matches_bol_inv (total : nat) (m rest : str) (c c' : caps) :
  RegexSpec.matches total Bol m rest c c' -> m = [] /\ length rest = total /\ c' = c.
Proof. intros H; inversion H; subst; auto. Qed.

Lemma matches_eol_inv (total : nat) (m rest : str) (c c' : caps) :
  RegexSpec.matches total (Eol false) m rest c c' -> m = [] /\ rest = [] /\ c' = c.
Proof.
  intros H; inversion H as [| | | | | | | | |? ? ? Hend]; subst.
  destruct Hend as [-> | [Hm _]]; [auto|discriminate].
Qed.

(** A line the annotation pattern matches is a bracket, the captured text
    without closing bracket, and a bracket. *)
Lemma attributePattern_line (line : str) (f : found) :
  exec Parser.attributePattern line = Some f ->
  exists a,
    groups f = [(1, a)]
    /\ forallb (fun ch => negb (Ascii.eqb ch "]")) a = true
    /\ line = lit "[" ++ a ++ lit "]".
Proof.
  intros H.
  pose proof (search_sound _ _ _ _ H) as Hsplit; simpl in Hsplit.
  apply exec_matches in H.
  unfold Parser.attributePattern in H; cbn [seqs] in H.
  apply matches_seq_inv in H as (m1 & r1 & c1 & Hm & H1 & H).
  apply matches_bol_inv in H1 as (-> & Hlen & ->).
  apply matches_seq_inv in H as (m2 & r2 & c2 & -> & H2 & H).
  apply matches_chr_inv in H2 as (x & -> & Hx & ->).
  apply Ascii.eqb_eq in Hx; subst x.
  apply matches_seq_inv in H as (a & r3 & c3 & -> & H3 & H).
  apply matches_group_inv in H3 as (c3' & -> & H3).
  pose proof (matches_star_chr H3) as Ha.
  apply matches_no_group in H3; [subst c3'|reflexivity].
  apply matches_seq_inv in H as (m4 & m5 & c4 & -> & H4 & H).
  apply matches_chr_inv in H4 as (y & -> & Hy & ->).
  apply Ascii.eqb_eq in Hy; subst y.
  apply matches_eol_inv in H as (-> & Hafter & ->).
  exists a; repeat split; auto.
  rewrite Hafter in Hlen, Hsplit; rewrite Hm in Hsplit.
  rewrite !app_nil_r in Hlen, Hsplit; rewrite app_nil_l in Hsplit.
  assert (Hbefore : before f = []).
  { apply (f_equal (@length ascii)) in Hsplit.
    rewrite length_app in Hsplit.
    rewrite <- Hlen in Hsplit.
    destruct (before f) as [|x b]; auto.
    rewrite length_cons in Hsplit; lia. }
  rewrite Hbefore in Hsplit; exact Hsplit.
Qed.

Lemma group1_attribute_line (line a : str) :
  Parser.group1 Parser.attributePattern line = Some a ->
  a <> []
  /\ forallb (fun ch => negb (Ascii.eqb ch "]")) a = true
  /\ line = lit "[" ++ a ++ lit "]".
Proof.
  unfold Parser.group1.
  destruct (exec Parser.attributePattern line) as [f|] eqn:E; [|discriminate].
  apply attributePattern_line in E as (b & Hg & Hb & Hline).
  rewrite Hg; change (capture 1 [(1, b)]) with (Some b).
  destruct b as [|x b]; [discriminate|].
  intros H; injection H as <-; repeat split; auto; discriminate.
Qed.

Section AnnotationFacts.

Import Parser.

Variable lines : list str.

Lemma scanLine_wellSourced (st : ScanState) (raw : str) :
  In raw lines -> RegexSpec.wellSourced lines st -> RegexSpec.wellSourced lines (scanLine st raw).
Proof.
  intros Hraw [Hcur Hprops]; unfold scanLine.
  destruct (isEmpty _ || _ || _); [split; auto|].
  destruct (negb (isInClass st) && _); [split; auto|].
  destruct (isInClass st && _); [split; auto|].
  destruct (negb (isInClass st)); [split; auto|].
  destruct (group1 attributePattern (trim raw)) as [a|] eqn:Ea.
  - apply group1_attribute_line in Ea as (Hne & Hin & Hline).
    split; simpl; auto.
    apply Forall_app; split; auto.
    constructor; [|constructor].
    repeat split; auto; exists raw; auto.
  - destruct (exec propertyPattern (trim raw)) as [[b mt af g]|].
    + destruct (capture 1 g) as [[|t0 t]|]; destruct (capture 2 g) as [[|n0 n]|];
        try (destruct (negb _ && _ && _); split; simpl; auto).
      destruct (shouldSkipProperty _ _); split; simpl; auto.
      apply Forall_app; split; auto.
    + destruct (negb _ && _ && _); split; simpl; auto.
Qed.

Lemma scanLines_wellSourced (todo : list str) :
  forall st : ScanState,
    incl todo lines -> RegexSpec.wellSourced lines st -> RegexSpec.wellSourced lines (scanLines st todo).
Proof.
  unfold scanLines; induction todo as [|l todo IH]; intros st Hincl Hst; simpl; auto.
  apply IH.
  - intros x Hx; apply Hincl; now right.
  - apply scanLine_wellSourced; auto; apply Hincl; now left.
Qed.

Lemma parse_wellSourced :
  Forall (fun p => Forall (RegexSpec.fromLine lines) (attributes p))
    (props (scanLines initialScan lines)).
Proof.
  apply scanLines_wellSourced.
  - apply incl_refl.
  - split; constructor.
Qed.

End AnnotationFacts.

(** X25: the current parser does not invent annotations.  Every annotation
    attached to a returned property is not empty, has no closing bracket,
    and is the text between the brackets of a line of the scanned text that
    is, once trimmed, exactly one bracketed annotation. *)
Theorem X25_annotations_come_from_bracketed_lines
  (content : str) (p : ModelProperty) (a : str) :
  In p (Parser.parsePropertiesFromContent content) ->
  In a (attributes p) ->
  a <> []
  /\ forallb (fun ch => negb (Ascii.eqb ch "]")) a = true
  /\ exists line,
       In line (split nl content) /\ trim line = lit "[" ++ a ++ lit "]".
Proof.
  intros Hp Ha.
  pose proof (parse_wellSourced (split nl content)) as H.
  rewrite Forall_forall in H; specialize (H p Hp).
  rewrite Forall_forall in H; exact (H a Ha).
Qed.

Lemma X25_witness :
  lit "EmailAddress" <> []
  /\ forallb (fun ch => negb (Ascii.eqb ch "]")) (lit "EmailAddress") = true
  /\ exists line,
       In line (split nl Samples.leakSource)
       /\ trim line = lit "[" ++ lit "EmailAddress" ++ lit "]".
Proof.
  apply (@X25_annotations_come_from_bracketed_lines Samples.leakSource
           (Parser.createModelProperty (lit "Name") (lit "string") [lit "EmailAddress"])
           (lit "EmailAddress")).
  - vm_compute; left; reflexivity.
  - left; reflexivity.
Defined.

(* ------------------------------------------------------------------ *)
(** * Splitting a parameter list *)

Section SplitFacts.

Import ControllerUtils.

Lemma dropEmptyLast_cons (x : str) (l : list str) :
  l <> [] -> dropEmptyLast (x :: l) = x :: dropEmptyLast l.
Proof.
  intros Hne; unfold dropEmptyLast.
  destruct l as [|y l]; [contradiction|].
  change (last (x :: y :: l) []) with (last (y :: l) []).
  change (removelast (x :: y :: l)) with (x :: removelast (y :: l)).
  destruct (isEmpty (last (y :: l) [])); reflexivity.
Qed.

Lemma withPending_nil (parts : list str) : parts <> [] -> withPending [] parts = parts.
Proof. destruct parts; [contradiction|reflexivity]. Qed.

Lemma split_plain (s : str) :
  forallb plainChar s = true ->
  forall (done : list str) (cur : str) (sc pv : option ascii),
    finishSplit (fold_left splitStep s (mkSplit done cur 0 false sc pv))
    = done ++ dropEmptyLast (map trim (withPending cur (split "," s))).
Proof.
  induction s as [|a s IH]; intros Hplain done cur sc pv.
  - simpl; unfold finishSplit, dropEmptyLast; simpl.
    rewrite app_nil_r.
    destruct (isEmpty (trim cur)); [now rewrite app_nil_r|reflexivity].
  - simpl in Hplain; apply andb_true_iff in Hplain as [Ha Hs].
    unfold plainChar in Ha; apply negb_true_iff in Ha.
    apply orb_false_iff in Ha as [Ha Hclose].
    apply orb_false_iff in Ha as [Ha Hopen].
    cbn [fold_left]; unfold splitStep at 2; cbn [inString negb depth parameters current
                                                  stringChar].
    rewrite Ha, Hopen, Hclose.
    cbn [split]; destruct (Ascii.eqb a ",") eqn:Ecomma.
    + cbn [andb Z.eqb]; rewrite (IH Hs).
      rewrite withPending_nil by apply split_not_nil.
      cbn [withPending map]; rewrite app_nil_r.
      rewrite dropEmptyLast_cons.
      * now rewrite <- app_assoc.
      * pose proof (split_not_nil "," s); destruct (split "," s); [contradiction|discriminate].
    + cbn [andb]; rewrite (IH Hs).
      pose proof (split_not_nil "," s) as Hne.
      destruct (split "," s) as [|x xs]; [contradiction|].
      cbn [withPending]; now rewrite <- app_assoc.
Qed.

End SplitFacts.

(** X26: on a parameter list without quotes and without brackets of any
    kind, [splitParameters] is a split at the commas with every part
    trimmed; the last part is left out when it is blank. *)
Theorem X26_splitParameters_on_plain_text (s : str) :
  forallb ControllerUtils.plainChar s = true ->
  ControllerUtils.splitParameters s
  = ControllerUtils.dropEmptyLast (map trim (split "," s)).
Proof.
  intros Hplain; unfold ControllerUtils.splitParameters, ControllerUtils.initialSplit.
  rewrite (split_plain s Hplain [] [] None None).
  rewrite withPending_nil by apply split_not_nil.
  reflexivity.
Qed.

Lemma X26_witness :
  ControllerUtils.splitParameters (lit "int id, string name , ")
  = ControllerUtils.dropEmptyLast (map trim (split "," (lit "int id, string name , "))).
Proof.
  apply (@X26_splitParameters_on_plain_text (lit "int id, string name , ")).
  vm_compute; reflexivity.
Defined.
